(** * Cura profile extractor: settings resolution

    A shallow embedding of [cura_profile_extractor.py]: the two file
    parsers, the definition tree walker, the inheritance chain loop and the
    effective-settings merge of [CuraExtractor._extract_machine], the custom
    quality aggregation and the quick-reference extraction, with the
    properties the specification states about them; then the other
    sections of the document ([_extract_gcode], [_extract_extruders],
    [_extract_builtin_qualities], [_extract_plugins]), the summary,
    [extract_all], [discover] and [humanize_output], with properties read
    off the code. *)

From Stdlib Require Import List String Ascii ZArith Arith Lia Permutation.
From Stdlib Require Import Floats.SpecFloat.
Import ListNotations.
Local Open Scope string_scope.
Local Open Scope list_scope.

Set Implicit Arguments.
Set Warnings "-register-all".

(** ** Python values

    What [json.load] and [configparser] hand to the program: JSON numbers
    with a fraction are binary64 floats ([spec_float]), objects are
    insertion-ordered dicts with string keys. *)

Inductive value : Type :=
| VNone
| VBool (b : bool)
| VInt (z : Z)
| VFloat (f : spec_float)
| VStr (s : string)
| VList (l : list value)
| VDict (d : list (string * value)).

(** A [dict] keeps its items in insertion order; keys are strings. *)
Definition dict (A : Type) : Type := list (string * A).

(** Python truth value of an object ([if x:], [x or y], [while x:]). *)
Definition truthy (v : value) : bool :=
  match v with
  | VNone => false
  | VBool b => b
  | VInt z => negb (Z.eqb z 0)
  | VFloat (S754_zero _) => false
  | VFloat _ => true
  | VStr s => negb (String.eqb s "")
  | VList l => match l with [] => false | _ => true end
  | VDict d => match d with [] => false | _ => true end
  end.

(** [a or b] *)
Definition py_or (a b : value) : value := if truthy a then a else b.

Module Dict.
Section Ops.
Variable A : Type.

  (** [d.get(k)] as an option, [k in d] *)
Fixpoint get (k : string) (d : dict A) : option A :=
    match d with
    | [] => None
    | (k', v) :: r => if String.eqb k' k then Some v else get k r
    end.

Definition has (k : string) (d : dict A) : bool :=
    match get k d with Some _ => true | None => false end.

  (** [d[k] = v]: an existing key keeps its place, a new one goes last. *)
Fixpoint set (k : string) (v : A) (d : dict A) : dict A :=
    match d with
    | [] => [(k, v)]
    | (k', v') :: r =>
        if String.eqb k' k then (k, v) :: r else (k', v') :: set k v r
    end.

  (** [d.update(o)]: the items of [o], in order, assigned into [d]. *)
Definition update (d o : dict A) : dict A :=
    fold_left (fun acc kv => set (fst kv) (snd kv) acc) o d.

Definition keys (d : dict A) : list string := map fst d.

  (** [dict(items)] *)
Definition of_items (items : list (string * A)) : dict A := update [] items.
End Ops.
End Dict.

(** [d.get(k)] with Python's default [None] *)
Definition get_or_none (k : string) (d : dict value) : value :=
  match Dict.get k d with Some v => v | None => VNone end.

(** ** Files

    A path is the string [str(path)]. What the program learns of a file is
    whether it exists, whether [open] succeeds and what the parser makes of
    it, so a file is given by that outcome. What [json.load] returns is
    the root object of the document: a definition whose root is an array or
    a scalar is not described. *)

Inductive file (A : Type) : Type :=
| Absent                       (* [filepath.exists()] is False *)
| OpenFails (msg : string)     (* exists, [open] raises OSError(msg) *)
| ParseFails (msg : string)    (* opens, the parser raises, [str(e) = msg] *)
| Parsed (a : A).
Arguments Absent {A}.
Arguments OpenFails {A} msg.
Arguments ParseFails {A} msg.

Definition file_exists {A} (f : file A) : bool :=
  match f with Absent => false | _ => true end.

(** The sections of an INI file as [config.sections()] and
    [config[section]] list them. *)
Definition ini : Type := list (string * list (string * string)).

(** ** Exceptions

    A run of Python code returns, raises, or takes a path this embedding
    does not describe ([OutOfModel]: a dict receiving keys that are not
    strings, [==] between values that are not strings). A raised exception carries its class and [str(e)]; the text
    of the interpreter's own TypeError and AttributeError messages is left
    empty, no modelled code reads it. *)

Inductive exc (A : Type) : Type :=
| Ok (a : A)
| Raise (cls msg : string)
| OutOfModel.
Arguments Raise {A} cls msg.
Arguments OutOfModel {A}.

Definition bind {A B} (c : exc A) (k : A -> exc B) : exc B :=
  match c with
  | Ok a => k a
  | Raise cls msg => Raise cls msg
  | OutOfModel => OutOfModel
  end.

Notation "x <- c ;; k" := (bind c (fun x => k))
  (at level 61, c at next level, right associativity).

(** [try: body  except Exception as e: handler(str(e))]. Every class
    raised here derives from [Exception]. *)
Definition try_except {A} (body : exc A) (handler : string -> exc A) : exc A :=
  match body with
  | Ok a => Ok a
  | Raise _ msg => handler msg
  | OutOfModel => OutOfModel
  end.

Definition TypeError {A} : exc A := Raise "TypeError" "".
Definition AttributeError {A} : exc A := Raise "AttributeError" "".
Definition ValueError {A} : exc A := Raise "ValueError" "".
Definition IndexError {A} : exc A := Raise "IndexError" "".
Definition KeyError {A} : exc A := Raise "KeyError" "".

(** [sub in s] on strings *)
Fixpoint str_contains (sub s : string) : bool :=
  if String.prefix sub s then true
  else match s with
       | EmptyString => false
       | String _ r => str_contains sub r
       end.

(** [x == "lit"] for a string literal: only an equal [str] compares equal. *)
Definition eq_str (v : value) (lit : string) : bool :=
  match v with VStr s => String.eqb s lit | _ => false end.

(** [key in container] followed, when it holds, by [container[key]], for
    a string key: the item of a dict, nothing when the key is absent;
    subscripting a [str] or a [list] with a string raises, and so does
    [in] on a scalar. *)
Definition item_if_in (key : string) (container : value) : exc (option value) :=
  match container with
  | VDict d => Ok (Dict.get key d)
  | VStr s => if str_contains key s then TypeError else Ok None
  | VList l => if existsb (fun x => eq_str x key) l then TypeError else Ok None
  | _ => TypeError
  end.

(** [obj] where a dict method is called on it ([obj.items()], [obj.get]) *)
Definition as_dict (obj : value) : exc (dict value) :=
  match obj with VDict d => Ok d | _ => AttributeError end.

(** [obj.get(key, default)] of what must be a dict *)
Definition dict_get_default (obj : value) (key : string) (default : value) : exc value :=
  match obj with
  | VDict d => Ok (match Dict.get key d with Some v => v | None => default end)
  | _ => AttributeError
  end.

(** [d.update(other)] where [other] is any value: a dict is merged; a
    scalar is not iterable; the characters of a non-empty string are not
    pairs; an empty sequence changes nothing. A non-empty list is taken as
    a sequence of pairs whose keys need not be strings. *)
Definition update_from (d : dict value) (other : value) : exc (dict value) :=
  match other with
  | VDict o => Ok (Dict.update d o)
  | VStr s => if String.eqb s "" then Ok d else ValueError
  | VList [] => Ok d
  | VList _ => OutOfModel
  | _ => TypeError
  end.

(** [for x in xs: acc = step(acc, x)], stopping at the first raise. *)
Fixpoint for_each {A S} (step : S -> A -> exc S) (xs : list A) (acc : S) : exc S :=
  match xs with
  | [] => Ok acc
  | x :: r => acc' <- step acc x ;; for_each step r acc'
  end.

(** ** The environment of a run

    The files under the install and user-data directories, and the
    [pathlib] operations on their paths. Directory listings are given in
    the order [glob] yields them, which the file system decides. *)

Record World : Type := {
  json_fs : string -> file (dict value);   (* a path read with [json.load] *)
  cfg_fs : string -> file ini;             (* a path read with [configparser] *)
  path_name : string -> string;            (* [Path(p).name] *)
  path_stem : string -> string;            (* [Path(p).stem] *)
  def_path : value -> string;
      (* [definitions_dir / f"{current_def}.def.json"] *)
  machine_of : string -> string;
      (* [unquote(f.stem.replace(".global", ""))] *)
  glob_machine_instances : list string;    (* [*.global.cfg] *)
  glob_definition_changes : list string;   (* [*.inst.cfg] *)
  glob_quality_changes : option (list string)
      (* [*.inst.cfg], [None] when the directory does not exist *)
}.

Section Extractor.
Variable w : World.

(** *** File parsers *)

(** [config.read(filepath)]: a file that cannot be opened is skipped
    ([ConfigParser.read] catches OSError and goes on), a syntax error is
    raised. *)
Definition config_read (filepath : string) : exc ini :=
  match cfg_fs w filepath with
  | Absent => Ok []
  | OpenFails _ => Ok []
  | ParseFails msg => Raise "configparser.Error" msg
  | Parsed sections => Ok sections
  end.

(** [dict(config[section])] *)
Definition section_dict (options : list (string * string)) : value :=
  VDict (Dict.of_items (map (fun kv => (fst kv, VStr (snd kv))) options)).

Definition annotated (filepath : string) : dict value :=
  [("_filepath", VStr filepath); ("_filename", VStr (path_name w filepath))].

Definition parse_cfg_file (filepath : string) : exc (dict value) :=
  let result := annotated filepath in
  if negb (file_exists (cfg_fs w filepath)) then
    Ok (Dict.set "_error" (VStr "File not found") result)
  else
    try_except
      (config <- config_read filepath ;;
       Ok (fold_left
             (fun result section =>
                Dict.set (fst section) (section_dict (snd section)) result)
             config result))
      (fun msg => Ok (Dict.set "_error" (VStr msg) result)).

(** [with open(filepath) as f: data = json.load(f)] *)
Definition json_load (filepath : string) : exc (dict value) :=
  match json_fs w filepath with
  | Absent => Raise "FileNotFoundError" "No such file or directory"
  | OpenFails msg => Raise "OSError" msg
  | ParseFails msg => Raise "json.JSONDecodeError" msg
  | Parsed data => Ok data
  end.

Definition parse_def_json (filepath : string) : exc (dict value) :=
  let result := annotated filepath in
  if negb (file_exists (json_fs w filepath)) then
    Ok (Dict.set "_error" (VStr "File not found") result)
  else
    try_except
      (data <- json_load filepath ;;
       Ok (Dict.update result data))
      (fun msg => Ok (Dict.set "_error" (VStr msg) result)).

End Extractor.

(** *** Definition tree walker *)

Definition PROPS : list string :=
  ["default_value"; "value"; "type"; "description"; "unit";
   "minimum_value"; "maximum_value"; "enabled"; "settable_per_mesh";
   "settable_per_extruder"; "options"].

(** The allow-listed properties of a node, in the order of [PROPS]. *)
Definition setting_info_of (node : dict value) : dict value :=
  fold_left
    (fun setting_info prop =>
       match Dict.get prop node with
       | Some v => Dict.set prop v setting_info
       | None => setting_info
       end)
    PROPS [].

(** ["type" in node and node["type"] != "category"] *)
Definition is_setting (node : dict value) : bool :=
  match Dict.get "type" node with
  | Some v => negb (eq_str v "category")
  | None => false
  end.

Definition settings_map : Type := dict (dict value).

(** The second half of [recurse], for a dict node. *)
Definition record_setting (node : dict value) (path : string)
    (settings : settings_map) : settings_map :=
  if is_setting node then
    let setting_info := setting_info_of node in
    if truthy (VDict setting_info) then Dict.set path setting_info settings
    else settings
  else settings.

(** [recurse(node, path)], with the [settings] dict it writes to passed
    through. The inner loops find [node["children"]] and walk its items. *)
Fixpoint recurse (node : value) (path : string) (settings : settings_map)
    {struct node} : exc settings_map :=
  match node with
  | VDict d =>
      settings' <-
        (fix children_in (fields : list (string * value)) : exc settings_map :=
           match fields with
           | [] => Ok settings
           | (k, v) :: rest =>
               if String.eqb k "children" then
                 match v with
                 | VDict cs =>
                     (fix each (cs : list (string * value)) (acc : settings_map)
                        : exc settings_map :=
                        match cs with
                        | [] => Ok acc
                        | (key, child) :: cs' =>
                            acc' <- recurse child key acc ;; each cs' acc'
                        end) cs settings
                 | _ => AttributeError
                 end
               else children_in rest
           end) d ;;
      Ok (record_setting d path settings')
  | _ =>
      c <- item_if_in "children" node ;;
      t <- item_if_in "type" node ;;
      Ok settings
  end.

(** [for key, child in children.items(): recurse(child, key)] *)
Definition recurse_items (children : dict value) (settings : settings_map)
    : exc settings_map :=
  for_each (fun acc kc => recurse (snd kc) (fst kc) acc) children settings.

(** One step of the [overrides] loop. *)
Definition apply_override (filename : value) (settings : settings_map)
    (kv : string * value) : exc settings_map :=
  let key := fst kv in
  let entry := match Dict.get key settings with Some e => e | None => [] end in
  entry' <- update_from entry (snd kv) ;;
  Ok (Dict.set key (Dict.set "_source" filename entry') settings).

(** The first loop of [extract_settings_from_def]: the [settings] tree. *)
Definition walk_settings (def_data : dict value) : exc settings_map :=
  match Dict.get "settings" def_data with
  | Some tree => categories <- as_dict tree ;; recurse_items categories []
  | None => Ok []
  end.

(** [def_data.get("_filename", "unknown")] *)
Definition source_tag (def_data : dict value) : value :=
  match Dict.get "_filename" def_data with
  | Some f => f
  | None => VStr "unknown"
  end.

Definition extract_settings_from_def (def_data : dict value) : exc settings_map :=
  settings <- walk_settings def_data ;;
  match Dict.get "overrides" def_data with
  | Some overrides =>
      ovs <- as_dict overrides ;;
      for_each (apply_override (source_tag def_data)) ovs settings
  | None => Ok settings
  end.

(** ** Machine extraction *)

(** A link of the inheritance chain: the dict with keys [name], [file]
    and [inherits] that the chain loop appends. *)
Record link : Type := {
  name : value;
  file_of : string;
  inherits : value
}.

Definition link_value (l : link) : value :=
  VDict [("name", name l); ("file", VStr (file_of l)); ("inherits", inherits l)].

Definition settings_value (m : settings_map) : value :=
  VDict (map (fun kv => (fst kv, VDict (snd kv))) m).

(** [entry["_sources"].append(x)] *)
Definition append_source (entry : dict value) (x : value) : exc (dict value) :=
  match Dict.get "_sources" entry with
  | Some (VList l) => Ok (Dict.set "_sources" (VList (l ++ [x])) entry)
  | Some _ => AttributeError
  | None => KeyError
  end.

(** [effective[key]] after [if key not in effective: effective[key] =
    {"_sources": []}] *)
Definition entry_or_new (key : string) (effective : settings_map) : dict value :=
  match Dict.get key effective with
  | Some e => e
  | None => [("_sources", VList [])]
  end.

(** Body of [for key, value in settings.items()] in the chain merge. *)
Definition merge_setting (layer : value) (effective : settings_map)
    (kv : string * dict value) : exc settings_map :=
  let key := fst kv in
  let entry := Dict.update (entry_or_new key effective) (snd kv) in
  entry' <- append_source entry layer ;;
  Ok (Dict.set key entry' effective).

(** Body of [for key, value in ...["values"].items()]. *)
Definition override_setting (effective : settings_map) (kv : string * value)
    : exc settings_map :=
  let key := fst kv in
  let entry := Dict.set "effective_value" (snd kv) (entry_or_new key effective) in
  entry' <- append_source entry (VStr "definition_changes") ;;
  Ok (Dict.set key entry' effective).

(** [if "values" in definition_changes: for ... in
    definition_changes["values"].items(): ...] *)
Definition apply_definition_changes (definition_changes : dict value)
    (effective : settings_map) : exc settings_map :=
  match Dict.get "values" definition_changes with
  | Some values => vs <- as_dict values ;; for_each override_setting vs effective
  | None => Ok effective
  end.

Section Machine.
Variable w : World.

(** The settings one chain link contributes:
    [extract_settings_from_def(parse_def_json(Path(def_info["file"])))]. *)
Definition layer_settings (def_info : link) : exc settings_map :=
  def_data <- parse_def_json w (file_of def_info) ;;
  extract_settings_from_def def_data.

(** Body of [for def_info in reversed(chain)]. *)
Definition merge_layer (effective : settings_map) (def_info : link)
    : exc settings_map :=
  settings <- layer_settings def_info ;;
  for_each (merge_setting (name def_info)) settings effective.

Definition merge_chain (chain : list link) : exc settings_map :=
  for_each merge_layer (rev chain) [].

(** The effective-settings part of [_extract_machine]: chain merge, then
    the definition-changes overlay. *)
Definition effective_settings (chain : list link) (definition_changes : dict value)
    : exc settings_map :=
  effective <- merge_chain chain ;;
  apply_definition_changes definition_changes effective.

(** The [while current_def:] loop. It has no bound of its own: [fuel]
    counts iterations and [None] is a loop still running when it is used
    up. *)
Fixpoint chain_loop (fuel : nat) (current_def : value) (chain : list link)
    : option (exc (list link)) :=
  match fuel with
  | O => None
  | S fuel' =>
      if truthy current_def then
        let p := def_path w current_def in
        if file_exists (json_fs w p) then
          match parse_def_json w p with
          | Ok def_data =>
              chain_loop fuel' (get_or_none "inherits" def_data)
                (chain ++ [{| name := current_def; file_of := p;
                              inherits := get_or_none "inherits" def_data |}])
          | Raise cls msg => Some (Raise cls msg)
          | OutOfModel => Some OutOfModel
          end
        else Some (Ok chain)
      else Some (Ok chain)
  end.

(** [for f in machine_dir.glob(...): if name == machine_name: ... break] *)
Definition find_machine_file (machine_name : string) : option string :=
  find (fun f => String.eqb (machine_of w f) machine_name)
       (glob_machine_instances w).

(** The search for the definition-changes file named by slot 6. *)
Fixpoint find_definition_changes (settings_name : string) (files : list string)
    : exc (option (dict value)) :=
  match files with
  | [] => Ok None
  | f :: rest =>
      cfg <- parse_cfg_file w f ;;
      general <- dict_get_default (VDict cfg) "general" (VDict []) ;;
      n <- dict_get_default general "name" (VStr "") ;;
      if eq_str n settings_name then Ok (Some cfg)
      else find_definition_changes settings_name rest
  end.

Definition _extract_machine (fuel : nat) (machine_name : string)
    : option (exc (dict value)) :=
  let result : dict value :=
    [("inheritance_chain", VList []); ("effective_settings", VDict []);
     ("definition_changes", VDict [])] in
  match find_machine_file machine_name with
  | None =>
      Some (Ok (Dict.set "_error"
                  (VStr ("Machine not found: " ++ machine_name)) result))
  | Some machine_file =>
      let front : exc (dict value * value) :=
        machine_cfg <- parse_cfg_file w machine_file ;;
        let result := Dict.set "instance" (VDict machine_cfg) result in
        let containers := match Dict.get "containers" machine_cfg with
                          | Some c => c
                          | None => VDict []
                          end in
        let result := Dict.set "container_stack" containers result in
        settings_name <- dict_get_default containers "6" (VStr "") ;;
        result <-
          (if truthy settings_name then
             match settings_name with
             | VStr s =>
                 found <- find_definition_changes s (glob_definition_changes w) ;;
                 match found with
                 | Some cfg => Ok (Dict.set "definition_changes" (VDict cfg) result)
                 | None => Ok result
                 end
             | _ => OutOfModel
             end
           else Ok result) ;;
        base_def_name <- dict_get_default containers "7" (VStr "creality_ender3pro") ;;
        Ok (result, base_def_name) in
      match front with
      | Ok (result, base_def_name) =>
          match chain_loop fuel base_def_name [] with
          | None => None
          | Some looped =>
              Some (chain <- looped ;;
                    let result :=
                      Dict.set "inheritance_chain" (VList (map link_value chain))
                               result in
                    definition_changes <-
                      as_dict (get_or_none "definition_changes" result) ;;
                    effective <- effective_settings chain definition_changes ;;
                    Ok (Dict.set "effective_settings" (settings_value effective)
                                 result))
          end
      | Raise cls msg => Some (Raise cls msg)
      | OutOfModel => Some OutOfModel
      end
  end.

End Machine.

(** ** Custom quality profiles *)

(** One entry of the result of [_extract_custom_qualities]: the dict with
    keys [files], [settings] and, once a file brought one, [metadata]. *)
Record profile : Type := {
  files : list string;
  settings : dict value;
  metadata : option value
}.

Section Qualities.
Variable w : World.

(** Body of [for f in quality_dir.glob("*.inst.cfg")]. *)
Definition add_quality_file (result : dict profile) (f : string)
    : exc (dict profile) :=
  cfg <- parse_cfg_file w f ;;
  general <- dict_get_default (VDict cfg) "general" (VDict []) ;;
  n <- dict_get_default general "name" (VStr (path_stem w f)) ;;
  match n with
  | VStr name =>
      let p := match Dict.get name result with
               | Some p => p
               | None => {| files := []; settings := []; metadata := None |}
               end in
      settings' <-
        match Dict.get "values" cfg with
        | Some values => update_from (settings p) values
        | None => Ok (settings p)
        end ;;
      Ok (Dict.set name
            {| files := files p ++ [f];
               settings := settings';
               metadata := match Dict.get "metadata" cfg with
                           | Some m => Some m
                           | None => metadata p
                           end |}
            result)
  | _ => OutOfModel
  end.

Definition _extract_custom_qualities : exc (dict profile) :=
  match glob_quality_changes w with
  | None => Ok []
  | Some listing => for_each add_quality_file listing []
  end.

End Qualities.

(** ** Quick reference *)

Definition IMPORTANT_SETTINGS : list string :=
  ["layer_height"; "layer_height_0";
   "wall_thickness"; "wall_line_count";
   "top_layers"; "bottom_layers"; "top_bottom_thickness";
   "infill_sparse_density"; "infill_pattern";
   "speed_print"; "speed_infill"; "speed_wall"; "speed_wall_0"; "speed_wall_x";
   "speed_topbottom"; "speed_travel"; "speed_layer_0";
   "retraction_enable"; "retraction_amount"; "retraction_speed";
   "retraction_hop_enabled"; "retraction_hop";
   "material_print_temperature"; "material_bed_temperature";
   "cool_fan_speed"; "cool_fan_speed_min"; "cool_fan_speed_max";
   "support_enable"; "support_type"; "support_structure";
   "adhesion_type"; "skirt_line_count"; "brim_width";
   "machine_width"; "machine_depth"; "machine_height";
   "machine_heated_bed"; "machine_nozzle_size"].

(** [seq[-1]] *)
Definition last_item (seq : value) : exc value :=
  match seq with
  | VList l => match rev l with x :: _ => Ok x | [] => IndexError end
  | VStr s =>
      match rev (list_ascii_of_string s) with
      | c :: _ => Ok (VStr (String c EmptyString))
      | [] => IndexError
      end
  | VDict _ => KeyError
  | _ => TypeError
  end.

(** [info.get("effective_value") or info.get("value") or
    info.get("default_value")] *)
Definition reported_value (info : dict value) : value :=
  py_or (get_or_none "effective_value" info)
        (py_or (get_or_none "value" info) (get_or_none "default_value" info)).

(** [info.get("_sources", ["unknown"])[-1] if "_sources" in info else
    "default"] *)
Definition reported_source (info : dict value) : exc value :=
  match Dict.get "_sources" info with
  | Some sources => last_item sources
  | None => Ok (VStr "default")
  end.

(** Body of [for setting in IMPORTANT_SETTINGS]. *)
Definition key_setting (def_changes effective : value) (key_settings : dict value)
    (setting : string) : exc (dict value) :=
  customized <- item_if_in setting def_changes ;;
  match customized with
  | Some v =>
      Ok (Dict.set setting
            (VDict [("value", v); ("source", VStr "your_customizations")])
            key_settings)
  | None =>
      merged <- item_if_in setting effective ;;
      match merged with
      | Some info =>
          info <- as_dict info ;;
          source <- reported_source info ;;
          Ok (Dict.set setting
                (VDict [("value", reported_value info); ("source", source)])
                key_settings)
      | None => Ok key_settings
      end
  end.

Definition extract_key_settings (data : dict value) : exc (dict value) :=
  let machine := match Dict.get "machine" data with
                 | Some m => m
                 | None => VDict []
                 end in
  effective <- dict_get_default machine "effective_settings" (VDict []) ;;
  definition_changes <- dict_get_default machine "definition_changes" (VDict []) ;;
  def_changes <- dict_get_default definition_changes "values" (VDict []) ;;
  for_each (key_setting def_changes effective) IMPORTANT_SETTINGS [].

(** ** A worked installation

    The chain of the specification's example: [fdmprinter] defines
    [layer_height] with default 0.2 under a category, [creality_base] does
    not mention it, [creality_ender3pro] overrides the default to 0.16, and
    the machine's definition-changes file sets 0.12. *)

Module Ender3.

  (** 0.2 and 0.16 as binary64 *)
Definition f0_2 : value := VFloat (S754_finite false 7205759403792794 (-55)).
Definition f0_16 : value := VFloat (S754_finite false 5764607523034235 (-55)).

Definition fdmprinter : dict value :=
    [("name", VStr "FDM Printer Base Description");
     ("settings",
      VDict [("resolution",
              VDict [("label", VStr "Quality");
                     ("type", VStr "category");
                     ("children",
                      VDict [("layer_height",
                              VDict [("label", VStr "Layer Height");
                                     ("description", VStr "The height of each layer in mm.");
                                     ("unit", VStr "mm");
                                     ("type", VStr "float");
                                     ("default_value", f0_2)])])])])].

Definition creality_base : dict value :=
    [("name", VStr "Creality Base Printer");
     ("inherits", VStr "fdmprinter");
     ("overrides",
      VDict [("machine_name", VDict [("default_value", VStr "Creawsome Base Printer")])])].

Definition creality_ender3pro : dict value :=
    [("name", VStr "Creality Ender-3 Pro");
     ("inherits", VStr "creality_base");
     ("overrides",
      VDict [("machine_name", VDict [("default_value", VStr "Creality Ender-3 Pro")]);
             ("layer_height", VDict [("default_value", f0_16)])])].

Definition definitions (p : string) : file (dict value) :=
    if String.eqb p "definitions/fdmprinter.def.json" then Parsed fdmprinter
    else if String.eqb p "definitions/creality_base.def.json" then Parsed creality_base
    else if String.eqb p "definitions/creality_ender3pro.def.json"
         then Parsed creality_ender3pro
    else Absent.

Definition machine_instance : ini :=
    [("general", [("version", "5"); ("name", "Ender3Pro"); ("id", "Ender3Pro")]);
     ("containers",
      [("0", "Ender3Pro_user"); ("6", "Ender3Pro_settings");
       ("7", "creality_ender3pro")])].

Definition machine_changes : ini :=
    [("general", [("version", "4"); ("name", "Ender3Pro_settings")]);
     ("values", [("layer_height", "0.12")])].

Definition configs (p : string) : file ini :=
    if String.eqb p "machine_instances/Ender3Pro.global.cfg" then Parsed machine_instance
    else if String.eqb p "definition_changes/Ender3Pro_settings.inst.cfg"
         then Parsed machine_changes
    else Absent.

  (** A parsed document that has [layer_height] in its settings tree and
      in its overrides. *)
Definition standalone : dict value :=
    [("_filepath", VStr "definitions/standalone.def.json");
     ("_filename", VStr "standalone.def.json");
     ("settings",
      VDict [("resolution",
              VDict [("type", VStr "category");
                     ("children",
                      VDict [("layer_height",
                              VDict [("unit", VStr "mm");
                                     ("type", VStr "float");
                                     ("default_value", f0_2)])])])]);
     ("overrides",
      VDict [("layer_height",
              VDict [("default_value", f0_16); ("maximum_value", VInt 1)])])].

  (** The part of a path after the last [/]. *)
Fixpoint basename_from (acc s : string) : string :=
    match s with
    | EmptyString => acc
    | String c r =>
        if Ascii.eqb c "/"%char then basename_from r r else basename_from acc r
    end.
Definition basename (p : string) : string := basename_from p p.

(** The name up to its last dot, when there is one. *)
Fixpoint before_last_dot (s : string) : option string :=
  match s with
  | EmptyString => None
  | String c r =>
      match before_last_dot r with
      | Some front => Some (String c front)
      | None => if Ascii.eqb c "."%char then Some EmptyString else None
      end
  end.

(** [Path(p).stem]: the name without its last suffix; a dot that starts
    or ends the name is no suffix. *)
Definition stem (p : string) : string :=
  let n := basename p in
  match before_last_dot n with
  | Some front =>
      if orb (String.eqb front "")
             (Nat.eqb (S (String.length front)) (String.length n))
      then n else front
  | None => n
  end.

Definition world : World :=
    {| json_fs := definitions;
       cfg_fs := configs;
       path_name := basename;
       path_stem := stem;
       def_path := fun id =>
         match id with
         | VStr s => ("definitions/" ++ s ++ ".def.json")%string
         | _ => "definitions/.def.json"
         end;
       machine_of := fun f =>
         if String.eqb f "machine_instances/Ender3Pro.global.cfg" then "Ender3Pro"
         else f;
       glob_machine_instances := ["machine_instances/Ender3Pro.global.cfg"];
       glob_definition_changes := ["definition_changes/Ender3Pro_settings.inst.cfg"];
       glob_quality_changes := None |}.

(** The chain the loop builds from [creality_ender3pro], and the
    definition-changes dict [parse_cfg_file] returns. *)
Definition chain : list link :=
  [{| name := VStr "creality_ender3pro";
      file_of := "definitions/creality_ender3pro.def.json";
      inherits := VStr "creality_base" |};
   {| name := VStr "creality_base";
      file_of := "definitions/creality_base.def.json";
      inherits := VStr "fdmprinter" |};
   {| name := VStr "fdmprinter";
      file_of := "definitions/fdmprinter.def.json";
      inherits := VNone |}].

Definition definition_changes : dict value :=
  [("_filepath", VStr "definition_changes/Ender3Pro_settings.inst.cfg");
   ("_filename", VStr "Ender3Pro_settings.inst.cfg");
   ("general", VDict [("version", VStr "4"); ("name", VStr "Ender3Pro_settings")]);
   ("values", VDict [("layer_height", VStr "0.12")])].

End Ender3.

(** ** A definition with a field named like the provenance list

    [patched] inherits [fdmprinter] and its override of [layer_height]
    carries a field [_sources]. *)

Module Collision.

Definition patched : dict value :=
  [("name", VStr "Patched");
   ("inherits", VStr "fdmprinter");
   ("overrides", VDict [("layer_height", VDict [("_sources", VList [])])])].

Definition definitions (p : string) : file (dict value) :=
  if String.eqb p "definitions/fdmprinter.def.json" then Parsed Ender3.fdmprinter
  else if String.eqb p "definitions/patched.def.json" then Parsed patched
  else Absent.

Definition world : World :=
  {| json_fs := definitions;
     cfg_fs := fun _ => Absent;
     path_name := Ender3.basename;
     path_stem := Ender3.stem;
     def_path := def_path Ender3.world;
     machine_of := fun f => f;
     glob_machine_instances := [];
     glob_definition_changes := [];
     glob_quality_changes := None |}.

Definition chain : list link :=
  [{| name := VStr "patched"; file_of := "definitions/patched.def.json";
      inherits := VStr "fdmprinter" |};
   {| name := VStr "fdmprinter"; file_of := "definitions/fdmprinter.def.json";
      inherits := VNone |}].

End Collision.

(** ** Two definitions that inherit each other *)

Module Cycle.

Definition doc_a : dict value := [("name", VStr "A"); ("inherits", VStr "B")].
Definition doc_b : dict value := [("name", VStr "B"); ("inherits", VStr "A")].

Definition definitions (p : string) : file (dict value) :=
  if String.eqb p "definitions/A.def.json" then Parsed doc_a
  else if String.eqb p "definitions/B.def.json" then Parsed doc_b
  else Absent.

Definition world : World :=
  {| json_fs := definitions;
     cfg_fs := fun _ => Absent;
     path_name := Ender3.basename;
     path_stem := Ender3.stem;
     def_path := def_path Ender3.world;
     machine_of := fun f => f;
     glob_machine_instances := [];
     glob_definition_changes := [];
     glob_quality_changes := None |}.

(** The identifiers on the cycle. *)
Definition on_cycle (id : value) : Prop := id = VStr "A" \/ id = VStr "B".

End Cycle.

(** ** A definition whose parent has no file

    [creality_ender3pro] and [creality_base] are installed, the
    [fdmprinter] file that [creality_base] inherits is not. *)

Module Truncated.

Definition definitions (p : string) : file (dict value) :=
  if String.eqb p "definitions/creality_base.def.json" then Parsed Ender3.creality_base
  else if String.eqb p "definitions/creality_ender3pro.def.json"
       then Parsed Ender3.creality_ender3pro
  else Absent.

Definition world : World :=
  {| json_fs := definitions;
     cfg_fs := cfg_fs Ender3.world;
     path_name := Ender3.basename;
     path_stem := Ender3.stem;
     def_path := def_path Ender3.world;
     machine_of := machine_of Ender3.world;
     glob_machine_instances := glob_machine_instances Ender3.world;
     glob_definition_changes := glob_definition_changes Ender3.world;
     glob_quality_changes := None |}.

Definition chain : list link :=
  [{| name := VStr "creality_ender3pro";
      file_of := "definitions/creality_ender3pro.def.json";
      inherits := VStr "creality_base" |};
   {| name := VStr "creality_base";
      file_of := "definitions/creality_base.def.json";
      inherits := VStr "fdmprinter" |}].

End Truncated.

(** ** Files that exist and cannot be opened *)

Module Locked.

Definition world : World :=
  {| json_fs := fun p =>
       if String.eqb p "definitions/locked.def.json"
       then OpenFails "[Errno 13] Permission denied" else Absent;
     cfg_fs := fun p =>
       if String.eqb p "quality_changes/locked.inst.cfg"
       then OpenFails "[Errno 13] Permission denied" else Absent;
     path_name := Ender3.basename;
     path_stem := Ender3.stem;
     def_path := def_path Ender3.world;
     machine_of := fun f => f;
     glob_machine_instances := [];
     glob_definition_changes := [];
     glob_quality_changes := Some ["quality_changes/locked.inst.cfg"] |}.

End Locked.

(** ** A customization that sets an empty value

    The installation of [Ender3], with [layer_height =] left empty in the
    definition-changes file. *)

Module Blank.

Definition machine_changes : ini :=
  [("general", [("version", "4"); ("name", "Ender3Pro_settings")]);
   ("values", [("layer_height", "")])].

Definition configs (p : string) : file ini :=
  if String.eqb p "machine_instances/Ender3Pro.global.cfg"
  then Parsed Ender3.machine_instance
  else if String.eqb p "definition_changes/Ender3Pro_settings.inst.cfg"
       then Parsed machine_changes
  else Absent.

Definition world : World :=
  {| json_fs := json_fs Ender3.world;
     cfg_fs := configs;
     path_name := Ender3.basename;
     path_stem := Ender3.stem;
     def_path := def_path Ender3.world;
     machine_of := machine_of Ender3.world;
     glob_machine_instances := glob_machine_instances Ender3.world;
     glob_definition_changes := glob_definition_changes Ender3.world;
     glob_quality_changes := None |}.

(** The [machine] block [_extract_machine] returns there, and the output
    document around it. *)
Definition machine : dict value :=
  match _extract_machine world 4 "Ender3Pro" with
  | Some (Ok m) => m
  | _ => []
  end.

Definition data : dict value := [("machine", VDict machine)].

End Blank.

(** ** A machine without customizations

    The output document for the chain of [Ender3] when the machine has no
    definition-changes file. *)

Module Stock.

Definition effective : settings_map :=
  [("layer_height",
    [("_sources", VList [VStr "fdmprinter"; VStr "creality_ender3pro"]);
     ("default_value", Ender3.f0_16);
     ("type", VStr "float");
     ("description", VStr "The height of each layer in mm.");
     ("unit", VStr "mm");
     ("_source", VStr "creality_ender3pro.def.json")]);
   ("machine_name",
    [("_sources", VList [VStr "creality_base"; VStr "creality_ender3pro"]);
     ("default_value", VStr "Creality Ender-3 Pro");
     ("_source", VStr "creality_ender3pro.def.json")])].

Definition machine : dict value :=
  [("inheritance_chain", VList (map link_value Ender3.chain));
   ("effective_settings", settings_value effective);
   ("definition_changes", VDict [])].

Definition data : dict value := [("machine", VDict machine)].

End Stock.

(** ** One custom profile in two files

    [fine.inst.cfg] and [fine_extruder.inst.cfg] both declare the profile
    [Fine] and both set [layer_height]. The two worlds differ only in the
    order in which the directory scan yields the files. *)

Module Pair.

Definition global_file : ini :=
  [("general", [("version", "4"); ("name", "Fine")]);
   ("metadata", [("quality_type", "fine")]);
   ("values", [("layer_height", "0.1"); ("infill_sparse_density", "20")])].

Definition extruder_file : ini :=
  [("general", [("version", "4"); ("name", "Fine")]);
   ("metadata", [("position", "0")]);
   ("values", [("layer_height", "0.2"); ("wall_line_count", "3")])].

Definition configs (p : string) : file ini :=
  if String.eqb p "quality_changes/fine.inst.cfg" then Parsed global_file
  else if String.eqb p "quality_changes/fine_extruder.inst.cfg"
       then Parsed extruder_file
  else Absent.

Definition world_with (listing : list string) : World :=
  {| json_fs := fun _ => Absent;
     cfg_fs := configs;
     path_name := Ender3.basename;
     path_stem := Ender3.stem;
     def_path := def_path Ender3.world;
     machine_of := fun f => f;
     glob_machine_instances := [];
     glob_definition_changes := [];
     glob_quality_changes := Some listing |}.

Definition global_first : World :=
  world_with ["quality_changes/fine.inst.cfg";
              "quality_changes/fine_extruder.inst.cfg"].

Definition extruder_first : World :=
  world_with ["quality_changes/fine_extruder.inst.cfg";
              "quality_changes/fine.inst.cfg"].

End Pair.

(** * The other sections of the output document *)

(** ** Text *)

(** [s.replace(old, new)] for a pattern [old] that is not empty: the
    occurrences are taken from the left and do not overlap. [skip] counts
    the characters of an occurrence still to pass over. *)
Fixpoint replace_from (old new : string) (skip : nat) (s : string) : string :=
  match s with
  | EmptyString => EmptyString
  | String c r =>
      match skip with
      | S n => replace_from old new n r
      | O =>
          if String.prefix old s
          then (new ++ replace_from old new (String.length old - 1) r)%string
          else String c (replace_from old new 0 r)
      end
  end.

Definition str_replace (old new s : string) : string := replace_from old new 0 s.

(** [s.split(sep)] for a separator of one character. *)
Fixpoint split_on (sep : ascii) (s : string) : list string :=
  match s with
  | EmptyString => [EmptyString]
  | String c r =>
      if Ascii.eqb c sep then EmptyString :: split_on sep r
      else match split_on sep r with
           | first :: others => String c first :: others
           | [] => [String c EmptyString]
           end
  end.

(** [sep.join(parts)] *)
Fixpoint join (sep : string) (parts : list string) : string :=
  match parts with
  | [] => EmptyString
  | [p] => p
  | p :: rest => (p ++ sep ++ join sep rest)%string
  end.

(** [s.count(c)] for one character *)
Fixpoint count_char (c : ascii) (s : string) : nat :=
  match s with
  | EmptyString => 0
  | String x r => (if Ascii.eqb x c then 1 else 0) + count_char c r
  end.

Definition newline : ascii := "010"%char.

(** ** The rest of the environment

    Beside the files of [World]: the other directory scans, the plugin
    manifest, and [str.lower], which depends on Unicode tables. *)

Record Site : Type := {
  site_world : World;
  text_lower : string -> string;            (* [s.lower()] *)
  packages_json : file value;               (* [packages.json], any JSON root *)
  preferences_path : string;                (* [appdata_path / "cura.cfg"] *)
  glob_settings_files : list string;        (* [*_settings.inst.cfg] *)
  glob_extruders : option (list string);    (* [*.extruder.cfg], [None]: no directory *)
  glob_builtin_qualities : option (list string);
      (* [base_global_*.inst.cfg], [None]: no directory *)
  glob_materials : option (list string)
      (* [*.xml.fdm_material], [None]: no directory *)
}.

(** ** Built-in quality profiles *)

Section Builtin.
Variable st : Site.
Let w := site_world st.

(** Body of [for f in quality_dir.glob("base_global_*.inst.cfg")]. *)
Definition add_builtin_quality (result : dict value) (f : string)
    : exc (dict value) :=
  cfg <- parse_cfg_file w f ;;
  general <- dict_get_default (VDict cfg) "general" (VDict []) ;;
  n <- dict_get_default general "name" (VStr (path_stem w f)) ;;
  meta <- dict_get_default (VDict cfg) "metadata" (VDict []) ;;
  quality_type <- dict_get_default meta "quality_type" (VStr "unknown") ;;
  match quality_type with
  | VStr q =>
      Ok (Dict.set q
            (VDict [("name", n); ("file", VStr f);
                    ("settings", match Dict.get "values" cfg with
                                 | Some v => v
                                 | None => VDict []
                                 end)])
            result)
  | _ => OutOfModel
  end.

Definition _extract_builtin_qualities : exc (dict value) :=
  match glob_builtin_qualities st with
  | None => Ok []
  | Some listing => for_each add_builtin_quality listing []
  end.

End Builtin.

(** ** Plugins *)

(** [type(obj).__name__] *)
Definition type_name (obj : value) : string :=
  match obj with
  | VNone => "NoneType"
  | VBool _ => "bool"
  | VInt _ => "int"
  | VFloat _ => "float"
  | VStr _ => "str"
  | VList _ => "list"
  | VDict _ => "dict"
  end.

(** [str(e)] of the AttributeError for a method only dicts have. *)
Definition no_attribute (obj : value) (attr : string) : string :=
  ("'" ++ type_name obj ++ "' object has no attribute '" ++ attr ++ "'")%string.

(** [obj.get(key, default)], with the message of the error it raises on
    what is not a dict. *)
Definition get_method (obj : value) (key : string) (default : value)
    : exc value :=
  match obj with
  | VDict d => Ok (match Dict.get key d with Some v => v | None => default end)
  | _ => Raise "AttributeError" (no_attribute obj "get")
  end.

(** [obj.items()] *)
Definition items_method (obj : value) : exc (dict value) :=
  match obj with
  | VDict d => Ok d
  | _ => Raise "AttributeError" (no_attribute obj "items")
  end.

(** The dict the loop stores for one package. *)
Definition plugin_entry (pkg_id : string) (pkg_info : value) : exc value :=
  info <- get_method pkg_info "package_info" (VDict []) ;;
  display <- get_method info "display_name" (VStr pkg_id) ;;
  version <- get_method info "package_version" (VStr "unknown") ;;
  description <- get_method info "description" (VStr "") ;;
  author <- get_method info "author" (VDict []) ;;
  author_name <- get_method author "display_name" (VStr "unknown") ;;
  website <- get_method info "website" (VStr "") ;;
  Ok (VDict [("name", display); ("version", version);
             ("description", description); ("author", author_name);
             ("website", website)]).

(** The loop over the installed packages inside the [try]: the result
    dict as far as it got, and how the loop ended. *)
Fixpoint plugins_loop (installed : dict value) (result : dict value)
    : dict value * exc unit :=
  match installed with
  | [] => (result, Ok tt)
  | (pkg_id, pkg_info) :: rest =>
      match plugin_entry pkg_id pkg_info with
      | Ok entry => plugins_loop rest (Dict.set pkg_id entry result)
      | Raise cls msg => (result, Raise cls msg)
      | OutOfModel => (result, OutOfModel)
      end
  end.

(** The [try] body once [packages.json] is loaded. *)
Definition plugins_try (packages : value) (result : dict value)
    : dict value * exc unit :=
  match (installed <- get_method packages "installed" (VDict []) ;;
         items_method installed) with
  | Ok installed => plugins_loop installed result
  | Raise cls msg => (result, Raise cls msg)
  | OutOfModel => (result, OutOfModel)
  end.

Section Plugins.
Variable st : Site.

Definition _extract_plugins : exc (dict value) :=
  match packages_json st with
  | Absent => Ok []
  | OpenFails msg => Ok [("_error", VStr msg)]
  | ParseFails msg => Ok [("_error", VStr msg)]
  | Parsed packages =>
      match plugins_try packages [] with
      | (result, Ok _) => Ok result
      | (result, Raise _ msg) => Ok (Dict.set "_error" (VStr msg) result)
      | (_, OutOfModel) => OutOfModel
      end
  end.

End Plugins.

(** ** Start and end G-code *)

(** The dict with keys [start_gcode], [end_gcode] and [source]. *)
Record gcode : Type := {
  start_gcode : value;
  end_gcode : value;
  source : value
}.

Definition gcode_dict (g : gcode) : dict value :=
  [("start_gcode", start_gcode g); ("end_gcode", end_gcode g);
   ("source", source g)].

Definition GCODE_DEFINITIONS : list string :=
  ["creality_ender3pro"; "creality_base"; "fdmprinter"].

Section Gcode.
Variable st : Site.
Let w := site_world st.

(** [machine_name.lower().replace(" ", "_") in
    f.name.lower().replace("+", "_")] *)
Definition settings_file_matches (machine_name f : string) : bool :=
  str_contains (str_replace " " "_" (text_lower st machine_name))
               (str_replace "+" "_" (text_lower st (path_name w f))).

(** The loop over [*_settings.inst.cfg]: the first matching file is read
    and ends the loop. *)
Definition user_gcode (machine_name : string) (result : gcode) : exc gcode :=
  match find (settings_file_matches machine_name) (glob_settings_files st) with
  | None => Ok result
  | Some f =>
      cfg <- parse_cfg_file w f ;;
      let values := match Dict.get "values" cfg with
                    | Some v => v
                    | None => VDict []
                    end in
      s <- item_if_in "machine_start_gcode" values ;;
      let result := match s with
                    | Some v => {| start_gcode := v; end_gcode := end_gcode result;
                                   source := VStr f |}
                    | None => result
                    end in
      e <- item_if_in "machine_end_gcode" values ;;
      Ok (match e with
          | Some v => {| start_gcode := start_gcode result; end_gcode := v;
                         source := VStr f |}
          | None => result
          end)
  end.

(** The fallback loop over the three fixed definition names. *)
Fixpoint definition_gcode (names : list string) (result : gcode) : exc gcode :=
  match names with
  | [] => Ok result
  | def_name :: rest =>
      let p := def_path w (VStr def_name) in
      if file_exists (json_fs w p) then
        def_data <- parse_def_json w p ;;
        let overrides := match Dict.get "overrides" def_data with
                         | Some o => o
                         | None => VDict []
                         end in
        let settings := match Dict.get "settings" def_data with
                        | Some t => t
                        | None => VDict []
                        end in
        machine_settings <- dict_get_default settings "machine_settings" (VDict []) ;;
        _ <- dict_get_default machine_settings "children" (VDict []) ;;
        s <- item_if_in "machine_start_gcode" overrides ;;
        result <-
          match s with
          | Some o =>
              v <- dict_get_default o "default_value" (VStr "") ;;
              Ok {| start_gcode := v; end_gcode := end_gcode result;
                    source := VStr p |}
          | None => Ok result
          end ;;
        e <- item_if_in "machine_end_gcode" overrides ;;
        result <-
          match e with
          | Some o =>
              v <- dict_get_default o "default_value" (VStr "") ;;
              Ok {| start_gcode := start_gcode result; end_gcode := v;
                    source := source result |}
          | None => Ok result
          end ;;
        if truthy (start_gcode result) then Ok result
        else definition_gcode rest result
      else definition_gcode rest result
  end.

Definition _extract_gcode (machine_name : string) : exc gcode :=
  result <- user_gcode machine_name
              {| start_gcode := VStr ""; end_gcode := VStr "";
                 source := VStr "unknown" |} ;;
  if negb (truthy (start_gcode result))
  then definition_gcode GCODE_DEFINITIONS result
  else Ok result.

End Gcode.

(** ** Extruders *)

Section Extruders.
Variable st : Site.
Let w := site_world st.

(** Body of [for f in extruder_dir.glob("*.extruder.cfg")]. *)
Definition add_extruder (machine_name : string) (result : dict value)
    (f : string) : exc (dict value) :=
  cfg <- parse_cfg_file w f ;;
  let meta := match Dict.get "metadata" cfg with
              | Some m => m
              | None => VDict []
              end in
  machine <- dict_get_default meta "machine" (VStr "") ;;
  if orb (eq_str machine machine_name) (str_contains machine_name f) then
    position <- dict_get_default meta "position" (VStr "0") ;;
    match position with
    | VStr pos =>
        let result := Dict.set ("extruder_" ++ pos) (VDict cfg) result in
        let containers := match Dict.get "containers" cfg with
                          | Some c => c
                          | None => VDict []
                          end in
        settings_name <- dict_get_default containers "6" (VStr "") ;;
        if truthy settings_name then
          match settings_name with
          | VStr s =>
              found <- find_definition_changes w s (glob_definition_changes w) ;;
              match found with
              | Some scfg =>
                  Ok (Dict.set ("extruder_" ++ pos ++ "_settings") (VDict scfg)
                               result)
              | None => Ok result
              end
          | _ => OutOfModel
          end
        else Ok result
    | _ => OutOfModel
    end
  else Ok result.

Definition _extract_extruders (machine_name : string) : exc (dict value) :=
  match glob_extruders st with
  | None => Ok []
  | Some listing => for_each (add_extruder machine_name) listing []
  end.

End Extruders.

(** ** Summary *)

(** [len(x)]. The length of a [str] counts code points, which the byte
    strings used here do not give. *)
Definition py_len (x : value) : exc Z :=
  match x with
  | VDict d => Ok (Z.of_nat (List.length d))
  | VList l => Ok (Z.of_nat (List.length l))
  | VStr _ => OutOfModel
  | _ => TypeError
  end.

(** [item["name"]] *)
Definition name_item (item : value) : exc value :=
  match item with
  | VDict d =>
      match Dict.get "name" d with
      | Some v => Ok v
      | None => KeyError
      end
  | _ => TypeError
  end.

(** An item handed to [str.join] must be a [str]. *)
Definition join_item (v : value) : exc string :=
  match v with
  | VStr s => Ok s
  | _ => TypeError
  end.

(** [map] with a step that may raise, from the left. *)
Fixpoint map_exc {A B} (f : A -> exc B) (xs : list A) : exc (list B) :=
  match xs with
  | [] => Ok []
  | x :: r => y <- f x ;; ys <- map_exc f r ;; Ok (y :: ys)
  end.

(** [sep.join(item["name"] for item in chain)]: [join] first runs the
    generator to its end, then wants every item to be a [str]. Iterating
    a dict gives its keys and iterating a [str] its characters, which
    cannot be subscripted with a name. *)
Definition join_names (sep : string) (chain : value) : exc string :=
  match chain with
  | VList items =>
      names <- map_exc name_item items ;;
      texts <- map_exc join_item names ;;
      Ok (join sep texts)
  | VDict [] => Ok EmptyString
  | VDict _ => TypeError
  | VStr s => if String.eqb s "" then Ok EmptyString else TypeError
  | _ => TypeError
  end.

(** [len(g) if isinstance(g, list) else g.count("\n") + 1] *)
Definition gcode_lines (g : value) : exc Z :=
  match g with
  | VList l => Ok (Z.of_nat (List.length l))
  | VStr s => Ok (Z.of_nat (count_char newline s) + 1)%Z
  | _ => AttributeError
  end.

(** [list(x.keys())] *)
Definition keys_list (x : value) : exc value :=
  match x with
  | VDict d => Ok (VList (map VStr (Dict.keys d)))
  | _ => AttributeError
  end.

(** A value inside an f-string. The text Python prints for numbers, lists
    and dicts is not described. *)
Definition format_value (v : value) : exc string :=
  match v with
  | VStr s => Ok s
  | VNone => Ok "None"
  | VBool true => Ok "True"
  | VBool false => Ok "False"
  | _ => OutOfModel
  end.

(** [f"{info.get('name', pid)} v{info.get('version', '?')}"] *)
Definition plugin_line (pid : string) (info : value) : exc value :=
  n <- dict_get_default info "name" (VStr pid) ;;
  n <- format_value n ;;
  v <- dict_get_default info "version" (VStr "?") ;;
  v <- format_value v ;;
  Ok (VStr (n ++ " v" ++ v)).

(** The list comprehension over [data["plugins"].items()]. *)
Fixpoint plugin_lines (plugins : dict value) : exc (list value) :=
  match plugins with
  | [] => Ok []
  | (pid, info) :: rest =>
      if String.prefix "_" pid then plugin_lines rest
      else line <- plugin_line pid info ;;
           lines <- plugin_lines rest ;;
           Ok (line :: lines)
  end.

Definition create_summary_section (data : dict value) : exc (dict value) :=
  let summary : dict value :=
    [("_note",
      VStr "This section provides a quick overview. Full details below.")] in
  summary <-
    match Dict.get "machine" data with
    | Some machine =>
        machine_name <-
          dict_get_default
            match Dict.get "metadata" data with
            | Some m => m
            | None => VDict []
            end "machine" (VStr "Unknown") ;;
        let summary := Dict.set "machine_name" machine_name summary in
        chain <- dict_get_default machine "inheritance_chain" (VList []) ;;
        inheritance <- join_names " → " chain ;;
        let summary := Dict.set "inheritance" (VStr inheritance) summary in
        effective <- dict_get_default machine "effective_settings" (VDict []) ;;
        total <- py_len effective ;;
        Ok (Dict.set "total_settings" (VInt total) summary)
    | None => Ok summary
    end ;;
  summary <-
    match Dict.get "gcode" data with
    | Some gcode =>
        gcode_source <- dict_get_default gcode "source" (VStr "Unknown") ;;
        let summary := Dict.set "gcode_source" gcode_source summary in
        start <- dict_get_default gcode "start_gcode" (VStr "") ;;
        end_ <- dict_get_default gcode "end_gcode" (VStr "") ;;
        start_lines <- gcode_lines start ;;
        let summary := Dict.set "start_gcode_lines" (VInt start_lines) summary in
        end_lines <- gcode_lines end_ ;;
        Ok (Dict.set "end_gcode_lines" (VInt end_lines) summary)
    | None => Ok summary
    end ;;
  summary <-
    match Dict.get "quality_builtin" data with
    | Some qualities =>
        names <- keys_list qualities ;;
        Ok (Dict.set "builtin_qualities" names summary)
    | None => Ok summary
    end ;;
  summary <-
    match Dict.get "quality_custom" data with
    | Some profiles =>
        names <- keys_list profiles ;;
        Ok (Dict.set "custom_profiles" names summary)
    | None => Ok summary
    end ;;
  match Dict.get "plugins" data with
  | Some plugins =>
      entries <- as_dict plugins ;;
      lines <- plugin_lines entries ;;
      Ok (Dict.set "plugins" (VList lines) summary)
  | None => Ok summary
  end.

(** ** The whole document *)

Definition version : string := "1.1.0".

(** A custom profile as the dict the code builds. *)
Definition profile_value (p : profile) : value :=
  VDict ([("files", VList (map VStr (files p))); ("settings", VDict (settings p))]
         ++ match metadata p with
            | Some m => [("metadata", m)]
            | None => []
            end).

Definition profiles_value (result : dict profile) : value :=
  VDict (map (fun kv => (fst kv, profile_value (snd kv))) result).

Section Document.
Variable st : Site.
Let w := site_world st.

Definition _extract_preferences : exc (dict value) :=
  parse_cfg_file w (preferences_path st).

(** [options.get(key, True)] *)
Definition enabled (options : dict value) (key : string) : bool :=
  truthy match Dict.get key options with
         | Some v => v
         | None => VBool true
         end.

(** One of the [if options.get(...): output[key] = ...] steps. *)
Definition add_section (options : dict value) (option key : string)
    (extract : exc value) (output : dict value) : exc (dict value) :=
  if enabled options option
  then section <- extract ;; Ok (Dict.set key section output)
  else Ok output.

(** The sections after the machine. *)
Definition later_sections (machine_name : string) (options : dict value)
    (output : dict value) : exc (dict value) :=
  output <- add_section options "gcode" "gcode"
              (g <- _extract_gcode st machine_name ;; Ok (VDict (gcode_dict g)))
              output ;;
  output <- add_section options "machine_settings" "extruders"
              (e <- _extract_extruders st machine_name ;; Ok (VDict e))
              output ;;
  output <- add_section options "quality_builtin" "quality_builtin"
              (q <- _extract_builtin_qualities st ;; Ok (VDict q))
              output ;;
  output <- add_section options "quality_custom" "quality_custom"
              (q <- _extract_custom_qualities w ;; Ok (profiles_value q))
              output ;;
  add_section options "plugins" "plugins"
    (p <- _extract_plugins st ;; Ok (VDict p))
    output.

(** The summary, the quick reference, and the reordering. *)
Definition finish (output : dict value) : exc (dict value) :=
  summary <- create_summary_section output ;;
  key_settings <- extract_key_settings output ;;
  Ok (Dict.update [("_summary", VDict summary);
                   ("_key_settings", VDict key_settings)]
                  output).

(** [extract_all]. [cura_version] is the attribute [discover] may have
    set, [extracted_at] what [datetime.now().isoformat()] gives; the log
    lines are not part of the result. [None] is a chain loop still running
    when [fuel] is used up. *)
Definition extract_all (fuel : nat) (cura_version extracted_at : string)
    (machine_name : string) (options : dict value)
    : option (exc (dict value)) :=
  let output : dict value :=
    [("metadata",
      VDict [("cura_version", VStr cura_version);
             ("extracted_at", VStr extracted_at);
             ("machine", VStr machine_name);
             ("extractor_version", VStr version)])] in
  match add_section options "preferences" "preferences"
          (p <- _extract_preferences ;; Ok (VDict p)) output with
  | Ok output =>
      if enabled options "machine_settings" then
        match _extract_machine w fuel machine_name with
        | None => None
        | Some machine =>
            Some (machine <- machine ;;
                  output <-
                    later_sections machine_name options
                      (Dict.set "machine" (VDict machine) output) ;;
                  finish output)
        end
      else Some (output <- later_sections machine_name options output ;;
                 finish output)
  | Raise cls msg => Some (Raise cls msg)
  | OutOfModel => Some OutOfModel
  end.

End Document.

(** ** Discovery *)

Section Discovery.
Variable st : Site.
Let w := site_world st.






End Discovery.

(** ** Post-processing for reading *)

Definition SEMICOLON_LIST_KEYS : list string :=
  ["visible_settings"; "categories_expanded"; "custom_visible_settings";
   "recent_files"; "expanded_brands"].

Definition GCODE_KEYS : list string :=
  ["machine_start_gcode"; "machine_end_gcode"; "start_gcode"; "end_gcode"].

(** [key in KEYS] *)
Definition key_in (key : string) (keys : list string) : bool :=
  existsb (String.eqb key) keys.

(** [sorted(items)] on strings: ascending by code point, which for UTF-8
    text is ascending by byte. *)
Fixpoint insert_sorted (x : string) (l : list string) : list string :=
  match l with
  | [] => [x]
  | y :: r => if String.leb x y then x :: l else y :: insert_sorted x r
  end.

Definition sorted (items : list string) : list string :=
  fold_right insert_sorted [] items.

Definition tab : ascii := "009"%char.

Section Humanize.
(** [str.strip], and [ast.literal_eval]: what it returns, that it raises,
    or that it returns a literal that is no JSON value (a tuple, a set,
    bytes). *)
Variable strip : string -> string.
Variable literal_eval : string -> exc value.

(** [[item.strip() for item in value.split(";") if item.strip()]] *)
Definition semicolon_items (s : string) : list string :=
  map strip
      (filter (fun item => negb (String.eqb (strip item) ""))
              (split_on ";"%char s)).

(** [value.replace("\\n", "\n").replace("\\t", "\t")] *)
Definition unescaped (s : string) : string :=
  str_replace "\t" (String tab EmptyString)
    (str_replace "\n" (String newline EmptyString) s).

Definition process_value (key : string) (v : value) : exc value :=
  match v with
  | VStr s =>
      if key_in key SEMICOLON_LIST_KEYS then
        let items := semicolon_items s in
        Ok (VList (map VStr (if Nat.ltb 10 (List.length items)
                             then sorted items else items)))
      else if key_in key GCODE_KEYS then
        let lines := split_on newline (unescaped s) in
        Ok (if Nat.ltb 1 (List.length lines) then VList (map VStr lines) else v)
      else if String.eqb key "machine_head_with_fans_polygon" then
        match literal_eval s with
        | Ok parsed => Ok parsed
        | Raise _ _ => Ok v
        | OutOfModel => OutOfModel
        end
      else Ok v
  | _ => Ok v
  end.

(** [process_dict(node)] for a dict [node]; the function is only called
    on dicts. The loop over the items writes into [result]; an item of a
    list is processed when it is a dict and kept as it is otherwise. *)
Fixpoint process_node (node : value) {struct node} : exc (dict value) :=
  match node with
  | VDict d =>
      (fix items (d : list (string * value)) (result : dict value)
         : exc (dict value) :=
         match d with
         | [] => Ok result
         | (key, v) :: rest =>
             v' <-
               match v with
               | VDict _ => r <- process_node v ;; Ok (VDict r)
               | VList l =>
                   l' <-
                     (fix each (l : list value) : exc (list value) :=
                        match l with
                        | [] => Ok []
                        | item :: r =>
                            item' <-
                              match item with
                              | VDict _ => p <- process_node item ;; Ok (VDict p)
                              | _ => Ok item
                              end ;;
                            r' <- each r ;;
                            Ok (item' :: r')
                        end) l ;;
                   Ok (VList l')
               | _ => process_value key v
               end ;;
             items rest (Dict.set key v' result)
         end) d []
  | _ => Ok []
  end.

Definition process_dict (d : dict value) : exc (dict value) :=
  process_node (VDict d).

Definition humanize_output (data : dict value) : exc (dict value) :=
  process_dict data.

End Humanize.

(** ** A fuller installation

    The worked installation with G-code in its definitions, a second
    machine whose settings file customizes the start G-code, extruder and
    quality files, preferences and a plugin manifest. *)

Module Bench.

(** [str.lower] and [str.strip] on ASCII text. *)
Definition lower_char (c : ascii) : ascii :=
  let n := nat_of_ascii c in
  if andb (Nat.leb 65 n) (Nat.leb n 90) then ascii_of_nat (n + 32) else c.

Fixpoint lower (s : string) : string :=
  match s with
  | EmptyString => EmptyString
  | String c r => String (lower_char c) (lower r)
  end.

Definition is_space (c : ascii) : bool :=
  let n := nat_of_ascii c in
  orb (Nat.eqb n 32) (andb (Nat.leb 9 n) (Nat.leb n 13)).

Fixpoint lstrip (s : string) : string :=
  match s with
  | EmptyString => EmptyString
  | String c r => if is_space c then lstrip r else s
  end.

Fixpoint rstrip (s : string) : string :=
  match s with
  | EmptyString => EmptyString
  | String c r =>
      match rstrip r with
      | EmptyString => if is_space c then EmptyString else String c EmptyString
      | r' => String c r'
      end
  end.

Definition strip (s : string) : string := rstrip (lstrip s).

Definition creality_ender3pro : dict value :=
  [("name", VStr "Creality Ender-3 Pro");
   ("inherits", VStr "creality_base");
   ("overrides",
    VDict [("machine_name", VDict [("default_value", VStr "Creality Ender-3 Pro")]);
           ("layer_height", VDict [("default_value", Ender3.f0_16)]);
           ("machine_start_gcode", VDict [("default_value", VStr "G28 ; home")]);
           ("machine_end_gcode", VDict [("default_value", VStr "M104 S0")])])].

(** A definition outside the three the G-code fallback looks at. *)
Definition voron : dict value :=
  [("name", VStr "Voron 2");
   ("inherits", VStr "fdmprinter");
   ("overrides",
    VDict [("machine_start_gcode", VDict [("default_value", VStr "PRINT_START")])])].

Definition definitions (p : string) : file (dict value) :=
  if String.eqb p "definitions/creality_ender3pro.def.json"
  then Parsed creality_ender3pro
  else Ender3.definitions p.

Definition definitions_with_voron (p : string) : file (dict value) :=
  if String.eqb p "definitions/voron2.def.json" then Parsed voron
  else definitions p.

Definition preferences : ini :=
  [("general",
    [("version", "7");
     ("visible_settings", "layer_height; infill_sparse_density;;wall_thickness")])].

Definition ender_settings : ini :=
  [("general", [("version", "4"); ("name", "Ender3Pro_settings")]);
   ("values", [("layer_height", "0.12"); ("machine_end_gcode", "M84 ; motors off")])].

Definition lab_settings : ini :=
  [("general", [("version", "4"); ("name", "Lab Printer_settings")]);
   ("values", [("machine_start_gcode", "G28\nG1 Z5"); ("machine_end_gcode", "M84")])].

Definition left_extruder : ini :=
  [("general", [("version", "4"); ("name", "Left")]);
   ("metadata", [("machine", "Ender3Pro"); ("position", "0")]);
   ("containers", [("6", "Ender3Pro_settings")])].

Definition spare_extruder : ini :=
  [("general", [("version", "4"); ("name", "Spare")]);
   ("metadata", [("position", "1")])].

Definition foreign_extruder : ini :=
  [("general", [("version", "4"); ("name", "Foreign")]);
   ("metadata", [("machine", "Lab Printer"); ("position", "0")])].

Definition standard_quality : ini :=
  [("general", [("version", "4"); ("name", "Standard Quality")]);
   ("metadata", [("quality_type", "standard")]);
   ("values", [("layer_height", "0.2")])].

Definition dynamic_quality : ini :=
  [("general", [("version", "4"); ("name", "Dynamic Quality")]);
   ("metadata", [("quality_type", "standard")]);
   ("values", [("layer_height", "0.16")])].

Definition untyped_quality : ini :=
  [("values", [("layer_height", "0.28")])].

Definition configs (p : string) : file ini :=
  if String.eqb p "cura.cfg" then Parsed preferences
  else if String.eqb p "machine_instances/Ender3Pro.global.cfg"
       then Parsed Ender3.machine_instance
  else if String.eqb p "definition_changes/Ender3Pro_settings.inst.cfg"
       then Parsed ender_settings
  else if String.eqb p "definition_changes/Lab+Printer_settings.inst.cfg"
       then Parsed lab_settings
  else if String.eqb p "extruders/left.extruder.cfg" then Parsed left_extruder
  else if String.eqb p "extruders/Ender3Pro_spare.extruder.cfg"
       then Parsed spare_extruder
  else if String.eqb p "extruders/foreign.extruder.cfg" then Parsed foreign_extruder
  else if String.eqb p "quality/base_global_standard.inst.cfg"
       then Parsed standard_quality
  else if String.eqb p "quality/base_global_dynamic.inst.cfg"
       then Parsed dynamic_quality
  else if String.eqb p "quality/base_global_draft.inst.cfg"
       then Parsed untyped_quality
  else Pair.configs p.

Definition world_with (definitions : string -> file (dict value)) : World :=
  {| json_fs := definitions;
     cfg_fs := configs;
     path_name := Ender3.basename;
     path_stem := Ender3.stem;
     def_path := def_path Ender3.world;
     machine_of := machine_of Ender3.world;
     glob_machine_instances := ["machine_instances/Ender3Pro.global.cfg"];
     glob_definition_changes :=
       ["definition_changes/Ender3Pro_settings.inst.cfg";
        "definition_changes/Lab+Printer_settings.inst.cfg"];
     glob_quality_changes :=
       Some ["quality_changes/fine.inst.cfg";
             "quality_changes/fine_extruder.inst.cfg"] |}.

Definition world : World := world_with definitions.

Definition packages : value :=
  VDict
    [("installed",
      VDict
        [("OctoPrintPlugin",
          VDict [("package_info",
                  VDict [("display_name", VStr "OctoPrint Connection");
                         ("package_version", VStr "3.7.3");
                         ("author", VDict [("display_name", VStr "fieldOfView")])])]);
         ("Bare", VDict [])])].

(** The same manifest with a package whose [package_info] is [null]
    between the two. *)
Definition broken_packages : value :=
  VDict
    [("installed",
      VDict
        [("OctoPrintPlugin",
          VDict [("package_info",
                  VDict [("display_name", VStr "OctoPrint Connection");
                         ("package_version", VStr "3.7.3");
                         ("author", VDict [("display_name", VStr "fieldOfView")])])]);
         ("Broken", VDict [("package_info", VNone)]);
         ("Bare", VDict [])])].

Definition site_with (w : World) (manifest : file value) : Site :=
  {| site_world := w;
     text_lower := lower;
     packages_json := manifest;
     preferences_path := "cura.cfg";
     glob_settings_files :=
       ["definition_changes/Ender3Pro_settings.inst.cfg";
        "definition_changes/Lab+Printer_settings.inst.cfg"];
     glob_extruders :=
       Some ["extruders/left.extruder.cfg";
             "extruders/Ender3Pro_spare.extruder.cfg";
             "extruders/foreign.extruder.cfg"];
     glob_builtin_qualities :=
       Some ["quality/base_global_standard.inst.cfg";
             "quality/base_global_dynamic.inst.cfg";
             "quality/base_global_draft.inst.cfg"];
     glob_materials :=
       Some ["materials/generic_pla.xml.fdm_material";
             "materials/generic_petg.xml.fdm_material"] |}.

Definition site : Site := site_with world (Parsed packages).

Definition broken : Site := site_with world (Parsed broken_packages).

Definition with_voron : Site :=
  site_with (world_with definitions_with_voron) (Parsed packages).

(** [ast.literal_eval] as far as this installation needs it: the one
    polygon text it holds; any other text is taken as malformed. *)
Definition literal_eval (s : string) : exc value :=
  if String.eqb s "[[-26, 34], [32, 34]]"
  then Ok (VList [VList [VInt (-26); VInt 34]; VList [VInt 32; VInt 34]])
  else Raise "ValueError" "malformed node or string".

(** The G-code section of the second machine, the [general] section of
    the preferences, and a small document around them. *)
Definition lab_gcode : dict value :=
  [("start_gcode", VStr "G28\nG1 Z5"); ("end_gcode", VStr "M84\tS0");
   ("source", VStr "definition_changes/Lab+Printer_settings.inst.cfg")].

Definition general : dict value :=
  [("version", VStr "7");
   ("visible_settings", VStr "layer_height; infill_sparse_density;;wall_thickness")].

Definition report : dict value :=
  [("total", VInt 4);
   ("gcode", VDict lab_gcode);
   ("machine_head_with_fans_polygon", VStr "[[-26, 34], [32, 34]]");
   ("notes", VList [VStr "G28\nG1 Z5"; VDict general])].

End Bench.

(** * Specification vocabulary

    The predicates and functions the properties below are stated with. *)

(** ** Loops that rewrite one entry per item

    The loops over [settings.items()], [overrides.items()] and
    [values.items()] have one shape: the entry of the item's key is
    replaced by a function of the item and of the entry found there. *)

Definition keyed_step (V : Type)
    (f : string -> V -> option (dict value) -> exc (dict value))
    (acc : settings_map) (kv : string * V) : exc settings_map :=
  e' <- f (fst kv) (snd kv) (Dict.get (fst kv) acc) ;;
  Ok (Dict.set (fst kv) e' acc).

(** The entry the overrides loop writes for a key, from the entry found. *)
Definition override_entry (filename : value) (key : string) (override : value)
    (found : option (dict value)) : exc (dict value) :=
  entry' <- update_from (match found with Some e => e | None => [] end) override ;;
  Ok (Dict.set "_source" filename entry').

(** The entry a chain layer writes for a key, from the entry found. *)
Definition merge_entry (layer : value) (key : string) (info : dict value)
    (found : option (dict value)) : exc (dict value) :=
  append_source
    (Dict.update (match found with
                  | Some e => e
                  | None => [("_sources", VList [])]
                  end) info)
    layer.

(** The entry the definition-changes overlay writes for a key. *)
Definition override_entry_of (key : string) (v : value)
    (found : option (dict value)) : exc (dict value) :=
  append_source
    (Dict.set "effective_value" v
       (match found with
        | Some e => e
        | None => [("_sources", VList [])]
        end))
    (VStr "definition_changes").

(** ** Entries and provenance *)

(** Every entry of the walker's result has distinct field names. *)
Definition fields_distinct (s : settings_map) : Prop :=
  forall K e, Dict.get K s = Some e -> NoDup (Dict.keys e).

(** The provenance list of an entry. *)
Definition sources_of (e : dict value) : option (list value) :=
  match Dict.get "_sources" e with
  | Some (VList l) => Some l
  | _ => None
  end.

(** Every entry of an effective map has a provenance list that is not
    empty. *)
Definition sourced (eff : settings_map) : Prop :=
  forall K e, Dict.get K eff = Some e ->
  exists l, sources_of e = Some l /\ l <> [].

(** A link's document defines a key when the walker's result for it has
    the key. *)
Definition defines (w : World) (K : string) (l : link) : bool :=
  match layer_settings w l with
  | Ok s => Dict.has K s
  | _ => false
  end.

(** The definition-changes layer has a value for the key. *)
Definition overridden (definition_changes : dict value) (K : string) : bool :=
  match Dict.get "values" definition_changes with
  | Some (VDict vs) => Dict.has K vs
  | _ => false
  end.

(** No entry of the link's settings has a field named [_sources]. *)
Definition plain_layer (w : World) (l : link) : Prop :=
  exists s, layer_settings w l = Ok s /\
            forall K v, In (K, v) s -> Dict.get "_sources" v = None.

(** The [values] of a definition-changes dict are a dict with distinct
    keys (what [parse_cfg_file] builds). *)
Definition values_wf (definition_changes : dict value) : Prop :=
  forall v, Dict.get "values" definition_changes = Some v ->
  exists vs, v = VDict vs /\ NoDup (Dict.keys vs).

(** The provenance the merge gives a key: the layers that define it, most
    general first, then the overlay's marker. *)
Definition provenance (w : World) (chain : list link) (definition_changes : dict value)
    (K : string) : list value :=
  map name (filter (defines w K) (rev chain)) ++
  (if overridden definition_changes K then [VStr "definition_changes"] else []).

(** C1 as the specification words it: each provenance list is as long as
    the number of links that define the key, plus one for the overlay. *)
Definition provenance_counts_layers (w : World) (chain : list link)
    (definition_changes : dict value) : Prop :=
  forall eff, effective_settings w chain definition_changes = Ok eff ->
  forall K e, Dict.get K eff = Some e ->
  exists srcs,
    sources_of e = Some srcs /\
    List.length srcs =
    List.length (filter (defines w K) chain) +
    (if overridden definition_changes K then 1 else 0).

(** C2 as stated: whichever chain layer defines K with a default D, the
    merged entry of an overridden K has that D as its [default_value]. *)
Definition default_of_any_layer_kept (w : World) (chain : list link)
    (definition_changes : dict value) : Prop :=
  forall l s K info D vs V,
    In l chain ->
    layer_settings w l = Ok s ->
    Dict.get K s = Some info ->
    Dict.get "default_value" info = Some D ->
    Dict.get "values" definition_changes = Some (VDict vs) ->
    Dict.get K vs = Some V ->
    exists eff e,
      effective_settings w chain definition_changes = Ok eff /\
      Dict.get K eff = Some e /\
      Dict.get "default_value" e = Some D /\
      Dict.get "effective_value" e = Some V /\
      exists front, sources_of e = Some (front ++ [VStr "definition_changes"]).

(** The entry [_extract_machine] computes for [layer_height]. *)
Definition layer_height_entry : dict value :=
  [("_sources",
    VList [VStr "fdmprinter"; VStr "creality_ender3pro"; VStr "definition_changes"]);
   ("default_value", Ender3.f0_16);
   ("type", VStr "float");
   ("description", VStr "The height of each layer in mm.");
   ("unit", VStr "mm");
   ("_source", VStr "creality_ender3pro.def.json");
   ("effective_value", VStr "0.12")].

(** C3 as stated: the entry of [layer_height] has default 0.16, effective
    value 0.12 and the four-entry provenance that lists [creality_base]. *)
Definition example_as_stated : Prop :=
  exists eff e,
    effective_settings Ender3.world Ender3.chain Ender3.definition_changes = Ok eff /\
    Dict.get "layer_height" eff = Some e /\
    Dict.get "default_value" e = Some Ender3.f0_16 /\
    Dict.get "effective_value" e = Some (VStr "0.12") /\
    sources_of e =
    Some [VStr "fdmprinter"; VStr "creality_base"; VStr "creality_ender3pro";
          VStr "definition_changes"].

(** ** The chain walk *)

(** The link the loop appends for an identifier. *)
Definition link_of (w : World) (id : value) (def_data : dict value) : link :=
  {| name := id; file_of := def_path w id;
     inherits := get_or_none "inherits" def_data |}.

(** [resolves id links stop]: starting at [id], each identifier has a
    backing document, [links] are the links appended and [stop] is the
    identifier the loop then looks at. *)
Inductive resolves (w : World) : value -> list link -> value -> Prop :=
| resolves_here id : resolves w id [] id
| resolves_next id def_data links stop :
    truthy id = true ->
    file_exists (json_fs w (def_path w id)) = true ->
    parse_def_json w (def_path w id) = Ok def_data ->
    resolves w (get_or_none "inherits" def_data) links stop ->
    resolves w id (link_of w id def_data :: links) stop.

(** The chain loop comes to an end from [start]. *)
Definition loop_ends (w : World) (start : value) : Prop :=
  exists fuel r, chain_loop w fuel start [] = Some r.

(** ** The quick reference *)

(** What one round of the loop reports for a setting, if anything. *)
Definition report_of (def_changes effective : value) (setting : string)
    : exc (option value) :=
  customized <- item_if_in setting def_changes ;;
  match customized with
  | Some v =>
      Ok (Some (VDict [("value", v); ("source", VStr "your_customizations")]))
  | None =>
      merged <- item_if_in setting effective ;;
      match merged with
      | Some info =>
          info <- as_dict info ;;
          source <- reported_source info ;;
          Ok (Some (VDict [("value", reported_value info); ("source", source)]))
      | None => Ok None
      end
  end.

(** The value the quick reference shows for a setting. *)
Definition reported (data : dict value) (setting : string) : option value :=
  match extract_key_settings data with
  | Ok key_settings =>
      match Dict.get setting key_settings with
      | Some (VDict r) => Dict.get "value" r
      | _ => None
      end
  | _ => None
  end.

(** The merged entry of a setting in the output document. *)
Definition merged_info (data : dict value) (setting : string)
    : option (dict value) :=
  match Dict.get "machine" data with
  | Some (VDict machine) =>
      match Dict.get "effective_settings" machine with
      | Some (VDict effective) =>
          match Dict.get setting effective with
          | Some (VDict info) => Some info
          | _ => None
          end
      | _ => None
      end
  | _ => None
  end.

(** C10 as stated: a falsy [effective_value] is always passed over for
    the inherited [value] or [default_value]. *)
Definition falsy_effective_value_skipped (data : dict value) : Prop :=
  forall setting info v,
    In setting IMPORTANT_SETTINGS ->
    merged_info data setting = Some info ->
    Dict.get "effective_value" info = Some v ->
    truthy v = false ->
    reported data setting =
    Some (py_or (get_or_none "value" info) (get_or_none "default_value" info)).

(** The [values] of the definition-changes block of a machine: [{}] when
    the block has none. *)
Definition values_of (definition_changes : dict value) : value :=
  match Dict.get "values" definition_changes with
  | Some v => v
  | None => VDict []
  end.

(** ** Custom quality files *)

(** What [parse_cfg_file] returns holds text under the three annotation
    keys and a section dict under every other key. *)
Definition cfg_shaped (cfg : dict value) : Prop :=
  forall k v, Dict.get k cfg = Some v ->
    (exists options, v = section_dict options) \/
    ((k = "_filepath" \/ k = "_filename" \/ k = "_error") /\ exists t, v = VStr t).

(** The parsed file, its profile name and its [values]. *)
Definition cfg_of (w : World) (f : string) : dict value :=
  match parse_cfg_file w f with Ok cfg => cfg | _ => [] end.

Definition profile_name (w : World) (f : string) : string :=
  match Dict.get "general" (cfg_of w f) with
  | Some (VDict general) =>
      match Dict.get "name" general with
      | Some (VStr n) => n
      | _ => path_stem w f
      end
  | _ => path_stem w f
  end.

Definition file_values (w : World) (f : string) : dict value :=
  match Dict.get "values" (cfg_of w f) with
  | Some (VDict values) => values
  | _ => []
  end.

Definition new_profile : profile :=
  {| files := []; settings := []; metadata := None |}.

Definition profile_or_new (n : string) (result : dict profile) : profile :=
  match Dict.get n result with Some p => p | None => new_profile end.

(** A profile after one more of its files. *)
Definition absorb (w : World) (p : profile) (f : string) : profile :=
  {| files := files p ++ [f];
     settings := Dict.update (settings p) (file_values w f);
     metadata := match Dict.get "metadata" (cfg_of w f) with
                 | Some m => Some m
                 | None => metadata p
                 end |}.

(** The files of a listing that declare profile [n]. *)
Definition declaring (w : World) (n : string) (listing : list string) : list string :=
  filter (fun f => String.eqb (profile_name w f) n) listing.

(** C9 as stated, for two scans of one directory: the settings of a
    profile do not depend on the order the scan yields its files in. *)
Definition same_profile_settings (w1 w2 : World) : Prop :=
  forall r1 r2 n p1 p2,
    _extract_custom_qualities w1 = Ok r1 ->
    _extract_custom_qualities w2 = Ok r2 ->
    Dict.get n r1 = Some p1 ->
    Dict.get n r2 = Some p2 ->
    forall k, Dict.get k (settings p1) = Dict.get k (settings p2).

(** ** The settings tree *)

(** [in_tree items k node]: the dict [node] sits under key [k] among
    [items] or, through [children], at any depth below one of them. *)
Inductive in_tree : dict value -> string -> dict value -> Prop :=
| in_tree_here items k node :
    In (k, VDict node) items -> in_tree items k node
| in_tree_below items k0 node0 cs k node :
    In (k0, VDict node0) items ->
    Dict.get "children" node0 = Some (VDict cs) ->
    in_tree cs k node ->
    in_tree items k node.

(** The [overrides] of a document: [{}] when it has none. *)
Definition overrides_of (def_data : dict value) : dict value :=
  match Dict.get "overrides" def_data with
  | Some (VDict ovs) => ovs
  | _ => []
  end.

(** Where the chain loop stops: an identifier that is falsy or has no
    backing document. *)
Definition chain_end (w : World) (id : value) : Prop :=
  truthy id = false \/ file_exists (json_fs w (def_path w id)) = false.

(** The last file of a list that has a [metadata] section. *)
Definition last_with_metadata (w : World) (fs : list string) : option string :=
  find (fun f => Dict.has "metadata" (cfg_of w f)) (rev fs).

(** ** The other sections *)




(** [d.get(key, default)] of a dict *)
Definition field_or (d : dict value) (key : string) (default : value) : value :=
  match Dict.get key d with
  | Some v => v
  | None => default
  end.

(** A package of the manifest is described when it is a dict whose
    [package_info], when it has one, is a dict whose [author], when it has
    one, is a dict. *)
Definition described (pkg_info : value) : bool :=
  match pkg_info with
  | VDict d =>
      match Dict.get "package_info" d with
      | None => true
      | Some (VDict info) =>
          match Dict.get "author" info with
          | None => true
          | Some (VDict _) => true
          | Some _ => false
          end
      | Some _ => false
      end
  | _ => false
  end.

(** The five fields reported for a described package. *)
Definition plugin_summary (pkg_id : string) (pkg_info : value) : value :=
  let info := match pkg_info with
              | VDict d =>
                  match Dict.get "package_info" d with
                  | Some (VDict info) => info
                  | _ => []
                  end
              | _ => []
              end in
  let author := match Dict.get "author" info with
                | Some (VDict a) => a
                | _ => []
                end in
  VDict [("name", field_or info "display_name" (VStr pkg_id));
         ("version", field_or info "package_version" (VStr "unknown"));
         ("description", field_or info "description" (VStr ""));
         ("author", field_or author "display_name" (VStr "unknown"));
         ("website", field_or info "website" (VStr ""))].

Definition plugin_entries (installed : dict value) : dict value :=
  Dict.of_items
    (map (fun kv => (fst kv, plugin_summary (fst kv) (snd kv))) installed).

(** The probe of the settings tree the G-code fallback makes before it
    looks at the overrides goes through: [settings], when present, is a
    dict whose [machine_settings], when present, is a dict. *)
Definition settings_readable (def_data : dict value) : Prop :=
  match Dict.get "settings" def_data with
  | None => True
  | Some (VDict tree) =>
      match Dict.get "machine_settings" tree with
      | None => True
      | Some (VDict _) => True
      | Some _ => False
      end
  | Some _ => False
  end.

(** Two sites that differ at most in what the G-code extraction has no
    reason to read: they agree on the text and path operations, on the
    scan of the settings files and on what these files hold, and on the
    three definitions of [GCODE_DEFINITIONS]. *)
Definition same_gcode_inputs (st st' : Site) : Prop :=
  text_lower st = text_lower st' /\
  glob_settings_files st = glob_settings_files st' /\
  (forall f, In f (glob_settings_files st) ->
     cfg_fs (site_world st) f = cfg_fs (site_world st') f) /\
  path_name (site_world st) = path_name (site_world st') /\
  def_path (site_world st) = def_path (site_world st') /\
  forall n, In n GCODE_DEFINITIONS ->
    json_fs (site_world st) (def_path (site_world st) (VStr n)) =
    json_fs (site_world st') (def_path (site_world st) (VStr n)).



(** The sections of the document in the order [extract_all] writes them,
    each with the option that turns it on. *)
Definition SECTIONS : list (string * string) :=
  [("preferences", "preferences"); ("machine_settings", "machine");
   ("gcode", "gcode"); ("machine_settings", "extruders");
   ("quality_builtin", "quality_builtin"); ("quality_custom", "quality_custom");
   ("plugins", "plugins")].

Definition sections_of (options : dict value) : list string :=
  map snd (filter (fun s => enabled options (fst s)) SECTIONS).

(** ** Post-processing *)

(** The parts of [process_dict]: what becomes of an item of a list, of
    the value under a key, and one round of the loop over the items. *)
Definition process_item (strip : string -> string)
    (literal_eval : string -> exc value) (item : value) : exc value :=
  match item with
  | VDict c => p <- process_dict strip literal_eval c ;; Ok (VDict p)
  | _ => Ok item
  end.

Definition process_entry (strip : string -> string)
    (literal_eval : string -> exc value) (key : string) (v : value) : exc value :=
  match v with
  | VDict c => r <- process_dict strip literal_eval c ;; Ok (VDict r)
  | VList l => l' <- map_exc (process_item strip literal_eval) l ;; Ok (VList l')
  | _ => process_value strip literal_eval key v
  end.

Definition process_step (strip : string -> string)
    (literal_eval : string -> exc value) (result : dict value)
    (kv : string * value) : exc (dict value) :=
  v' <- process_entry strip literal_eval (fst kv) (snd kv) ;;
  Ok (Dict.set (fst kv) v' result).

(** Each string is at most the next. *)
Fixpoint ascending (l : list string) : Prop :=
  match l with
  | x :: (y :: _) as r => String.leb x y = true /\ ascending r
  | _ => True
  end.

(** * Properties *)

(** ** Dicts *)

Module DictFacts.
Section Facts.
Variable A : Type.
Implicit Types (d o : dict A) (k : string) (v : A).

Lemma get_set_same d k v : Dict.get k (Dict.set k v d) = Some v.
  Proof.
    induction d as [|[k' v'] r IH]; simpl.
    - now rewrite String.eqb_refl.
    - destruct (String.eqb k' k) eqn:E; simpl.
      + now rewrite String.eqb_refl.
      + now rewrite E.
  Qed.

Lemma get_set_other d k k' v :
    k <> k' -> Dict.get k' (Dict.set k v d) = Dict.get k' d.
  Proof.
    intros Hne. induction d as [|[k0 v0] r IH]; simpl.
    - destruct (String.eqb k k') eqn:E; [|reflexivity].
      apply String.eqb_eq in E. contradiction.
    - destruct (String.eqb k0 k) eqn:E; simpl.
      + apply String.eqb_eq in E. subst k0.
        destruct (String.eqb k k') eqn:E'; [|reflexivity].
        apply String.eqb_eq in E'. contradiction.
      + now rewrite IH.
  Qed.

Lemma get_set d k k' v :
    Dict.get k' (Dict.set k v d) =
    if String.eqb k k' then Some v else Dict.get k' d.
  Proof.
    destruct (String.eqb k k') eqn:E.
    - apply String.eqb_eq in E. subst. apply get_set_same.
    - apply String.eqb_neq in E. now apply get_set_other.
  Qed.

Lemma in_keys_set d k k' v :
    In k' (Dict.keys (Dict.set k v d)) <-> k' = k \/ In k' (Dict.keys d).
  Proof.
    induction d as [|[k0 v0] r IH]; simpl.
    - intuition.
    - destruct (String.eqb k0 k) eqn:E; simpl.
      + apply String.eqb_eq in E. subst. intuition.
      + rewrite IH. intuition.
  Qed.

Lemma get_some_in_keys d k v : Dict.get k d = Some v -> In k (Dict.keys d).
  Proof.
    induction d as [|[k0 v0] r IH]; simpl; [discriminate|].
    destruct (String.eqb k0 k) eqn:E.
    - apply String.eqb_eq in E. auto.
    - auto.
  Qed.

Lemma get_none_not_in d k : Dict.get k d = None <-> ~ In k (Dict.keys d).
  Proof.
    induction d as [|[k0 v0] r IH]; simpl.
    - intuition.
    - destruct (String.eqb k0 k) eqn:E.
      + apply String.eqb_eq in E. subst. split; [discriminate|intuition].
      + apply String.eqb_neq in E. rewrite IH. intuition.
  Qed.

Lemma in_keys_get d k : In k (Dict.keys d) -> exists v, Dict.get k d = Some v.
  Proof.
    intros Hin. destruct (Dict.get k d) eqn:E; [eauto|].
    apply get_none_not_in in E. contradiction.
  Qed.

Lemma has_true d k : Dict.has k d = true <-> In k (Dict.keys d).
  Proof.
    unfold Dict.has. split.
    - destruct (Dict.get k d) eqn:E; [|discriminate].
      intros _. eapply get_some_in_keys; eauto.
    - intros Hin. destruct (in_keys_get _ _ Hin) as [v ->]. reflexivity.
  Qed.

Lemma nodup_set d k v : NoDup (Dict.keys d) -> NoDup (Dict.keys (Dict.set k v d)).
  Proof.
    induction d as [|[k0 v0] r IH]; simpl; intros Hnd.
    - constructor; [intros []|constructor].
    - inversion Hnd as [|? ? Hnotin Hnd']; subst.
      destruct (String.eqb k0 k) eqn:E; simpl.
      + apply String.eqb_eq in E. subst. now constructor.
      + constructor; [|auto].
        fold (Dict.keys (Dict.set k v r)). rewrite in_keys_set.
        apply String.eqb_neq in E. intros [->|Hin]; congruence.
  Qed.

Lemma in_get_nodup d k v :
    NoDup (Dict.keys d) -> In (k, v) d -> Dict.get k d = Some v.
  Proof.
    induction d as [|[k0 v0] r IH]; simpl; intros Hnd Hin; [contradiction|].
    inversion Hnd as [|? ? Hnotin Hnd']; subst.
    destruct Hin as [Heq|Hin].
    - inversion Heq; subst. now rewrite String.eqb_refl.
    - destruct (String.eqb k0 k) eqn:E.
      + apply String.eqb_eq in E. subst. exfalso. apply Hnotin.
        change (In (fst (k, v)) (map fst r)). now apply in_map.
      + auto.
  Qed.

Lemma get_in d k v : Dict.get k d = Some v -> In (k, v) d.
  Proof.
    induction d as [|[k0 v0] r IH]; simpl; [discriminate|].
    destruct (String.eqb k0 k) eqn:E.
    - apply String.eqb_eq in E. intros [= ->]. subst. auto.
    - auto.
  Qed.

  (** [update] leaves alone the keys its argument does not have. *)
Lemma get_update_absent o d k :
    ~ In k (Dict.keys o) -> Dict.get k (Dict.update d o) = Dict.get k d.
  Proof.
    unfold Dict.update. revert d.
    induction o as [|[k0 v0] r IH]; simpl; intros d Hnotin; [reflexivity|].
    rewrite IH by tauto. apply get_set_other. tauto.
  Qed.

  (** With distinct keys in its argument, [update] takes each of them. *)
Lemma get_update_present o d k v :
    NoDup (Dict.keys o) -> Dict.get k o = Some v ->
    Dict.get k (Dict.update d o) = Some v.
  Proof.
    unfold Dict.update. revert d.
    induction o as [|[k0 v0] r IH]; simpl; intros d Hnd Hget; [discriminate|].
    inversion Hnd as [|? ? Hnotin Hnd']; subst.
    destruct (String.eqb k0 k) eqn:E.
    - apply String.eqb_eq in E. injection Hget as ->. subst k0.
      fold (Dict.update (Dict.set k v d) r).
      rewrite get_update_absent by assumption. apply get_set_same.
    - now apply IH.
  Qed.

Lemma get_update o d k :
    NoDup (Dict.keys o) ->
    Dict.get k (Dict.update d o) =
    match Dict.get k o with Some v => Some v | None => Dict.get k d end.
  Proof.
    intros Hnd. destruct (Dict.get k o) eqn:E.
    - now apply get_update_present.
    - apply get_update_absent. now apply get_none_not_in.
  Qed.

Lemma in_keys_update o d k :
    In k (Dict.keys (Dict.update d o)) <-> In k (Dict.keys d) \/ In k (Dict.keys o).
  Proof.
    unfold Dict.update. revert d.
    induction o as [|[k0 v0] r IH]; simpl; intros d; [tauto|].
    rewrite IH, in_keys_set. intuition.
  Qed.

Lemma nodup_update o d :
    NoDup (Dict.keys d) -> NoDup (Dict.keys (Dict.update d o)).
  Proof.
    unfold Dict.update. revert d.
    induction o as [|[k0 v0] r IH]; simpl; intros d Hnd; [assumption|].
    apply IH. now apply nodup_set.
  Qed.

End Facts.
End DictFacts.

(** ** Runs that return *)

Lemma bind_ok {A B} (c : exc A) (k : A -> exc B) (r : B) :
  bind c k = Ok r -> exists a, c = Ok a /\ k a = Ok r.
Proof. destruct c; simpl; intros H; [eauto|discriminate|discriminate]. Qed.

Ltac bind_inv H :=
  let a := fresh "a" in
  let Ha := fresh "Hrun" in
  apply bind_ok in H; destruct H as (a & Ha & H).

Lemma for_each_app {A S} (step : S -> A -> exc S) xs ys acc :
  for_each step (xs ++ ys) acc = (acc' <- for_each step xs acc ;; for_each step ys acc').
Proof.
  revert acc. induction xs as [|x r IH]; simpl; intros acc; [reflexivity|].
  destruct (step acc x); simpl; auto.
Qed.

Lemma for_each_ext {A S} (step step' : S -> A -> exc S) :
  (forall acc x, step acc x = step' acc x) ->
  forall xs acc, for_each step xs acc = for_each step' xs acc.
Proof.
  intros Hext xs. induction xs as [|x r IH]; simpl; intros acc; [reflexivity|].
  rewrite Hext. destruct (step' acc x); simpl; auto.
Qed.

(** A property kept by every step is kept by the loop. *)
Lemma for_each_invariant {A S} (step : S -> A -> exc S) (P : S -> Prop) xs :
  (forall acc x acc', In x xs -> P acc -> step acc x = Ok acc' -> P acc') ->
  forall acc acc', P acc -> for_each step xs acc = Ok acc' -> P acc'.
Proof.
  induction xs as [|x r IH]; simpl; intros Hstep acc acc' HP Hrun.
  - now injection Hrun as <-.
  - bind_inv Hrun. eapply IH; [| |exact Hrun].
    + intros; eapply Hstep; eauto.
    + eapply Hstep; eauto.
Qed.

(** ** Loops that rewrite one entry per item *)

Section Keyed.
Variable V : Type.
Variable f : string -> V -> option (dict value) -> exc (dict value).

Lemma keyed_nodup items acc acc' :
    for_each (keyed_step f) items acc = Ok acc' ->
    NoDup (Dict.keys acc) -> NoDup (Dict.keys acc').
  Proof.
    intros Hrun Hnd. revert Hnd Hrun.
    apply for_each_invariant with (P := fun s => NoDup (Dict.keys s)).
    intros s x s' _ Hs Hstep. unfold keyed_step in Hstep. bind_inv Hstep.
    injection Hstep as <-. now apply DictFacts.nodup_set.
  Qed.

Lemma keyed_keys items : forall acc acc',
    for_each (keyed_step f) items acc = Ok acc' ->
    forall K, In K (Dict.keys acc') <-> In K (Dict.keys acc) \/ In K (Dict.keys items).
  Proof.
    induction items as [|[k v] r IH]; simpl; intros acc acc' Hrun K.
    - injection Hrun as <-. tauto.
    - bind_inv Hrun. unfold keyed_step in Hrun0. bind_inv Hrun0.
      injection Hrun0 as <-. simpl in *.
      rewrite (IH _ _ Hrun), DictFacts.in_keys_set. intuition.
  Qed.

Lemma keyed_get_absent items : forall acc acc',
    for_each (keyed_step f) items acc = Ok acc' ->
    forall K, ~ In K (Dict.keys items) -> Dict.get K acc' = Dict.get K acc.
  Proof.
    induction items as [|[k v] r IH]; simpl; intros acc acc' Hrun K Hnotin.
    - now injection Hrun as <-.
    - bind_inv Hrun. unfold keyed_step in Hrun0. bind_inv Hrun0.
      injection Hrun0 as <-. simpl in *.
      rewrite (IH _ _ Hrun) by tauto. apply DictFacts.get_set_other. tauto.
  Qed.

Lemma keyed_get_present items : forall acc acc',
    NoDup (Dict.keys items) ->
    for_each (keyed_step f) items acc = Ok acc' ->
    forall K v, Dict.get K items = Some v ->
    exists e', f K v (Dict.get K acc) = Ok e' /\ Dict.get K acc' = Some e'.
  Proof.
    induction items as [|[k v] r IH]; simpl; intros acc acc' Hnd Hrun K v' Hget;
      [discriminate|].
    inversion Hnd as [|? ? Hnotin Hnd']; subst.
    bind_inv Hrun. unfold keyed_step in Hrun0. bind_inv Hrun0.
    injection Hrun0 as <-. simpl in *.
    destruct (String.eqb k K) eqn:E.
    - apply String.eqb_eq in E. subst K. injection Hget as <-.
      exists a0. split; [assumption|].
      rewrite (keyed_get_absent _ _ Hrun) by assumption.
      apply DictFacts.get_set_same.
    - apply String.eqb_neq in E.
      destruct (IH _ _ Hnd' Hrun _ _ Hget) as (e' & He' & Hacc').
      rewrite DictFacts.get_set_other in He' by assumption. eauto.
  Qed.

  (** Every entry of the result was there before or was written by [f]. *)
Lemma keyed_get_cases items : forall acc acc',
    for_each (keyed_step f) items acc = Ok acc' ->
    forall K e, Dict.get K acc' = Some e ->
    Dict.get K acc = Some e \/
    exists v o, In (K, v) items /\ f K v o = Ok e.
  Proof.
    induction items as [|[k v] r IH]; simpl; intros acc acc' Hrun K e Hget.
    - injection Hrun as <-. auto.
    - bind_inv Hrun. unfold keyed_step in Hrun0. bind_inv Hrun0.
      injection Hrun0 as <-. simpl in *.
      destruct (IH _ _ Hrun _ _ Hget) as [Hold|(v' & o & Hin & Hf)].
      + rewrite DictFacts.get_set in Hold.
        destruct (String.eqb k K) eqn:E.
        * apply String.eqb_eq in E. subst K. injection Hold as <-.
          right. exists v, (Dict.get k acc). auto.
        * auto.
      + right. exists v', o. auto.
  Qed.

Lemma keyed_total items : forall acc,
    NoDup (Dict.keys items) ->
    (forall K v, In (K, v) items -> exists e', f K v (Dict.get K acc) = Ok e') ->
    exists acc', for_each (keyed_step f) items acc = Ok acc'.
  Proof.
    induction items as [|[k v] r IH]; simpl; intros acc Hnd Hf; [eauto|].
    inversion Hnd as [|? ? Hnotin Hnd']; subst.
    destruct (Hf k v (or_introl eq_refl)) as (e' & He').
    unfold keyed_step at 1. simpl. rewrite He'. simpl.
    apply IH; [assumption|].
    intros K v' Hin. rewrite DictFacts.get_set_other.
    - apply Hf. auto.
    - intros ->. apply Hnotin.
      change (In (fst (K, v')) (map fst r)). now apply in_map.
  Qed.

End Keyed.

(** ** The tree walker *)

(** Induction on values, through their lists and dicts. *)
Fixpoint value_nested_ind (P : value -> Prop)
    (HNone : P VNone) (HBool : forall b, P (VBool b)) (HInt : forall z, P (VInt z))
    (HFloat : forall f, P (VFloat f)) (HStr : forall s, P (VStr s))
    (HList : forall l, Forall P l -> P (VList l))
    (HDict : forall d, Forall (fun kv => P (snd kv)) d -> P (VDict d))
    (v : value) {struct v} : P v :=
  let rec := value_nested_ind HNone HBool HInt HFloat HStr HList HDict in
  match v with
  | VNone => HNone
  | VBool b => HBool b
  | VInt z => HInt z
  | VFloat f => HFloat f
  | VStr s => HStr s
  | VList l =>
      HList l ((fix all (l : list value) : Forall P l :=
                  match l with
                  | [] => Forall_nil _
                  | x :: r => Forall_cons _ (rec x) (all r)
                  end) l)
  | VDict d =>
      HDict d ((fix all (d : list (string * value))
                  : Forall (fun kv => P (snd kv)) d :=
                  match d with
                  | [] => Forall_nil _
                  | kv :: r => Forall_cons _ (rec (snd kv)) (all r)
                  end) d)
  end.

(** [recurse] on a dict node, with its two inner loops named. *)
Lemma recurse_dict d path s :
  recurse (VDict d) path s =
  (s' <- match Dict.get "children" d with
         | Some c => cs <- as_dict c ;; recurse_items cs s
         | None => Ok s
         end ;;
   Ok (record_setting d path s')).
Proof.
  cbn [recurse]. f_equal.
  induction d as [|[k v] r IH]; [reflexivity|].
  cbn [Dict.get]. destruct (String.eqb k "children"); [|exact IH].
  destruct v; try reflexivity.
  cbn [as_dict bind]. unfold recurse_items.
  generalize s. induction d as [|[key child] cs IHcs]; intros s0; [reflexivity|].
  cbn [for_each fst snd]. destruct (recurse child key s0); cbn [bind]; auto.
Qed.

Lemma record_setting_nodup d path s :
  NoDup (Dict.keys s) -> NoDup (Dict.keys (record_setting d path s)).
Proof.
  unfold record_setting. intros Hnd.
  destruct (is_setting d); [|assumption].
  destruct (truthy _); [|assumption].
  now apply DictFacts.nodup_set.
Qed.

(** A dict node's step reaches the children of its [children] item, two
    levels down: the induction that fits [recurse]. *)
Lemma walk_ind (P : value -> Prop) :
  (forall v, (forall d, v <> VDict d) -> P v) ->
  (forall d,
      (forall k cs, In (k, VDict cs) d -> Forall (fun kv => P (snd kv)) cs) ->
      P (VDict d)) ->
  forall v, P v.
Proof.
  intros Hleaf Hnode.
  assert (Hboth : forall v,
             P v /\ match v with
                    | VDict cs => Forall (fun kv => P (snd kv)) cs
                    | _ => True
                    end).
  { induction v as [|b|z|f|str|l IH|d IH] using value_nested_ind;
      try (split; [apply Hleaf; discriminate|exact I]).
    assert (Hkids : Forall (fun kv => P (snd kv)) d).
    { eapply Forall_impl; [|exact IH]. now intros kv [HP _]. }
    split; [|assumption].
    apply Hnode. intros k cs Hin.
    rewrite Forall_forall in IH. exact (proj2 (IH _ Hin)). }
  intros v. apply Hboth.
Qed.

Lemma recurse_leaf v path s s' :
  (forall d, v <> VDict d) -> recurse v path s = Ok s' -> s' = s.
Proof.
  intros Hv Hrun. destruct v; try (now destruct (Hv d));
    cbn [recurse] in Hrun; bind_inv Hrun; bind_inv Hrun; now injection Hrun.
Qed.

(** What holds of the walker's dict before a node and is kept by every
    assignment holds after it. *)
Lemma recurse_invariant (P : settings_map -> Prop) :
  (forall path node s, P s -> P (Dict.set path (setting_info_of node) s)) ->
  forall node path s s', recurse node path s = Ok s' -> P s -> P s'.
Proof.
  intros Hset node.
  induction node as [v Hv|d IH] using walk_ind; intros path s s' Hrun HP.
  - now rewrite (recurse_leaf _ _ Hv Hrun).
  - rewrite recurse_dict in Hrun. bind_inv Hrun. injection Hrun as <-.
    assert (Ha : P a).
    { destruct (Dict.get "children" d) as [c|] eqn:Ec.
      - bind_inv Hrun0. destruct c; try discriminate. injection Hrun as <-.
        apply DictFacts.get_in in Ec. specialize (IH _ _ Ec).
        unfold recurse_items in Hrun0. revert HP Hrun0.
        apply for_each_invariant.
        intros acc [key child] acc' Hin Hacc Hstep.
        rewrite Forall_forall in IH. exact (IH _ Hin _ _ _ Hstep Hacc).
      - now injection Hrun0 as <-. }
    unfold record_setting.
    destruct (is_setting d); [|assumption].
    destruct (truthy _); [|assumption]. now apply Hset.
Qed.

Lemma walk_settings_invariant (P : settings_map -> Prop) def_data s :
  (forall path node s, P s -> P (Dict.set path (setting_info_of node) s)) ->
  P [] -> walk_settings def_data = Ok s -> P s.
Proof.
  intros Hset Hnil. unfold walk_settings.
  destruct (Dict.get "settings" def_data) as [tree|]; intros Hrun.
  - bind_inv Hrun. unfold recurse_items in Hrun. revert Hnil Hrun.
    apply for_each_invariant.
    intros acc [key child] acc' _ Hacc Hstep.
    exact (recurse_invariant P Hset _ _ _ Hstep Hacc).
  - now injection Hrun as <-.
Qed.

Lemma setting_info_nodup node : NoDup (Dict.keys (setting_info_of node)).
Proof.
  unfold setting_info_of.
  assert (Hgen : forall props acc,
             NoDup (Dict.keys acc) ->
             NoDup (Dict.keys
                      (fold_left
                         (fun setting_info prop =>
                            match Dict.get prop node with
                            | Some v => Dict.set prop v setting_info
                            | None => setting_info
                            end) props acc))).
  { induction props as [|p r IH]; simpl; intros acc Hnd; [assumption|].
    apply IH. destruct (Dict.get p node); [now apply DictFacts.nodup_set|assumption]. }
  apply Hgen. constructor.
Qed.

Lemma apply_override_keyed filename ovs s :
  for_each (apply_override filename) ovs s =
  for_each (keyed_step (override_entry filename)) ovs s.
Proof.
  apply for_each_ext. intros acc [key override].
  unfold apply_override, keyed_step, override_entry. cbn [fst snd].
  destruct (update_from _ override); reflexivity.
Qed.

(** The walker's result has distinct keys: it is a dict. *)
Lemma extract_settings_nodup def_data s :
  extract_settings_from_def def_data = Ok s -> NoDup (Dict.keys s).
Proof.
  unfold extract_settings_from_def. intros Hrun. bind_inv Hrun.
  assert (Ha : NoDup (Dict.keys a)).
  { eapply walk_settings_invariant with (P := fun s => NoDup (Dict.keys s));
      [|constructor|eassumption].
    intros. now apply DictFacts.nodup_set. }
  destruct (Dict.get "overrides" def_data) as [ovs|].
  - bind_inv Hrun. rewrite apply_override_keyed in Hrun.
    eapply keyed_nodup; eauto.
  - now injection Hrun as <-.
Qed.



Lemma fields_distinct_set path info s :
  NoDup (Dict.keys info) -> fields_distinct s ->
  fields_distinct (Dict.set path info s).
Proof.
  intros Hinfo Hs K e. rewrite DictFacts.get_set.
  destruct (String.eqb path K); [now intros [= <-]|apply Hs].
Qed.

Lemma update_from_nodup d v d' :
  update_from d v = Ok d' -> NoDup (Dict.keys d) -> NoDup (Dict.keys d').
Proof.
  destruct v as [|b|z|f|str|l|o]; cbn [update_from]; try discriminate.
  - destruct (String.eqb str ""); [now intros [= <-]|discriminate].
  - destruct l; [now intros [= <-]|discriminate].
  - intros [= <-]. apply DictFacts.nodup_update.
Qed.

Lemma extract_settings_fields_distinct def_data s :
  extract_settings_from_def def_data = Ok s -> fields_distinct s.
Proof.
  unfold extract_settings_from_def. intros Hrun. bind_inv Hrun.
  assert (Ha : fields_distinct a).
  { apply walk_settings_invariant with (P := fields_distinct) (def_data := def_data);
      [|intros K e; discriminate|assumption].
    intros path node s0 Hs0. apply fields_distinct_set; [|assumption].
    apply setting_info_nodup. }
  destruct (Dict.get "overrides" def_data) as [ovs|].
  - bind_inv Hrun. revert Ha Hrun. apply for_each_invariant.
    intros acc [key override] acc' _ Hacc Hstep.
    unfold apply_override in Hstep. cbn [fst snd] in Hstep. bind_inv Hstep.
    injection Hstep as <-. apply fields_distinct_set; [|assumption].
    apply DictFacts.nodup_set. eapply update_from_nodup; [eassumption|].
    destruct (Dict.get key acc) as [e|] eqn:E; [eauto|constructor].
  - now injection Hrun as <-.
Qed.

(** ** The effective-settings merge *)

Lemma for_each_prefix {A S} (step : S -> A -> exc S) (P : list A -> S -> Prop) xs :
  (forall pre x acc acc',
      In x xs -> P pre acc -> step acc x = Ok acc' -> P (pre ++ [x]) acc') ->
  forall acc acc', P [] acc -> for_each step xs acc = Ok acc' -> P xs acc'.
Proof.
  intros Hstep.
  assert (Hgen : forall ys pre acc acc',
             (forall y, In y ys -> In y xs) ->
             P pre acc -> for_each step ys acc = Ok acc' -> P (pre ++ ys) acc').
  { induction ys as [|y r IH]; simpl; intros pre acc acc' Hsub HP Hrun.
    - injection Hrun as <-. now rewrite app_nil_r.
    - bind_inv Hrun.
      replace (pre ++ y :: r) with ((pre ++ [y]) ++ r)
        by (rewrite <- app_assoc; reflexivity).
      eapply IH; [auto| |exact Hrun].
      eapply Hstep; eauto. }
  intros acc acc' HP Hrun. exact (Hgen xs [] acc acc' (fun _ H => H) HP Hrun).
Qed.

(** A loop returns when each step returns from any state that satisfies an
    invariant, and keeps it. *)
Lemma for_each_total {A S} (step : S -> A -> exc S) (P : S -> Prop) xs :
  (forall x acc, In x xs -> P acc -> exists acc', step acc x = Ok acc' /\ P acc') ->
  forall acc, P acc -> exists acc', for_each step xs acc = Ok acc' /\ P acc'.
Proof.
  induction xs as [|x r IH]; simpl; intros Hstep acc HP; [eauto|].
  destruct (Hstep x acc (or_introl eq_refl) HP) as (acc1 & -> & HP1). simpl.
  apply IH; auto.
Qed.

Lemma merge_setting_keyed layer : merge_setting layer = keyed_step (merge_entry layer).
Proof. reflexivity. Qed.

Lemma override_setting_keyed : override_setting = keyed_step override_entry_of.
Proof. reflexivity. Qed.

Lemma append_source_ok e x e' :
  append_source e x = Ok e' ->
  exists l, Dict.get "_sources" e = Some (VList l) /\
            e' = Dict.set "_sources" (VList (l ++ [x])) e.
Proof.
  unfold append_source. destruct (Dict.get "_sources" e) as [[]|]; try discriminate.
  intros [= <-]. eauto.
Qed.

Lemma append_source_total e x l :
  Dict.get "_sources" e = Some (VList l) ->
  append_source e x = Ok (Dict.set "_sources" (VList (l ++ [x])) e).
Proof. unfold append_source. now intros ->. Qed.

Lemma sources_of_some e l :
  sources_of e = Some l <-> Dict.get "_sources" e = Some (VList l).
Proof.
  unfold sources_of. destruct (Dict.get "_sources" e) as [[]|]; split; congruence.
Qed.

(** Whatever an append wrote ends with what was appended. *)
Lemma append_source_last e x e' :
  append_source e x = Ok e' ->
  exists l, sources_of e = Some l /\ sources_of e' = Some (l ++ [x]).
Proof.
  intros H. apply append_source_ok in H. destruct H as (l & Hl & ->).
  exists l. rewrite !sources_of_some, DictFacts.get_set_same. auto.
Qed.

Lemma append_source_other e x e' field :
  append_source e x = Ok e' -> field <> "_sources" ->
  Dict.get field e' = Dict.get field e.
Proof.
  intros H Hne. apply append_source_ok in H. destruct H as (l & _ & ->).
  apply DictFacts.get_set_other. congruence.
Qed.

Lemma sourced_nil : sourced [].
Proof. intros K e H. discriminate. Qed.

Lemma keyed_sourced {V} (f : string -> V -> option (dict value) -> exc (dict value))
    items eff eff' :
  (forall K v o e, f K v o = Ok e -> exists l, sources_of e = Some l /\ l <> []) ->
  sourced eff -> for_each (keyed_step f) items eff = Ok eff' -> sourced eff'.
Proof.
  intros Hf Heff Hrun K e Hget.
  destruct (keyed_get_cases _ _ _ Hrun _ Hget) as [Hold|(v & o & _ & Hnew)]; eauto.
Qed.

Lemma merge_entry_sourced layer K v o e :
  merge_entry layer K v o = Ok e -> exists l, sources_of e = Some l /\ l <> [].
Proof.
  intros H. apply append_source_last in H. destruct H as (l & _ & Hl).
  eexists. split; [exact Hl|]. now destruct l.
Qed.

Lemma override_entry_sourced K v o e :
  override_entry_of K v o = Ok e -> exists l, sources_of e = Some l /\ l <> [].
Proof.
  intros H. apply append_source_last in H. destruct H as (l & _ & Hl).
  eexists. split; [exact Hl|]. now destruct l.
Qed.

Section MergeFacts.
Variable w : World.

Lemma merge_layer_inv eff l eff' :
  merge_layer w eff l = Ok eff' ->
  exists s, layer_settings w l = Ok s /\ NoDup (Dict.keys s) /\
            for_each (keyed_step (merge_entry (name l))) s eff = Ok eff'.
Proof.
  unfold merge_layer. intros H. bind_inv H. exists a. split; [assumption|].
  split; [|exact H].
  unfold layer_settings in Hrun. bind_inv Hrun.
  eapply extract_settings_nodup; eauto.
Qed.

Lemma defines_true K l s :
  layer_settings w l = Ok s -> (defines w K l = true <-> In K (Dict.keys s)).
Proof. unfold defines. intros ->. apply DictFacts.has_true. Qed.

(** Keys of the chain merge: distinct, and exactly those some layer
    defines. *)
Lemma merge_chain_keys layers eff :
  for_each (merge_layer w) layers [] = Ok eff ->
  NoDup (Dict.keys eff) /\
  forall K, In K (Dict.keys eff) <-> exists l, In l layers /\ defines w K l = true.
Proof.
  apply for_each_prefix with
    (P := fun done eff =>
            NoDup (Dict.keys eff) /\
            forall K, In K (Dict.keys eff) <->
                      exists l, In l done /\ defines w K l = true).
  - intros pre l acc acc' _ [Hnd Hkeys] Hstep.
    apply merge_layer_inv in Hstep. destruct Hstep as (s & Hs & _ & Hrun).
    split; [eapply keyed_nodup; eauto|].
    intros K. rewrite (keyed_keys _ _ _ Hrun), Hkeys. split.
    + intros [(l0 & Hin & Hdef)|Hin].
      * exists l0. split; [apply in_or_app; auto|assumption].
      * exists l. split; [apply in_or_app; simpl; auto|].
        now apply (defines_true K l Hs).
    + intros (l0 & Hin & Hdef). apply in_app_or in Hin.
      destruct Hin as [Hin|[<-|[]]]; [left; eauto|].
      right. now apply (defines_true K l Hs).
  - split; [constructor|]. intros K. simpl. split; [tauto|].
    now intros (l & [] & _).
Qed.

Lemma merge_chain_sourced layers eff :
  for_each (merge_layer w) layers [] = Ok eff -> sourced eff.
Proof.
  apply for_each_invariant with (P := sourced); [|apply sourced_nil].
  intros acc l acc' _ Hacc Hstep.
  apply merge_layer_inv in Hstep. destruct Hstep as (s & _ & _ & Hrun).
  eapply keyed_sourced; [|exact Hacc|exact Hrun].
  intros K v o e. apply merge_entry_sourced.
Qed.

(** With plain layers, the provenance of a key is the names of the layers
    that define it, in merge order. *)
Lemma merge_chain_provenance layers eff :
  (forall l, In l layers -> plain_layer w l) ->
  for_each (merge_layer w) layers [] = Ok eff ->
  forall K e, Dict.get K eff = Some e ->
  sources_of e = Some (map name (filter (defines w K) layers)).
Proof.
  intros Hplain Hall_run.
  enough (Hall : forall K,
             match Dict.get K eff with
             | Some e => sources_of e = Some (map name (filter (defines w K) layers))
             | None => filter (defines w K) layers = []
             end).
  { intros K e Hget. specialize (Hall K). now rewrite Hget in Hall. }
  refine (@for_each_prefix _ _ (merge_layer w)
            (fun done eff =>
               forall K,
                 match Dict.get K eff with
                 | Some e => sources_of e = Some (map name (filter (defines w K) done))
                 | None => filter (defines w K) done = []
                 end) layers _ [] eff (fun K => eq_refl) Hall_run).
  intros pre l acc acc' Hin Hacc Hstep K.
  apply merge_layer_inv in Hstep. destruct Hstep as (s & Hs & Hnd & Hrun).
  rewrite filter_app. cbn [filter]. specialize (Hacc K).
  destruct (Dict.get K s) as [v|] eqn:Ev.
  - destruct (keyed_get_present _ _ _ Hnd Hrun _ Ev) as (e' & He' & ->).
    assert (Hdef : defines w K l = true).
    { apply (defines_true K l Hs). eapply DictFacts.get_some_in_keys; eauto. }
    rewrite Hdef, map_app. cbn [map].
    unfold merge_entry in He'. apply append_source_last in He'.
    destruct He' as (l0 & Hl0 & ->). f_equal. f_equal.
    destruct (Hplain _ Hin) as (s' & Hs' & Hno).
    rewrite Hs in Hs'. injection Hs' as <-.
    apply sources_of_some in Hl0.
    rewrite DictFacts.get_update_absent in Hl0.
    2:{ apply DictFacts.get_none_not_in. apply (Hno K).
        now apply DictFacts.get_in. }
    destruct (Dict.get K acc) as [e0|].
    + apply sources_of_some in Hacc. congruence.
    + cbn in Hl0. injection Hl0 as <-. now rewrite Hacc.
  - assert (Hdef : defines w K l = false).
    { destruct (defines w K l) eqn:Ed; [|reflexivity].
      apply (defines_true K l Hs) in Ed.
      apply DictFacts.get_none_not_in in Ev. contradiction. }
    rewrite Hdef, app_nil_r.
    rewrite (keyed_get_absent _ _ _ Hrun) by now apply DictFacts.get_none_not_in.
    exact Hacc.
Qed.

Lemma merge_chain_total layers :
  (forall l, In l layers -> plain_layer w l) ->
  exists eff, for_each (merge_layer w) layers [] = Ok eff.
Proof.
  intros Hplain.
  destruct (for_each_total (merge_layer w) sourced layers) with (acc := @nil (string * dict value))
    as (eff & Heff & _); [|apply sourced_nil|eauto].
  intros l acc Hin Hacc.
  destruct (Hplain _ Hin) as (s & Hs & Hno).
  assert (Hnd : NoDup (Dict.keys s)).
  { unfold layer_settings in Hs. bind_inv Hs. eapply extract_settings_nodup; eauto. }
  unfold merge_layer. rewrite Hs. cbn [bind]. rewrite merge_setting_keyed.
  destruct (keyed_total (merge_entry (name l)) s acc Hnd) as (acc' & Hacc').
  - intros K v HinK. unfold merge_entry.
    assert (Hsrc : exists l0,
               Dict.get "_sources"
                 (match Dict.get K acc with
                  | Some e => e
                  | None => [("_sources", VList [])]
                  end) = Some (VList l0)).
    { destruct (Dict.get K acc) as [e|] eqn:E.
      - destruct (Hacc _ _ E) as (l0 & Hl0 & _).
        apply sources_of_some in Hl0. eauto.
      - exists []. reflexivity. }
    destruct Hsrc as (l0 & Hl0).
    eexists. apply append_source_total.
    rewrite DictFacts.get_update_absent; [exact Hl0|].
    apply DictFacts.get_none_not_in. eapply Hno; eauto.
  - exists acc'. split; [assumption|].
    eapply keyed_sourced; [|exact Hacc|exact Hacc'].
    intros K v o e. apply merge_entry_sourced.
Qed.

(** The overlay of the definition changes. *)
Lemma apply_definition_changes_inv dc eff eff' :
  values_wf dc ->
  apply_definition_changes dc eff = Ok eff' ->
  exists vs,
    NoDup (Dict.keys vs) /\
    (forall K, overridden dc K = Dict.has K vs) /\
    (Dict.get "values" dc = None \/ Dict.get "values" dc = Some (VDict vs)) /\
    for_each (keyed_step override_entry_of) vs eff = Ok eff'.
Proof.
  unfold apply_definition_changes, values_wf, overridden. intros Hwf Hrun.
  destruct (Dict.get "values" dc) as [v|].
  - destruct (Hwf v eq_refl) as (vs & -> & Hnd). cbn [as_dict bind] in Hrun.
    exists vs. auto.
  - exists []. injection Hrun as <-. repeat split; auto. constructor.
Qed.

Lemma apply_definition_changes_total dc eff :
  values_wf dc -> sourced eff ->
  exists eff', apply_definition_changes dc eff = Ok eff'.
Proof.
  unfold apply_definition_changes, values_wf. intros Hwf Heff.
  destruct (Dict.get "values" dc) as [v|]; [|eauto].
  destruct (Hwf v eq_refl) as (vs & -> & Hnd). cbn [as_dict bind].
  rewrite override_setting_keyed. apply keyed_total; [assumption|].
  intros K v _. unfold override_entry_of.
  destruct (Dict.get K eff) as [e|] eqn:E.
  - destruct (Heff _ _ E) as (l0 & Hl0 & _). apply sources_of_some in Hl0.
    eexists. apply append_source_total.
    rewrite DictFacts.get_set_other by discriminate. exact Hl0.
  - eexists. apply append_source_total. reflexivity.
Qed.

End MergeFacts.

Section Merger.
Variable w : World.

Lemma filter_none {A} (p : A -> bool) xs :
  (forall x, In x xs -> p x = false) -> filter p xs = [].
Proof.
  induction xs as [|x r IH]; simpl; intros H; [reflexivity|].
  rewrite (H x (or_introl eq_refl)). apply IH. auto.
Qed.

Lemma sources_of_set_other field v e :
  field <> "_sources" -> sources_of (Dict.set field v e) = sources_of e.
Proof.
  intros Hne. unfold sources_of. now rewrite DictFacts.get_set_other.
Qed.

Lemma provenance_length chain dc K :
  List.length (provenance w chain dc K) =
  List.length (filter (defines w K) chain) + (if overridden dc K then 1 else 0).
Proof.
  unfold provenance.
  rewrite length_app, length_map, filter_rev, length_rev.
  now destruct (overridden dc K).
Qed.

(** Entries of the whole merge, from those of the chain merge. *)
Lemma effective_entry chain dc eff0 eff :
  values_wf dc ->
  merge_chain w chain = Ok eff0 ->
  apply_definition_changes dc eff0 = Ok eff ->
  forall K e, Dict.get K eff = Some e ->
  if overridden dc K then
    exists front,
      sources_of e = Some (front ++ [VStr "definition_changes"]) /\
      match Dict.get K eff0 with
      | Some e0 =>
          sources_of e0 = Some front /\
          forall field, field <> "_sources" -> field <> "effective_value" ->
                        Dict.get field e = Dict.get field e0
      | None => front = []
      end
  else Dict.get K eff0 = Some e.
Proof.
  intros Hwf Hchain Hover K e Hget.
  destruct (@apply_definition_changes_inv dc eff0 eff Hwf Hover)
    as (vs & Hnd & Hov & _ & Hrun).
  rewrite Hov. unfold Dict.has.
  destruct (Dict.get K vs) as [v|] eqn:Ev.
  - destruct (@keyed_get_present _ _ _ _ _ Hnd Hrun K v Ev) as (e' & He' & Hget').
    rewrite Hget in Hget'. injection Hget' as <-.
    unfold override_entry_of in He'.
    pose proof (@append_source_last _ _ _ He') as (front & Hfront & Hlast).
    exists front. split; [assumption|].
    rewrite sources_of_set_other in Hfront by discriminate.
    destruct (Dict.get K eff0) as [e0|] eqn:E0.
    + split; [assumption|]. intros field Hs He.
      rewrite (@append_source_other _ _ _ _ He' Hs).
      apply DictFacts.get_set_other. congruence.
    + cbn in Hfront. now injection Hfront as <-.
  - rewrite <- Hget. symmetry. apply (@keyed_get_absent _ _ _ _ _ Hrun).
    now apply DictFacts.get_none_not_in.
Qed.

Lemma plain_sources chain dc eff0 eff :
  (forall l, In l chain -> plain_layer w l) ->
  values_wf dc ->
  merge_chain w chain = Ok eff0 ->
  apply_definition_changes dc eff0 = Ok eff ->
  forall K e, Dict.get K eff = Some e ->
  sources_of e = Some (provenance w chain dc K).
Proof.
  intros Hplain Hwf Heff0 Heff K e Hget.
  assert (Hplain' : forall l, In l (rev chain) -> plain_layer w l).
  { intros l Hin. apply Hplain. now apply in_rev. }
  pose proof (@effective_entry chain dc eff0 eff Hwf Heff0 Heff K e Hget) as Hentry.
  unfold provenance. destruct (overridden dc K).
  - destruct Hentry as (front & Hlast & Hfront). rewrite Hlast. f_equal. f_equal.
    destruct (Dict.get K eff0) as [e0|] eqn:E0.
    + destruct Hfront as [Hfront _].
      rewrite (@merge_chain_provenance w _ _ Hplain' Heff0 K e0 E0) in Hfront.
      congruence.
    + subst front. symmetry. rewrite filter_none; [reflexivity|].
      intros l Hin. destruct (defines w K l) eqn:Ed; [|reflexivity].
      exfalso. apply DictFacts.get_none_not_in in E0. apply E0.
      apply (@merge_chain_keys w _ _ Heff0). eauto.
  - rewrite app_nil_r.
    exact (@merge_chain_provenance w _ _ Hplain' Heff0 K e Hentry).
Qed.

Lemma effective_settings_plain chain dc :
  (forall l, In l chain -> plain_layer w l) ->
  values_wf dc ->
  exists eff,
    effective_settings w chain dc = Ok eff /\
    forall K e, Dict.get K eff = Some e ->
                sources_of e = Some (provenance w chain dc K).
Proof.
  intros Hplain Hwf.
  assert (Hplain' : forall l, In l (rev chain) -> plain_layer w l).
  { intros l Hin. apply Hplain. now apply in_rev. }
  destruct (@merge_chain_total w (rev chain) Hplain') as (eff0 & Heff0).
  destruct (@apply_definition_changes_total dc eff0 Hwf
              (@merge_chain_sourced w _ _ Heff0)) as (eff & Heff).
  exists eff. unfold effective_settings, merge_chain. rewrite Heff0. cbn [bind].
  split; [assumption|]. now apply plain_sources with (eff0 := eff0).
Qed.

(** C1, amended. When no layer of the chain gives a setting a field named
    [_sources], the merge of a chain of N links returns after visiting its
    N links, and the provenance w list of every key of the result is the
    names of the links that define the key, most general first, followed by
    [definition_changes] when the overlay has the key: its length is the
    number of defining links plus one for the overlay. *)
Theorem plain_chain_provenance :
  forall chain definition_changes,
    (forall l, In l chain -> plain_layer w l) ->
    values_wf definition_changes ->
    exists eff,
      effective_settings w chain definition_changes = Ok eff /\
      List.length (rev chain) = List.length chain /\
      forall K e, Dict.get K eff = Some e ->
        exists srcs,
          sources_of e = Some srcs /\
          srcs = provenance w chain definition_changes K /\
          List.length srcs =
          List.length (filter (defines w K) chain) +
          (if overridden definition_changes K then 1 else 0).
Proof.
  intros chain dc Hplain Hwf.
  destruct (effective_settings_plain chain Hplain Hwf) as (eff & Heff & Hsrc).
  exists eff. split; [assumption|]. split; [apply length_rev|].
  intros K e Hget. eexists. split; [exact (Hsrc K e Hget)|].
  split; [reflexivity|apply provenance_length].
Qed.

End Merger.

Section Overlay.
Variable w : World.

Lemma effective_settings_total chain dc :
  (forall l, In l chain -> plain_layer w l) ->
  values_wf dc ->
  exists eff0 eff,
    merge_chain w chain = Ok eff0 /\
    apply_definition_changes dc eff0 = Ok eff /\
    effective_settings w chain dc = Ok eff.
Proof.
  intros Hplain Hwf.
  assert (Hplain' : forall l, In l (rev chain) -> plain_layer w l).
  { intros l Hin. apply Hplain. now apply in_rev. }
  destruct (@merge_chain_total w (rev chain) Hplain') as (eff0 & Heff0).
  destruct (@apply_definition_changes_total dc eff0 Hwf
              (@merge_chain_sourced w _ _ Heff0)) as (eff & Heff).
  exists eff0, eff. unfold effective_settings, merge_chain.
  rewrite Heff0. cbn [bind]. auto.
Qed.

Lemma effective_map_keys chain dc eff :
  values_wf dc ->
  effective_settings w chain dc = Ok eff ->
  NoDup (Dict.keys eff) /\
  forall K,
    In K (Dict.keys eff) <->
    (exists l, In l chain /\ defines w K l = true) \/ overridden dc K = true.
Proof.
  intros Hwf Hrun. unfold effective_settings in Hrun. bind_inv Hrun.
  rename a into eff0, Hrun0 into Heff0.
  destruct (@merge_chain_keys w (rev chain) eff0 Heff0) as [Hnd0 Hkeys0].
  destruct (@apply_definition_changes_inv dc eff0 eff Hwf Hrun)
    as (vs & Hnd & Hov & _ & Hloop).
  split; [eapply keyed_nodup; eauto|].
  intros K. rewrite (@keyed_keys _ _ _ _ _ Hloop K), Hkeys0, Hov,
    DictFacts.has_true.
  split; (intros [(l & Hin & Hdef)|Hin]; [left|right; assumption]);
    exists l; (split; [|assumption]).
  - now apply in_rev.
  - now apply in_rev in Hin.
Qed.

(** C5. Whenever the merge returns a map, the map has one entry per key,
    its keys are exactly the keys some chain layer defines or the
    definition-changes layer has, every entry has a provenance list that is
    not empty, and the provenance of a key the definition-changes layer has
    ends with [definition_changes]. The merge does return when no layer
    gives a setting a field named [_sources]. *)
Theorem effective_map_invariants :
  forall chain definition_changes,
    values_wf definition_changes ->
    (forall eff,
        effective_settings w chain definition_changes = Ok eff ->
        NoDup (Dict.keys eff) /\
        (forall K,
            In K (Dict.keys eff) <->
            (exists l, In l chain /\ defines w K l = true) \/
            overridden definition_changes K = true) /\
        (forall K e,
            Dict.get K eff = Some e ->
            exists srcs,
              sources_of e = Some srcs /\ srcs <> [] /\
              (overridden definition_changes K = true ->
               exists front, srcs = front ++ [VStr "definition_changes"]))) /\
    ((forall l, In l chain -> plain_layer w l) ->
     exists eff, effective_settings w chain definition_changes = Ok eff).
Proof.
  intros chain dc Hwf. split.
  - intros eff Hrun.
    destruct (effective_map_keys chain Hwf Hrun) as [Hnd Hkeys].
    split; [assumption|]. split; [assumption|].
    unfold effective_settings in Hrun. bind_inv Hrun.
    rename a into eff0, Hrun0 into Heff0.
    intros K e Hget.
    pose proof (@effective_entry w chain dc eff0 eff Hwf Heff0 Hrun K e Hget)
      as Hentry.
    destruct (overridden dc K).
    + destruct Hentry as (front & Hlast & _).
      exists (front ++ [VStr "definition_changes"]).
      split; [assumption|]. split; [now destruct front|eauto].
    + destruct (@merge_chain_sourced w _ _ Heff0 K e Hentry) as (l & Hl & Hne).
      exists l. split; [assumption|]. split; [assumption|discriminate].
  - intros Hplain.
    destruct (effective_settings_total chain Hplain Hwf) as (_ & eff & _ & _ & H).
    eauto.
Qed.

(** A field other than [_sources] keeps, through the chain merge, the
    value of the most specific layer that sets it for the key. *)
Lemma merge_chain_field specific l general eff0 s K info field D :
  field <> "_sources" ->
  merge_chain w (specific ++ l :: general) = Ok eff0 ->
  layer_settings w l = Ok s ->
  Dict.get K s = Some info ->
  Dict.get field info = Some D ->
  (forall l' s' info',
      In l' specific -> layer_settings w l' = Ok s' ->
      Dict.get K s' = Some info' -> Dict.get field info' = None) ->
  exists e0, Dict.get K eff0 = Some e0 /\ Dict.get field e0 = Some D.
Proof.
  intros Hfield Hrun Hs Hinfo HD Hspecific.
  unfold merge_chain in Hrun.
  rewrite rev_app_distr in Hrun. cbn [rev] in Hrun.
  rewrite for_each_app in Hrun. bind_inv Hrun. rename a into eff_l.
  rewrite for_each_app in Hrun0. bind_inv Hrun0. rename a into eff_g.
  cbn [for_each] in Hrun0. bind_inv Hrun0. injection Hrun0 as ->.
  assert (Hl : exists e, Dict.get K eff_l = Some e /\ Dict.get field e = Some D).
  { destruct (@merge_layer_inv w _ _ _ Hrun2) as (s0 & Hs0 & Hnd & Hloop).
    rewrite Hs in Hs0. injection Hs0 as <-.
    destruct (@keyed_get_present _ _ _ _ _ Hnd Hloop K info Hinfo)
      as (e' & He' & Hget).
    exists e'. split; [assumption|]. unfold merge_entry in He'.
    rewrite (@append_source_other _ _ _ _ He' Hfield).
    apply DictFacts.get_update_present; [|assumption].
    unfold layer_settings in Hs. bind_inv Hs.
    eapply extract_settings_fields_distinct; eauto. }
  revert Hl Hrun.
  apply for_each_invariant with
    (P := fun eff => exists e, Dict.get K eff = Some e /\ Dict.get field e = Some D).
  intros acc l' acc' Hin (e & Hget & He) Hstep.
  destruct (@merge_layer_inv w _ _ _ Hstep) as (s' & Hs' & Hnd' & Hloop).
  destruct (Dict.get K s') as [info'|] eqn:E.
  - destruct (@keyed_get_present _ _ _ _ _ Hnd' Hloop K info' E)
      as (e' & He' & Hget').
    exists e'. split; [assumption|]. unfold merge_entry in He'.
    rewrite (@append_source_other _ _ _ _ He' Hfield), Hget.
    rewrite DictFacts.get_update_absent; [assumption|].
    apply DictFacts.get_none_not_in.
    apply (Hspecific l' s' info'); auto. now apply in_rev.
  - exists e. split; [|assumption].
    rewrite (@keyed_get_absent _ _ _ _ _ Hloop K); [assumption|].
    now apply DictFacts.get_none_not_in.
Qed.

(** C2, amended. A chain layer defines key K with default value D, no
    more specific layer of the chain gives K another default, and the
    definition-changes layer has K with value V: whenever the chain merge
    returns, the overlay returns too and the merged entry of K has
    [default_value] D, [effective_value] V and a provenance list that ends
    with [definition_changes]. The chain merge does return when no layer
    gives a setting a field named [_sources]. *)
Theorem override_keeps_default :
  forall specific l general definition_changes vs s K info D V,
    layer_settings w l = Ok s ->
    Dict.get K s = Some info ->
    Dict.get "default_value" info = Some D ->
    (forall l' s' info',
        In l' specific -> layer_settings w l' = Ok s' ->
        Dict.get K s' = Some info' -> Dict.get "default_value" info' = None) ->
    Dict.get "values" definition_changes = Some (VDict vs) ->
    NoDup (Dict.keys vs) ->
    Dict.get K vs = Some V ->
    (forall eff0,
        merge_chain w (specific ++ l :: general) = Ok eff0 ->
        exists eff e,
          effective_settings w (specific ++ l :: general) definition_changes
          = Ok eff /\
          Dict.get K eff = Some e /\
          Dict.get "default_value" e = Some D /\
          Dict.get "effective_value" e = Some V /\
          exists front, sources_of e = Some (front ++ [VStr "definition_changes"])) /\
    ((forall l', In l' (specific ++ l :: general) -> plain_layer w l') ->
     exists eff0, merge_chain w (specific ++ l :: general) = Ok eff0).
Proof.
  intros specific l general dc vs s K info D V Hs Hinfo HD Hspec Hvalues Hnd HV.
  assert (Hwf : values_wf dc).
  { intros v Hv. rewrite Hvalues in Hv. injection Hv as <-. eauto. }
  split.
  - intros eff0 Heff0.
    destruct (@apply_definition_changes_total dc eff0 Hwf
                (@merge_chain_sourced w _ _ Heff0)) as (eff & Hover).
    destruct (@merge_chain_field specific l general eff0 s K info "default_value" D)
      as (e0 & Hget0 & HD0); try assumption; [discriminate|].
    assert (Hloop : for_each (keyed_step override_entry_of) vs eff0 = Ok eff).
    { unfold apply_definition_changes in Hover. rewrite Hvalues in Hover.
      exact Hover. }
    destruct (@keyed_get_present _ _ _ _ _ Hnd Hloop K V HV) as (e & He & Hget).
    exists eff, e. split.
    { unfold effective_settings. rewrite Heff0. exact Hover. }
    split; [assumption|].
    rewrite Hget0 in He. unfold override_entry_of in He.
    destruct (@append_source_last _ _ _ He) as (front & _ & Hlast).
    repeat split.
    + rewrite (@append_source_other _ _ _ "default_value" He) by discriminate.
      rewrite DictFacts.get_set_other by discriminate. assumption.
    + rewrite (@append_source_other _ _ _ "effective_value" He) by discriminate.
      apply DictFacts.get_set_same.
    + eauto.
  - intros Hplain.
    destruct (effective_settings_total _ Hplain Hwf) as (eff0 & _ & Heff0 & _).
    eauto.
Qed.

End Overlay.

(** ** The worked installation *)

Ltac plain_layers :=
  let Hin := fresh "Hin" in
  intros ? Hin; cbn in Hin;
  repeat (destruct Hin as [<-|Hin];
          [eexists; split; [vm_compute; reflexivity|];
           let H := fresh "H" in
           intros ? ? H; cbn in H;
           repeat (destruct H as [[= <- <-]|H]; [reflexivity|]);
           destruct H|]);
  destruct Hin.

Ltac distinct_keys := repeat constructor; cbn; intuition discriminate.

Lemma ender3_layers_plain :
  forall l, In l Ender3.chain -> plain_layer Ender3.world l.
Proof. plain_layers. Defined.

Lemma ender3_values_wf : values_wf Ender3.definition_changes.
Proof.
  intros v Hv. cbn in Hv. injection Hv as <-.
  eexists. split; [reflexivity|distinct_keys].
Defined.

Lemma plain_chain_provenance_witness :
  exists eff,
    effective_settings Ender3.world Ender3.chain Ender3.definition_changes = Ok eff /\
    List.length (rev Ender3.chain) = List.length Ender3.chain /\
    forall K e, Dict.get K eff = Some e ->
      exists srcs,
        sources_of e = Some srcs /\
        srcs = provenance Ender3.world Ender3.chain Ender3.definition_changes K /\
        List.length srcs =
        List.length (filter (defines Ender3.world K) Ender3.chain) +
        (if overridden Ender3.definition_changes K then 1 else 0).
Proof.
  exact (@plain_chain_provenance Ender3.world Ender3.chain Ender3.definition_changes
           ender3_layers_plain ender3_values_wf).
Defined.

(** C1 as stated fails: [patched] overrides [layer_height] with a field
    [_sources], the merge replaces the provenance list by it, and the key
    that both links define ends with one provenance entry. The chain is the
    one the loop builds from [patched]. *)
Lemma provenance_count_fails_on_sources_field :
  chain_loop Collision.world 3 (VStr "patched") [] = Some (Ok Collision.chain) /\
  ~ provenance_counts_layers Collision.world Collision.chain [].
Proof.
  split; [reflexivity|].
  intros H.
  destruct (H [("layer_height",
                [("_sources", VList [VStr "patched"]);
                 ("default_value", Ender3.f0_2); ("type", VStr "float");
                 ("description", VStr "The height of each layer in mm.");
                 ("unit", VStr "mm"); ("_source", VStr "patched.def.json")])]
              eq_refl "layer_height" _ eq_refl) as (srcs & Hsrcs & Hlen).
  cbn in Hsrcs. injection Hsrcs as <-. vm_compute in Hlen. discriminate.
Qed.

Lemma effective_map_invariants_witness :
  exists eff,
    effective_settings Ender3.world Ender3.chain Ender3.definition_changes = Ok eff /\
    NoDup (Dict.keys eff) /\
    (forall K e,
        Dict.get K eff = Some e ->
        exists srcs,
          sources_of e = Some srcs /\ srcs <> [] /\
          (overridden Ender3.definition_changes K = true ->
           exists front, srcs = front ++ [VStr "definition_changes"])).
Proof.
  destruct (@effective_map_invariants Ender3.world Ender3.chain
              Ender3.definition_changes ender3_values_wf) as [Hprops Htotal].
  destruct (Htotal ender3_layers_plain) as (eff & Heff).
  exists eff. split; [assumption|].
  destruct (Hprops eff Heff) as (Hnd & _ & Hsrc). auto.
Defined.

Lemma override_keeps_default_witness :
  exists eff e,
    effective_settings Ender3.world Ender3.chain Ender3.definition_changes = Ok eff /\
    Dict.get "layer_height" eff = Some e /\
    Dict.get "default_value" e = Some Ender3.f0_16 /\
    Dict.get "effective_value" e = Some (VStr "0.12") /\
    exists front, sources_of e = Some (front ++ [VStr "definition_changes"]).
Proof.
  destruct (@override_keeps_default Ender3.world []
              {| name := VStr "creality_ender3pro";
                 file_of := "definitions/creality_ender3pro.def.json";
                 inherits := VStr "creality_base" |}
              [{| name := VStr "creality_base";
                  file_of := "definitions/creality_base.def.json";
                  inherits := VStr "fdmprinter" |};
               {| name := VStr "fdmprinter";
                  file_of := "definitions/fdmprinter.def.json";
                  inherits := VNone |}]
              Ender3.definition_changes
              [("layer_height", VStr "0.12")]
              [("machine_name",
                [("default_value", VStr "Creality Ender-3 Pro");
                 ("_source", VStr "creality_ender3pro.def.json")]);
               ("layer_height",
                [("default_value", Ender3.f0_16);
                 ("_source", VStr "creality_ender3pro.def.json")])]
              "layer_height"
              [("default_value", Ender3.f0_16);
               ("_source", VStr "creality_ender3pro.def.json")]
              Ender3.f0_16 (VStr "0.12"))
    as [Hentry Hreturns].
  - reflexivity.
  - reflexivity.
  - reflexivity.
  - intros l' s' info' [].
  - reflexivity.
  - distinct_keys.
  - reflexivity.
  - destruct (Hreturns ender3_layers_plain) as (eff0 & Heff0).
    exact (Hentry eff0 Heff0).
Defined.

Lemma ender3_effective_settings :
  effective_settings Ender3.world Ender3.chain Ender3.definition_changes =
  Ok [("layer_height", layer_height_entry);
      ("machine_name",
       [("_sources", VList [VStr "creality_base"; VStr "creality_ender3pro"]);
        ("default_value", VStr "Creality Ender-3 Pro");
        ("_source", VStr "creality_ender3pro.def.json")])].
Proof. reflexivity. Qed.

(** C2 as stated fails for a default that a more specific layer
    replaces: [fdmprinter] defines [layer_height] with default 0.2, the
    definition changes override the key, and the merged entry has the
    default 0.16 of [creality_ender3pro]. *)
Lemma general_layer_default_is_replaced :
  ~ default_of_any_layer_kept Ender3.world Ender3.chain Ender3.definition_changes.
Proof.
  intros H.
  destruct (H {| name := VStr "fdmprinter";
                 file_of := "definitions/fdmprinter.def.json";
                 inherits := VNone |}
              [("layer_height",
                [("default_value", Ender3.f0_2); ("type", VStr "float");
                 ("description", VStr "The height of each layer in mm.");
                 ("unit", VStr "mm")])]
              "layer_height"
              [("default_value", Ender3.f0_2); ("type", VStr "float");
               ("description", VStr "The height of each layer in mm.");
               ("unit", VStr "mm")]
              Ender3.f0_2 [("layer_height", VStr "0.12")] (VStr "0.12"))
    as (eff & e & Heff & He & Hdefault & _).
  - cbn. auto.
  - reflexivity.
  - reflexivity.
  - reflexivity.
  - reflexivity.
  - reflexivity.
  - rewrite ender3_effective_settings in Heff. injection Heff as <-.
    cbn in He. injection He as <-. cbn in Hdefault. discriminate.
Qed.

(** [creality_base] does not define [layer_height], so the merge does not
    list it: the provenance of the example has three entries. *)
Lemma example_provenance_omits_silent_layer : ~ example_as_stated.
Proof.
  intros (eff & e & Heff & He & _ & _ & Hsrc).
  rewrite ender3_effective_settings in Heff. injection Heff as <-.
  cbn in He. injection He as <-. cbn in Hsrc. discriminate.
Qed.

(** C3, amended. On the example installation the machine extraction
    returns; the chain is [creality_ender3pro], [creality_base],
    [fdmprinter]; the entry of [layer_height] has default 0.16, effective
    value 0.12 (the text of the definition-changes file) and provenance
    [fdmprinter], [creality_ender3pro], [definition_changes]: the layer
    that does not mention the key is not listed. *)
Theorem example_layer_height :
  exists result eff e,
    _extract_machine Ender3.world 4 "Ender3Pro" = Some (Ok result) /\
    Dict.get "inheritance_chain" result = Some (VList (map link_value Ender3.chain)) /\
    Dict.get "effective_settings" result = Some (settings_value eff) /\
    Dict.get "layer_height" eff = Some e /\
    Dict.get "default_value" e = Some Ender3.f0_16 /\
    Dict.get "effective_value" e = Some (VStr "0.12") /\
    sources_of e =
    Some [VStr "fdmprinter"; VStr "creality_ender3pro"; VStr "definition_changes"].
Proof.
  eexists.
  exists [("layer_height", layer_height_entry);
          ("machine_name",
           [("_sources", VList [VStr "creality_base"; VStr "creality_ender3pro"]);
            ("default_value", VStr "Creality Ender-3 Pro");
            ("_source", VStr "creality_ender3pro.def.json")])].
  exists layer_height_entry.
  split; [vm_compute; reflexivity|].
  repeat split.
Qed.

(** ** The chain loop *)

Section ChainLoop.
Variable w : World.

Lemma parse_def_json_returns p : exists d, parse_def_json w p = Ok d.
Proof.
  unfold parse_def_json, json_load.
  destruct (json_fs w p); cbn; eauto.
Qed.

Lemma parse_cfg_file_returns p : exists d, parse_cfg_file w p = Ok d.
Proof.
  unfold parse_cfg_file, config_read.
  destruct (cfg_fs w p); cbn; eauto.
Qed.



(** More fuel does not change a loop that ended. *)
Lemma chain_loop_more_fuel fuel : forall id chain r,
  chain_loop w fuel id chain = Some r ->
  forall extra, chain_loop w (fuel + extra) id chain = Some r.
Proof.
  induction fuel as [|n IH]; intros id chain r Hrun extra; [discriminate|].
  cbn [chain_loop Nat.add] in *.
  destruct (truthy id); [|assumption].
  destruct (file_exists _); [|assumption].
  destruct (parse_def_json w _); [apply IH|assumption|assumption]. assumption.
Qed.

(** The loop is still running after any number of iterations from
    identifiers that all have a backing document and a parent. *)
Lemma chain_loop_runs_on (closed : value -> Prop) :
  (forall id, closed id ->
     truthy id = true /\
     file_exists (json_fs w (def_path w id)) = true /\
     forall d, parse_def_json w (def_path w id) = Ok d ->
               closed (get_or_none "inherits" d)) ->
  forall fuel id chain, closed id -> chain_loop w fuel id chain = None.
Proof.
  intros Hclosed. induction fuel as [|n IH]; intros id chain Hid; [reflexivity|].
  destruct (Hclosed id Hid) as (Htruthy & Hexists & Hnext).
  cbn [chain_loop]. rewrite Htruthy, Hexists.
  destruct (parse_def_json_returns (def_path w id)) as (d & Hd). rewrite Hd.
  apply IH. now apply Hnext.
Qed.

End ChainLoop.

Section Truncation.
Variable w : World.

(** C4, amended. The loop has no visited-identifier check: when every
    identifier reached from the start has a backing document and names a
    parent, as on a cycle, the loop is still running after any number of
    iterations; it does not end and reports no error. *)
Theorem chain_loop_never_leaves_cycle :
  forall (closed : value -> Prop) start,
    (forall id, closed id ->
       truthy id = true /\
       file_exists (json_fs w (def_path w id)) = true /\
       forall d, parse_def_json w (def_path w id) = Ok d ->
                 closed (get_or_none "inherits" d)) ->
    closed start ->
    (forall fuel, chain_loop w fuel start [] = None) /\ ~ loop_ends w start.
Proof.
  intros closed start Hclosed Hstart.
  assert (Hrun : forall fuel, chain_loop w fuel start [] = None).
  { intros fuel. now apply chain_loop_runs_on with (closed := closed). }
  split; [assumption|].
  intros (fuel & r & Hr). rewrite Hrun in Hr. discriminate.
Qed.


End Truncation.

Lemma cycle_closed :
  forall id, Cycle.on_cycle id ->
    truthy id = true /\
    file_exists (json_fs Cycle.world (def_path Cycle.world id)) = true /\
    forall d, parse_def_json Cycle.world (def_path Cycle.world id) = Ok d ->
              Cycle.on_cycle (get_or_none "inherits" d).
Proof.
  intros id [->| ->]; (split; [reflexivity|]; split; [reflexivity|]);
    intros d Hd; vm_compute in Hd; injection Hd as <-.
  - right. reflexivity.
  - left. reflexivity.
Defined.

Lemma chain_loop_never_leaves_cycle_witness :
  (forall fuel, chain_loop Cycle.world fuel (VStr "A") [] = None) /\
  ~ loop_ends Cycle.world (VStr "A").
Proof.
  exact (@chain_loop_never_leaves_cycle Cycle.world Cycle.on_cycle (VStr "A")
           cycle_closed (or_introl eq_refl)).
Defined.

(** C4 as stated fails: with A inheriting B and B inheriting A the loop
    does not end, with a cyclic-inheritance error or otherwise. *)
Lemma cycle_is_not_detected : ~ loop_ends Cycle.world (VStr "A").
Proof.
  intros (fuel & r & Hr).
  rewrite (@chain_loop_runs_on Cycle.world Cycle.on_cycle cycle_closed fuel
             (VStr "A") [] (or_introl eq_refl)) in Hr.
  discriminate.
Qed.




(** ** The document readers *)

Section Readers.
Variable w : World.

(** [parse_def_json] marks a file that is absent, cannot be opened or does
    not parse, and keeps the path annotation. *)
Lemma parse_def_json_marks_failure p :
  (forall data, json_fs w p <> Parsed data) ->
  exists msg,
    parse_def_json w p =
    Ok [("_filepath", VStr p); ("_filename", VStr (path_name w p));
        ("_error", VStr msg)].
Proof.
  intros Hbad. unfold parse_def_json, json_load, annotated.
  destruct (json_fs w p) as [|msg|msg|data]; cbn; eauto.
  now destruct (Hbad data).
Qed.

(** [parse_cfg_file] marks a file that is absent or does not parse. *)
Lemma parse_cfg_file_marks_failure p :
  cfg_fs w p = Absent \/ (exists msg, cfg_fs w p = ParseFails msg) ->
  exists msg,
    parse_cfg_file w p =
    Ok [("_filepath", VStr p); ("_filename", VStr (path_name w p));
        ("_error", VStr msg)].
Proof.
  unfold parse_cfg_file, config_read, annotated.
  intros [-> | (msg & ->)]; cbn; eauto.
Qed.

(** A file that exists and cannot be opened leaves [parse_cfg_file]
    without a marker: [config.read] skipped it. *)
Lemma parse_cfg_file_unopenable p msg :
  cfg_fs w p = OpenFails msg ->
  parse_cfg_file w p =
  Ok [("_filepath", VStr p); ("_filename", VStr (path_name w p))].
Proof.
  unfold parse_cfg_file, config_read, annotated. intros ->. reflexivity.
Qed.

End Readers.

(** C8 at its failing input. Neither reader raises, and the JSON reader
    marks the file it cannot open; the cfg reader returns the bare path
    annotation for such a file, with no [_error] in it. *)
Theorem unopenable_cfg_file_is_not_marked :
  parse_def_json Locked.world "definitions/locked.def.json" =
  Ok [("_filepath", VStr "definitions/locked.def.json");
      ("_filename", VStr "locked.def.json");
      ("_error", VStr "[Errno 13] Permission denied")] /\
  exists result,
    parse_cfg_file Locked.world "quality_changes/locked.inst.cfg" = Ok result /\
    result = [("_filepath", VStr "quality_changes/locked.inst.cfg");
              ("_filename", VStr "locked.inst.cfg")] /\
    Dict.get "_error" result = None.
Proof.
  split; [reflexivity|]. eexists. split; [reflexivity|]. split; reflexivity.
Qed.

(** ** The quick reference *)

Lemma key_setting_report def_changes effective key_settings setting :
  key_setting def_changes effective key_settings setting =
  (r <- report_of def_changes effective setting ;;
   Ok (match r with
       | Some v => Dict.set setting v key_settings
       | None => key_settings
       end)).
Proof.
  unfold key_setting, report_of.
  destruct (item_if_in setting def_changes) as [[v|]| |]; try reflexivity.
  cbn [bind].
  destruct (item_if_in setting effective) as [[info|]| |]; try reflexivity.
  cbn [bind].
  destruct (as_dict info) as [d| |]; try reflexivity. cbn [bind].
  destruct (reported_source d); reflexivity.
Qed.

(** The loop over distinct settings writes, for each, what its round
    reports. *)
Lemma key_settings_loop def_changes effective settings : forall acc,
  NoDup settings ->
  (forall s, In s settings -> exists r, report_of def_changes effective s = Ok r) ->
  exists ks,
    for_each (key_setting def_changes effective) settings acc = Ok ks /\
    (forall s, ~ In s settings -> Dict.get s ks = Dict.get s acc) /\
    (forall s r, In s settings -> report_of def_changes effective s = Ok r ->
                 Dict.get s ks = match r with
                                 | Some v => Some v
                                 | None => Dict.get s acc
                                 end).
Proof.
  induction settings as [|x rest IH]; intros acc Hnd Hok.
  - exists acc. cbn. repeat split; auto. intros s r [].
  - inversion Hnd as [|? ? Hnotin Hnd']; subst.
    destruct (Hok x (or_introl eq_refl)) as (rx & Hrx).
    cbn [for_each]. rewrite key_setting_report, Hrx. cbn [bind].
    set (acc1 := match rx with Some v => Dict.set x v acc | None => acc end).
    destruct (IH acc1 Hnd') as (ks & Hks & Hout & Hin).
    { intros s Hs. apply Hok. now right. }
    exists ks. split; [assumption|]. split.
    + intros s Hs. rewrite Hout by (intros H; apply Hs; now right).
      unfold acc1. destruct rx; [|reflexivity].
      apply DictFacts.get_set_other. intros ->. apply Hs. now left.
    + intros s r [<-|Hs] Hr.
      * rewrite Hrx in Hr. injection Hr as <-.
        rewrite Hout by assumption. unfold acc1.
        destruct rx; [apply DictFacts.get_set_same|reflexivity].
      * rewrite (Hin s r Hs Hr). destruct r; [reflexivity|].
        unfold acc1. destruct rx; [|reflexivity].
        apply DictFacts.get_set_other. intros ->. contradiction.
Qed.

Lemma IMPORTANT_SETTINGS_distinct : NoDup IMPORTANT_SETTINGS.
Proof.
  unfold IMPORTANT_SETTINGS.
  repeat (constructor; [cbn; intuition discriminate|]). constructor.
Qed.

(** C10, amended. For a setting of the list that the definition-changes
    values do not have and that has a merged entry, the quick reference
    shows [effective_value or value or default_value], so an
    [effective_value] that is falsy is passed over for the inherited value;
    a setting that the definition-changes values have is shown with that
    very value, falsy or not, and source [your_customizations]. *)
Theorem quick_reference_value :
  forall data machine effective definition_changes def_changes,
    Dict.get "machine" data = Some (VDict machine) ->
    Dict.get "effective_settings" machine = Some (VDict effective) ->
    Dict.get "definition_changes" machine = Some (VDict definition_changes) ->
    values_of definition_changes = VDict def_changes ->
    (forall s v, In s IMPORTANT_SETTINGS -> Dict.get s def_changes = None ->
                 Dict.get s effective = Some v ->
                 exists info src, v = VDict info /\ reported_source info = Ok src) ->
    exists key_settings,
      extract_key_settings data = Ok key_settings /\
      forall setting, In setting IMPORTANT_SETTINGS ->
        match Dict.get setting def_changes with
        | Some v =>
            Dict.get setting key_settings =
            Some (VDict [("value", v); ("source", VStr "your_customizations")]) /\
            reported data setting = Some v
        | None =>
            forall info, Dict.get setting effective = Some (VDict info) ->
              reported data setting = Some (reported_value info) /\
              (truthy (get_or_none "effective_value" info) = false ->
               reported_value info =
               py_or (get_or_none "value" info) (get_or_none "default_value" info))
        end.
Proof.
  intros data machine effective dcs def_changes Hm He Hd Hv Hinfo.
  assert (Hrun : extract_key_settings data =
                 for_each (key_setting (VDict def_changes) (VDict effective))
                          IMPORTANT_SETTINGS []).
  { unfold extract_key_settings. rewrite Hm. cbn [dict_get_default].
    rewrite He, Hd. cbn [bind dict_get_default].
    unfold values_of in Hv. rewrite Hv. reflexivity. }
  destruct (@key_settings_loop (VDict def_changes) (VDict effective)
              IMPORTANT_SETTINGS [] IMPORTANT_SETTINGS_distinct)
    as (ks & Hks & _ & Hin).
  { intros s Hs. unfold report_of. cbn [item_if_in bind].
    destruct (Dict.get s def_changes) eqn:Edc; [eauto|].
    destruct (Dict.get s effective) as [v|] eqn:Eeff; [|eauto].
    destruct (Hinfo s v Hs Edc Eeff) as (info & src & -> & Hsrc).
    cbn [as_dict bind]. rewrite Hsrc. cbn [bind]. eauto. }
  exists ks. split; [now rewrite Hrun|].
  intros setting Hs. unfold reported. rewrite Hrun, Hks.
  destruct (Dict.get setting def_changes) as [v|] eqn:Edc.
  - assert (Hr : report_of (VDict def_changes) (VDict effective) setting =
                 Ok (Some (VDict [("value", v);
                                  ("source", VStr "your_customizations")]))).
    { unfold report_of. cbn [item_if_in bind]. now rewrite Edc. }
    rewrite (Hin _ _ Hs Hr). split; reflexivity.
  - intros info Heff.
    destruct (Hinfo setting _ Hs Edc Heff) as (info' & src & Heq & Hsrc).
    injection Heq as <-.
    assert (Hr : report_of (VDict def_changes) (VDict effective) setting =
                 Ok (Some (VDict [("value", reported_value info);
                                  ("source", src)]))).
    { unfold report_of. cbn [item_if_in bind]. rewrite Edc, Heff.
      cbn [as_dict bind]. now rewrite Hsrc. }
    rewrite (Hin _ _ Hs Hr). split; [reflexivity|].
    intros Hfalsy. unfold reported_value, py_or at 1. now rewrite Hfalsy.
Qed.

Lemma stock_effective_is_the_merge :
  effective_settings Ender3.world Ender3.chain [] = Ok Stock.effective.
Proof. reflexivity. Qed.

Lemma quick_reference_value_witness :
  exists key_settings,
    extract_key_settings Stock.data = Ok key_settings /\
    reported Stock.data "layer_height" = Some Ender3.f0_16.
Proof.
  destruct (@quick_reference_value Stock.data Stock.machine
              (map (fun kv => (fst kv, VDict (snd kv))) Stock.effective) [] [])
    as (ks & Hks & Hall).
  - reflexivity.
  - reflexivity.
  - reflexivity.
  - reflexivity.
  - intros s v _ _ Hget. unfold Stock.effective in Hget.
    cbn [map fst snd Dict.get] in Hget.
    destruct (String.eqb "layer_height" s).
    + injection Hget as <-. eexists. eexists. split; reflexivity.
    + destruct (String.eqb "machine_name" s); [|discriminate].
      injection Hget as <-. eexists. eexists. split; reflexivity.
  - exists ks. split; [assumption|].
    exact (proj1 (Hall "layer_height" (or_introl eq_refl) _ eq_refl)).
Defined.

(** C10 as stated fails: with [layer_height] set to the empty text in
    the definition changes, the merged [effective_value] is falsy, and the
    quick reference still shows the customization, not the inherited
    default 0.16. *)
Lemma empty_customization_is_reported :
  ~ falsy_effective_value_skipped Blank.data.
Proof.
  intros H.
  specialize (H "layer_height" _ (VStr "") (or_introl eq_refl) eq_refl eq_refl
                eq_refl).
  vm_compute in H. discriminate.
Qed.

(** ** Custom quality profiles *)

Section QualityFacts.
Variable w : World.

Lemma cfg_shaped_set k v cfg :
  cfg_shaped cfg ->
  (exists options, v = section_dict options) \/
  ((k = "_filepath" \/ k = "_filename" \/ k = "_error") /\ exists t, v = VStr t) ->
  cfg_shaped (Dict.set k v cfg).
Proof.
  intros Hcfg Hv k' v'. rewrite DictFacts.get_set.
  destruct (String.eqb k k') eqn:E; [|apply Hcfg].
  apply String.eqb_eq in E. subst k'. now intros [= <-].
Qed.

Lemma annotated_shaped f : cfg_shaped (annotated w f).
Proof.
  intros k v. unfold annotated. cbn [Dict.get].
  destruct (String.eqb "_filepath" k) eqn:E1.
  - apply String.eqb_eq in E1. intros [= <-]. right. eauto.
  - destruct (String.eqb "_filename" k) eqn:E2; [|discriminate].
    apply String.eqb_eq in E2. intros [= <-]. right. eauto.
Qed.

Lemma parse_cfg_file_shaped f :
  exists cfg, parse_cfg_file w f = Ok cfg /\ cfg_shaped cfg.
Proof.
  pose proof (annotated_shaped f) as Hann.
  assert (Herr : forall msg, cfg_shaped (Dict.set "_error" (VStr msg) (annotated w f))).
  { intros msg. apply cfg_shaped_set; [assumption|]. right. eauto. }
  unfold parse_cfg_file, config_read.
  destruct (cfg_fs w f) as [|msg|msg|sections]; cbn;
    (eexists; split; [reflexivity|]); try apply Herr; try exact Hann.
  generalize (annotated w f) Hann.
  induction sections as [|[section options] rest IH]; intros acc Hacc; [assumption|].
  cbn [fold_left fst snd]. apply IH. apply cfg_shaped_set; eauto.
Qed.

(** The value of an option of a section is text. *)
Lemma section_dict_text options k v d :
  section_dict options = VDict d -> Dict.get k d = Some v -> exists t, v = VStr t.
Proof.
  unfold section_dict, Dict.of_items, Dict.update. intros [= <-].
  assert (Hgen : forall acc : dict value,
             (forall k v, Dict.get k acc = Some v -> exists t, v = VStr t) ->
             forall k v,
               Dict.get k
                 (fold_left (fun a kv => Dict.set (fst kv) (snd kv) a)
                    (map (fun kv => (fst kv, VStr (snd kv))) options) acc) = Some v ->
               exists t, v = VStr t).
  { induction options as [|[o t] rest IH]; intros acc Hacc; [assumption|].
    cbn [map fold_left fst snd]. apply IH.
    intros k0 v0. rewrite DictFacts.get_set.
    destruct (String.eqb o k0); [intros [= <-]; eauto|apply Hacc]. }
  apply Hgen. intros k0 v0 H0. discriminate.
Qed.

Lemma section_dict_distinct options d :
  section_dict options = VDict d -> NoDup (Dict.keys d).
Proof.
  unfold section_dict, Dict.of_items. intros [= <-].
  apply DictFacts.nodup_update. constructor.
Qed.

Lemma file_values_distinct f : NoDup (Dict.keys (file_values w f)).
Proof.
  unfold file_values, cfg_of.
  destruct (parse_cfg_file_shaped f) as (cfg & -> & Hshape).
  destruct (Dict.get "values" cfg) as [v|] eqn:E; [|constructor].
  destruct (Hshape _ _ E) as [(options & ->)|([H|[H|H]] & _)]; try discriminate.
  unfold section_dict. apply DictFacts.nodup_update. constructor.
Qed.

(** One round of the aggregation always returns. *)
Lemma add_quality_file_absorbs result f :
  add_quality_file w result f =
  Ok (Dict.set (profile_name w f)
               (absorb w (profile_or_new (profile_name w f) result) f) result).
Proof.
  unfold add_quality_file, absorb, profile_or_new, new_profile, profile_name,
    file_values, cfg_of.
  destruct (parse_cfg_file_shaped f) as (cfg & -> & Hshape). cbn [bind dict_get_default].
  assert (Hvalues : forall base,
             match Dict.get "values" cfg with
             | Some values => update_from base values
             | None => Ok base
             end =
             Ok (Dict.update base
                   match Dict.get "values" cfg with
                   | Some (VDict values) => values
                   | _ => []
                   end)).
  { intros base. destruct (Dict.get "values" cfg) as [v|] eqn:E; [|reflexivity].
    destruct (Hshape _ _ E) as [(options & ->)|([H|[H|H]] & _)]; try discriminate.
    reflexivity. }
  destruct (Dict.get "general" cfg) as [g|] eqn:Eg.
  - destruct (Hshape _ _ Eg) as [(options & ->)|([H|[H|H]] & _)]; try discriminate.
    unfold section_dict. cbn [dict_get_default bind].
    destruct (Dict.get "name" _) as [nv|] eqn:En.
    + destruct (@section_dict_text options "name" nv _ eq_refl En) as (t & ->).
      rewrite Hvalues. reflexivity.
    + rewrite Hvalues. reflexivity.
  - cbn [dict_get_default bind Dict.get]. rewrite Hvalues. reflexivity.
Qed.

(** The aggregation gives each profile its files in listing order, each
    absorbed in turn. *)
Lemma aggregate_by_name listing : forall acc,
  exists result,
    for_each (add_quality_file w) listing acc = Ok result /\
    forall n,
      Dict.get n result =
      match declaring w n listing with
      | [] => Dict.get n acc
      | fs => Some (fold_left (absorb w) fs (profile_or_new n acc))
      end.
Proof.
  induction listing as [|f rest IH]; intros acc.
  - exists acc. split; reflexivity.
  - cbn [for_each]. rewrite add_quality_file_absorbs. cbn [bind].
    destruct (IH (Dict.set (profile_name w f)
                    (absorb w (profile_or_new (profile_name w f) acc) f) acc))
      as (result & Hrun & Hget).
    exists result. split; [assumption|].
    intros n. rewrite Hget. unfold declaring. cbn [filter].
    destruct (String.eqb (profile_name w f) n) eqn:E.
    + apply String.eqb_eq in E. subst n.
      destruct (filter _ rest) as [|g fs]; cbn [fold_left];
        unfold profile_or_new; rewrite ?DictFacts.get_set_same; reflexivity.
    + apply String.eqb_neq in E. unfold profile_or_new.
      rewrite DictFacts.get_set_other by assumption. reflexivity.
Qed.

End QualityFacts.

Section QualityMerge.
Variable w : World.

(** C9, amended. When the directory scan yields two files that declare
    profile [n], [f1] before [f2], the aggregation returns one profile for
    [n] built from both: its keys are the union of the two files' keys, a
    key that [f2] sets has the value of [f2], and a key that only [f1] sets
    has the value of [f1]. The later file is the one the scan yields later;
    the code sets no order of its own. *)
Theorem same_name_files_merge_in_listing_order :
  forall listing n f1 f2,
    glob_quality_changes w = Some listing ->
    declaring w n listing = [f1; f2] ->
    exists result p,
      _extract_custom_qualities w = Ok result /\
      Dict.get n result = Some p /\
      files p = [f1; f2] /\
      (forall k,
          In k (Dict.keys (settings p)) <->
          In k (Dict.keys (file_values w f1)) \/
          In k (Dict.keys (file_values w f2))) /\
      (forall k v,
          Dict.get k (file_values w f2) = Some v ->
          Dict.get k (settings p) = Some v) /\
      (forall k,
          Dict.get k (file_values w f2) = None ->
          Dict.get k (settings p) = Dict.get k (file_values w f1)).
Proof.
  intros listing n f1 f2 Hglob Hdecl.
  destruct (@aggregate_by_name w listing []) as (result & Hrun & Hget).
  specialize (Hget n). rewrite Hdecl in Hget. cbn [fold_left] in Hget.
  unfold _extract_custom_qualities. rewrite Hglob.
  exists result. eexists. split; [exact Hrun|]. split; [exact Hget|].
  cbn [absorb files settings profile_or_new Dict.get new_profile app].
  split; [reflexivity|].
  pose proof (file_values_distinct w f1) as Hnd1.
  pose proof (file_values_distinct w f2) as Hnd2.
  assert (Hfirst : forall k,
             Dict.get k (Dict.update [] (file_values w f1)) =
             Dict.get k (file_values w f1)).
  { intros k. rewrite DictFacts.get_update by assumption.
    now destruct (Dict.get k (file_values w f1)). }
  split; [|split].
  - intros k. rewrite !DictFacts.in_keys_update. cbn. tauto.
  - intros k v Hv. now apply DictFacts.get_update_present.
  - intros k Hk. rewrite DictFacts.get_update by assumption.
    rewrite Hk. apply Hfirst.
Qed.

End QualityMerge.

(** The same two files, scanned in the two possible orders, give profile
    [Fine] two different values of [layer_height]: the processing order is
    the order of the scan. *)
Lemma scan_order_decides_collisions :
  cfg_fs Pair.global_first = cfg_fs Pair.extruder_first /\
  Permutation ["quality_changes/fine.inst.cfg";
               "quality_changes/fine_extruder.inst.cfg"]
              ["quality_changes/fine_extruder.inst.cfg";
               "quality_changes/fine.inst.cfg"] /\
  ~ same_profile_settings Pair.global_first Pair.extruder_first.
Proof.
  split; [reflexivity|]. split; [apply perm_swap|].
  intros H.
  specialize (H _ _ "Fine" _ _ eq_refl eq_refl eq_refl eq_refl "layer_height").
  vm_compute in H. discriminate.
Qed.

Lemma same_name_files_merge_in_listing_order_witness :
  exists result p,
    _extract_custom_qualities Pair.global_first = Ok result /\
    Dict.get "Fine" result = Some p /\
    files p = ["quality_changes/fine.inst.cfg";
               "quality_changes/fine_extruder.inst.cfg"] /\
    Dict.get "layer_height" (settings p) = Some (VStr "0.2") /\
    Dict.get "infill_sparse_density" (settings p) = Some (VStr "20").
Proof.
  destruct (@same_name_files_merge_in_listing_order Pair.global_first
              ["quality_changes/fine.inst.cfg";
               "quality_changes/fine_extruder.inst.cfg"]
              "Fine" "quality_changes/fine.inst.cfg"
              "quality_changes/fine_extruder.inst.cfg" eq_refl eq_refl)
    as (result & p & Hrun & Hget & Hfiles & _ & Hlater & Hearlier).
  exists result, p. split; [assumption|]. split; [assumption|].
  split; [assumption|]. split.
  - apply Hlater. reflexivity.
  - rewrite Hearlier; reflexivity.
Defined.

(** * Further properties *)

(** ** Readers *)

Lemma fold_set_is_update {A B} (g : A -> string * B) xs : forall acc,
  fold_left (fun r x => Dict.set (fst (g x)) (snd (g x)) r) xs acc =
  Dict.update acc (map g xs).
Proof.
  unfold Dict.update.
  induction xs as [|x r IH]; intros acc; [reflexivity|]. cbn [fold_left map]. apply IH.
Qed.

(** X1. A definition file that parses is returned whole: every member of
    its root object is in the result with its value, the two path
    annotations are there unless the document has members of those names,
    and no [_error] is added. *)
Theorem parse_def_json_keeps_members :
  forall w p data,
    json_fs w p = Parsed data ->
    NoDup (Dict.keys data) ->
    exists result,
      parse_def_json w p = Ok result /\
      (forall k v, Dict.get k data = Some v -> Dict.get k result = Some v) /\
      (Dict.get "_filepath" data = None ->
       Dict.get "_filepath" result = Some (VStr p)) /\
      (Dict.get "_filename" data = None ->
       Dict.get "_filename" result = Some (VStr (path_name w p))) /\
      Dict.get "_error" result = Dict.get "_error" data.
Proof.
  intros w p data Hfile Hnd.
  exists (Dict.update (annotated w p) data).
  split.
  { unfold parse_def_json, json_load. rewrite Hfile. reflexivity. }
  split; [|split; [|split]].
  - intros k v Hk. now apply DictFacts.get_update_present.
  - intros Hk. rewrite DictFacts.get_update, Hk by assumption. reflexivity.
  - intros Hk. rewrite DictFacts.get_update, Hk by assumption. reflexivity.
  - rewrite DictFacts.get_update by assumption.
    now destruct (Dict.get "_error" data).
Qed.

Lemma parse_def_json_keeps_members_witness :
  exists result,
    parse_def_json Ender3.world "definitions/creality_base.def.json" = Ok result /\
    Dict.get "inherits" result = Some (VStr "fdmprinter") /\
    Dict.get "_filename" result = Some (VStr "creality_base.def.json") /\
    Dict.get "_error" result = None.
Proof.
  destruct (@parse_def_json_keeps_members Ender3.world
              "definitions/creality_base.def.json" Ender3.creality_base eq_refl)
    as (result & Hrun & Hmem & _ & Hname & Herr).
  - distinct_keys.
  - exists result. split; [assumption|]. split; [apply Hmem; reflexivity|].
    split; [apply Hname; reflexivity|]. rewrite Herr. reflexivity.
Defined.

(** X2. A cfg file that parses gives one dict per section: each section
    name maps to the dict of its options, every option to its text, and
    there is no [_error] unless a section has that name. *)
Theorem parse_cfg_file_sections :
  forall w p sections,
    cfg_fs w p = Parsed sections ->
    NoDup (map fst sections) ->
    exists result,
      parse_cfg_file w p = Ok result /\
      (forall s options,
          In (s, options) sections ->
          exists d,
            Dict.get s result = Some (VDict d) /\
            NoDup (Dict.keys d) /\
            (NoDup (map fst options) ->
             forall o t, In (o, t) options -> Dict.get o d = Some (VStr t))) /\
      (~ In "_error" (map fst sections) -> Dict.get "_error" result = None).
Proof.
  intros w p sections Hfile Hnd.
  set (as_items := map (fun sec : string * list (string * string) =>
                          (fst sec, section_dict (snd sec))) sections).
  assert (Hkeys : Dict.keys as_items = map fst sections).
  { unfold as_items, Dict.keys. rewrite map_map. reflexivity. }
  exists (Dict.update (annotated w p) as_items). split.
  { unfold parse_cfg_file, config_read. rewrite Hfile. cbn [file_exists negb try_except bind].
    f_equal.
    exact (fold_set_is_update
             (fun sec : string * list (string * string) =>
                (fst sec, section_dict (snd sec))) sections (annotated w p)). }
  split.
  - intros s options Hin.
    exists (Dict.of_items (map (fun kv => (fst kv, VStr (snd kv))) options)).
    split; [|split].
    + apply DictFacts.get_update_present; [now rewrite Hkeys|].
      apply DictFacts.in_get_nodup; [now rewrite Hkeys|].
      unfold as_items.
      exact (in_map (fun sec : string * list (string * string) =>
                       (fst sec, section_dict (snd sec))) _ _ Hin).
    + apply DictFacts.nodup_update. constructor.
    + intros Hopts o t Hot. unfold Dict.of_items.
      apply DictFacts.get_update_present.
      * unfold Dict.keys. rewrite map_map. exact Hopts.
      * apply DictFacts.in_get_nodup.
        -- unfold Dict.keys. rewrite map_map. exact Hopts.
        -- exact (in_map (fun kv : string * string => (fst kv, VStr (snd kv)))
                         _ _ Hot).
  - intros Hno. rewrite DictFacts.get_update_absent by now rewrite Hkeys.
    reflexivity.
Qed.

Lemma parse_cfg_file_sections_witness :
  exists result d,
    parse_cfg_file Ender3.world "machine_instances/Ender3Pro.global.cfg" = Ok result /\
    Dict.get "containers" result = Some (VDict d) /\
    Dict.get "7" d = Some (VStr "creality_ender3pro") /\
    Dict.get "_error" result = None.
Proof.
  destruct (@parse_cfg_file_sections Ender3.world
              "machine_instances/Ender3Pro.global.cfg" Ender3.machine_instance
              eq_refl) as (result & Hrun & Hsec & Herr).
  - distinct_keys.
  - destruct (Hsec "containers"
                [("0", "Ender3Pro_user"); ("6", "Ender3Pro_settings");
                 ("7", "creality_ender3pro")]) as (d & Hd & _ & Hopt).
    { cbn. auto. }
    exists result, d. split; [assumption|]. split; [assumption|]. split.
    + apply Hopt; [distinct_keys|cbn; auto].
    + apply Herr. cbn. intuition discriminate.
Defined.

(** ** The tree walker, further *)

Lemma allow_listed_fold (node : dict value) props : forall (acc : dict value) p,
  NoDup props ->
  Dict.get p
    (fold_left
       (fun setting_info prop =>
          match Dict.get prop node with
          | Some v => Dict.set prop v setting_info
          | None => setting_info
          end) props acc) =
  if existsb (String.eqb p) props
  then match Dict.get p node with Some v => Some v | None => Dict.get p acc end
  else Dict.get p acc.
Proof.
  induction props as [|q r IH]; intros acc p Hnd; [reflexivity|].
  inversion Hnd as [|? ? Hnotin Hnd']; subst.
  cbn [fold_left existsb]. rewrite IH by assumption.
  destruct (String.eqb p q) eqn:E.
  - apply String.eqb_eq in E. subst q.
    assert (Hr : existsb (String.eqb p) r = false).
    { destruct (existsb (String.eqb p) r) eqn:Er; [|reflexivity].
      apply existsb_exists in Er. destruct Er as (x & Hx & Hpx).
      apply String.eqb_eq in Hpx. subst x. contradiction. }
    rewrite Hr. cbn [orb].
    destruct (Dict.get p node); [apply DictFacts.get_set_same|reflexivity].
  - cbn [orb]. apply String.eqb_neq in E.
    destruct (existsb (String.eqb p) r).
    + destruct (Dict.get p node); [reflexivity|].
      destruct (Dict.get q node); [|reflexivity].
      apply DictFacts.get_set_other. congruence.
    + destruct (Dict.get q node); [|reflexivity].
      apply DictFacts.get_set_other. congruence.
Qed.

Lemma PROPS_distinct : NoDup PROPS.
Proof. unfold PROPS. distinct_keys. Qed.

(** The info of a node has exactly the allow-listed fields the node has. *)
Lemma setting_info_get node p :
  Dict.get p (setting_info_of node) =
  if existsb (String.eqb p) PROPS then Dict.get p node else None.
Proof.
  unfold setting_info_of. rewrite allow_listed_fold by apply PROPS_distinct.
  destruct (existsb (String.eqb p) PROPS); [|reflexivity].
  now destruct (Dict.get p node).
Qed.

Lemma setting_info_fields node field :
  In field (Dict.keys (setting_info_of node)) -> In field PROPS.
Proof.
  intros Hin. destruct (DictFacts.in_keys_get _ _ Hin) as (v & Hv).
  rewrite setting_info_get in Hv.
  destruct (existsb (String.eqb field) PROPS) eqn:E; [|discriminate].
  apply existsb_exists in E. destruct E as (x & Hx & Hfx).
  apply String.eqb_eq in Hfx. now subst x.
Qed.

(** As [recurse_invariant], knowing that what is stored comes from a
    node that is a setting. *)
Lemma recurse_invariant_setting (P : settings_map -> Prop) :
  (forall path node s,
      is_setting node = true -> P s -> P (Dict.set path (setting_info_of node) s)) ->
  forall node path s s', recurse node path s = Ok s' -> P s -> P s'.
Proof.
  intros Hset node.
  induction node as [v Hv|d IH] using walk_ind; intros path s s' Hrun HP.
  - now rewrite (recurse_leaf _ _ Hv Hrun).
  - rewrite recurse_dict in Hrun. bind_inv Hrun. injection Hrun as <-.
    assert (Ha : P a).
    { destruct (Dict.get "children" d) as [c|] eqn:Ec.
      - bind_inv Hrun0. destruct c; try discriminate. injection Hrun as <-.
        apply DictFacts.get_in in Ec. specialize (IH _ _ Ec).
        unfold recurse_items in Hrun0. revert HP Hrun0.
        apply for_each_invariant.
        intros acc [key child] acc' Hin Hacc Hstep.
        rewrite Forall_forall in IH. exact (IH _ Hin _ _ _ Hstep Hacc).
      - now injection Hrun0 as <-. }
    unfold record_setting.
    destruct (is_setting d) eqn:Es; [|assumption].
    destruct (truthy _); [|assumption]. now apply Hset.
Qed.

Lemma walk_settings_invariant_setting (P : settings_map -> Prop) def_data s :
  (forall path node s,
      is_setting node = true -> P s -> P (Dict.set path (setting_info_of node) s)) ->
  P [] -> walk_settings def_data = Ok s -> P s.
Proof.
  intros Hset Hnil. unfold walk_settings.
  destruct (Dict.get "settings" def_data) as [tree|]; intros Hrun.
  - bind_inv Hrun. unfold recurse_items in Hrun. revert Hnil Hrun.
    apply for_each_invariant.
    intros acc [key child] acc' _ Hacc Hstep.
    exact (recurse_invariant_setting P Hset _ _ _ Hstep Hacc).
  - now injection Hrun as <-.
Qed.

(** Every entry the tree walk stores is the info of a setting node. *)
Lemma walk_settings_entries def_data tree :
  walk_settings def_data = Ok tree ->
  forall K e, Dict.get K tree = Some e ->
  exists node, is_setting node = true /\ e = setting_info_of node.
Proof.
  intros Hwalk.
  refine (@walk_settings_invariant_setting
            (fun s => forall K e, Dict.get K s = Some e ->
                      exists node, is_setting node = true /\ e = setting_info_of node)
            def_data tree _ _ Hwalk).
  - intros path node s Hnode Hs K e. rewrite DictFacts.get_set.
    destruct (String.eqb path K); [|apply Hs].
    intros [= <-]. eauto.
  - intros K e H. discriminate.
Qed.

(** X3. What the settings tree contributes is filtered: every field of
    an entry is one of the eleven allow-listed properties (so [label],
    [children] or a [_source] of the file never get in), and every entry
    has a [type], which is not ["category"]. *)
Theorem tree_entries_are_allow_listed :
  forall def_data tree K e,
    walk_settings def_data = Ok tree ->
    Dict.get K tree = Some e ->
    (forall field, In field (Dict.keys e) -> In field PROPS) /\
    exists t, Dict.get "type" e = Some t /\ eq_str t "category" = false.
Proof.
  intros def_data tree K e Hwalk Hget.
  destruct (walk_settings_entries _ Hwalk _ Hget) as (node & Hnode & ->).
  split; [intros field; apply setting_info_fields|].
  rewrite setting_info_get. cbn [existsb PROPS String.eqb Ascii.eqb Bool.eqb orb].
  unfold is_setting in Hnode.
  destruct (Dict.get "type" node) as [t|]; [|discriminate].
  exists t. split; [reflexivity|].
  now destruct (eq_str t "category").
Qed.

Lemma tree_entries_are_allow_listed_witness :
  (forall field,
      In field (Dict.keys [("default_value", Ender3.f0_2); ("type", VStr "float");
                           ("unit", VStr "mm")]) ->
      In field PROPS) /\
  exists t,
    Dict.get "type" [("default_value", Ender3.f0_2); ("type", VStr "float");
                     ("unit", VStr "mm")] = Some t /\
    eq_str t "category" = false.
Proof.
  exact (@tree_entries_are_allow_listed Ender3.standalone
           [("layer_height",
             [("default_value", Ender3.f0_2); ("type", VStr "float");
              ("unit", VStr "mm")])]
           "layer_height" _ eq_refl eq_refl).
Defined.

(** A key of the items of a keyed loop ends with an entry the loop wrote. *)
Lemma keyed_touched {V} (f : string -> V -> option (dict value) -> exc (dict value))
    items : forall acc acc' K,
  for_each (keyed_step f) items acc = Ok acc' ->
  In K (Dict.keys items) ->
  exists v o e, In (K, v) items /\ f K v o = Ok e /\ Dict.get K acc' = Some e.
Proof.
  induction items as [|[k v] r IH]; intros acc acc' K Hrun Hin; [destruct Hin|].
  cbn [for_each] in Hrun. bind_inv Hrun.
  pose proof Hrun0 as Hstep. unfold keyed_step in Hstep. bind_inv Hstep.
  injection Hstep as <-. cbn [fst snd] in *.
  destruct (in_dec string_dec K (Dict.keys r)) as [Hr|Hr].
  - destruct (IH _ _ _ Hrun Hr) as (v' & o & e & Hv' & Hf & Hget).
    exists v', o, e. split; [now right|auto].
  - destruct Hin as [Heq|Hin]; [|contradiction]. cbn in Heq. subst K.
    exists v, (Dict.get k acc), a0. split; [now left|]. split; [assumption|].
    rewrite (@keyed_get_absent _ _ _ _ _ Hrun k Hr).
    apply DictFacts.get_set_same.
Qed.

(** X4. The [_source] tag marks the overridden keys and only them: an
    entry of the walker's result has a [_source] field exactly when its key
    is in the document's [overrides]. *)
Theorem source_tag_marks_overrides :
  forall def_data out K e,
    extract_settings_from_def def_data = Ok out ->
    Dict.get K out = Some e ->
    (In "_source" (Dict.keys e) <-> In K (Dict.keys (overrides_of def_data))).
Proof.
  intros def_data out K e Hrun Hget.
  unfold extract_settings_from_def in Hrun. bind_inv Hrun. rename a into tree.
  assert (Htree : forall e0, Dict.get K tree = Some e0 ->
                             ~ In "_source" (Dict.keys e0)).
  { intros e0 He0 Hin.
    destruct (walk_settings_entries _ Hrun0 _ He0) as (node & _ & ->).
    apply setting_info_fields in Hin. cbn in Hin. intuition discriminate. }
  unfold overrides_of.
  destruct (Dict.get "overrides" def_data) as [ovs_v|].
  - bind_inv Hrun. destruct ovs_v as [| | | | | |ovs]; try discriminate.
    injection Hrun1 as <-. rewrite apply_override_keyed in Hrun.
    destruct (in_dec string_dec K (Dict.keys ovs)) as [Hin|Hnot].
    + destruct (@keyed_touched _ _ _ _ _ K Hrun Hin) as (v & o & e' & _ & Hf & Hget').
      rewrite Hget in Hget'. injection Hget' as <-.
      unfold override_entry in Hf. bind_inv Hf. injection Hf as <-.
      split; [auto|]. intros _. apply DictFacts.in_keys_set. now left.
    + rewrite (@keyed_get_absent _ _ _ _ _ Hrun K Hnot) in Hget.
      split; [|contradiction]. intros Hsrc. now destruct (Htree _ Hget).
  - injection Hrun as <-. split; [|intros []].
    intros Hsrc. now destruct (Htree _ Hget).
Qed.

Lemma source_tag_marks_overrides_witness :
  In "_source"
     (Dict.keys [("default_value", Ender3.f0_16); ("type", VStr "float");
                 ("unit", VStr "mm"); ("maximum_value", VInt 1);
                 ("_source", VStr "standalone.def.json")]) <->
  In "layer_height" (Dict.keys (overrides_of Ender3.standalone)).
Proof.
  exact (@source_tag_marks_overrides Ender3.standalone
           [("layer_height",
             [("default_value", Ender3.f0_16); ("type", VStr "float");
              ("unit", VStr "mm"); ("maximum_value", VInt 1);
              ("_source", VStr "standalone.def.json")])]
           "layer_height" _ eq_refl eq_refl).
Defined.

Lemma recurse_keeps_key k node path s s' :
  recurse node path s = Ok s' -> In k (Dict.keys s) -> In k (Dict.keys s').
Proof.
  intros Hrun Hin.
  refine (@recurse_invariant (fun s => In k (Dict.keys s)) _ node path s s' Hrun Hin).
  intros p n s0 H. apply DictFacts.in_keys_set. now right.
Qed.

Lemma recurse_items_keeps_key k items s s' :
  recurse_items items s = Ok s' -> In k (Dict.keys s) -> In k (Dict.keys s').
Proof.
  unfold recurse_items. intros Hrun Hin.
  refine (@for_each_invariant _ _ _ (fun s => In k (Dict.keys s)) items _ s s'
            Hin Hrun).
  intros acc [key child] acc' _ Hacc Hstep.
  exact (@recurse_keeps_key k _ _ _ _ Hstep Hacc).
Qed.

Lemma setting_is_recorded node path s :
  is_setting node = true -> In path (Dict.keys (record_setting node path s)).
Proof.
  intros Hnode. unfold record_setting. rewrite Hnode.
  assert (Htype : Dict.get "type" (setting_info_of node) <> None).
  { rewrite setting_info_get. cbn [existsb PROPS String.eqb Ascii.eqb Bool.eqb orb].
    unfold is_setting in Hnode. now destruct (Dict.get "type" node). }
  destruct (setting_info_of node) as [|kv r] eqn:E; [now destruct Htype|].
  cbn [truthy]. apply DictFacts.in_keys_set. now left.
Qed.

Lemma record_setting_keeps_key k node path s :
  In k (Dict.keys s) -> In k (Dict.keys (record_setting node path s)).
Proof.
  intros Hin. unfold record_setting.
  destruct (is_setting node); [|assumption].
  destruct (truthy _); [|assumption].
  apply DictFacts.in_keys_set. now right.
Qed.

Lemma recurse_items_finds items k node :
  in_tree items k node ->
  is_setting node = true ->
  forall s s', recurse_items items s = Ok s' -> In k (Dict.keys s').
Proof.
  induction 1 as [items k node Hin|items k0 node0 cs k node Hin Hcs _ IH];
    intros Hnode s s' Hrun;
    apply in_split in Hin; destruct Hin as (pre & post & ->);
    unfold recurse_items in Hrun; rewrite for_each_app in Hrun; bind_inv Hrun;
    cbn [for_each fst snd] in Hrun; bind_inv Hrun;
    apply (@recurse_items_keeps_key k post _ _ Hrun);
    rewrite recurse_dict in Hrun1; bind_inv Hrun1; injection Hrun1 as <-.
  - now apply setting_is_recorded.
  - apply record_setting_keeps_key.
    rewrite Hcs in Hrun2. cbn [as_dict bind] in Hrun2.
    exact (IH Hnode _ _ Hrun2).
Qed.

(** X5. No setting of the tree is dropped, whatever its depth: a node
    with a [type] other than ["category"], found under the categories
    directly or through any number of [children] levels, has its own key
    in the walker's result. *)
Theorem no_setting_of_the_tree_is_dropped :
  forall def_data categories out k node,
    Dict.get "settings" def_data = Some (VDict categories) ->
    in_tree categories k node ->
    is_setting node = true ->
    extract_settings_from_def def_data = Ok out ->
    In k (Dict.keys out).
Proof.
  intros def_data categories out k node Hcats Htree Hnode Hrun.
  unfold extract_settings_from_def in Hrun. bind_inv Hrun. rename a into tree.
  assert (Hin : In k (Dict.keys tree)).
  { unfold walk_settings in Hrun0. rewrite Hcats in Hrun0.
    cbn [as_dict bind] in Hrun0.
    exact (recurse_items_finds Htree Hnode _ Hrun0). }
  destruct (Dict.get "overrides" def_data) as [ovs_v|].
  - bind_inv Hrun. rewrite apply_override_keyed in Hrun.
    apply (@keyed_keys _ _ _ _ _ Hrun k). now left.
  - now injection Hrun as <-.
Qed.

Lemma no_setting_of_the_tree_is_dropped_witness :
  In "layer_height"
     (Dict.keys [("layer_height",
                  [("default_value", Ender3.f0_2); ("type", VStr "float");
                   ("description", VStr "The height of each layer in mm.");
                   ("unit", VStr "mm")])]).
Proof.
  refine (@no_setting_of_the_tree_is_dropped Ender3.fdmprinter _ _ "layer_height"
            [("label", VStr "Layer Height");
             ("description", VStr "The height of each layer in mm.");
             ("unit", VStr "mm"); ("type", VStr "float");
             ("default_value", Ender3.f0_2)]
            eq_refl _ eq_refl eq_refl).
  eapply in_tree_below.
  - left. reflexivity.
  - reflexivity.
  - apply in_tree_here. left. reflexivity.
Defined.

(** ** The merge, further *)

(** X6. Inheritance of a field: a field (other than the provenance list
    and [effective_value]) that a layer gives a key, and that no more
    specific layer of the chain gives it, is in the merged entry with that
    layer's value, whether or not the definition changes override the
    key. *)
Theorem silent_layers_inherit_field :
  forall w specific l general definition_changes s K info field D eff,
    field <> "_sources" ->
    field <> "effective_value" ->
    values_wf definition_changes ->
    layer_settings w l = Ok s ->
    Dict.get K s = Some info ->
    Dict.get field info = Some D ->
    (forall l' s' info',
        In l' specific -> layer_settings w l' = Ok s' ->
        Dict.get K s' = Some info' -> Dict.get field info' = None) ->
    effective_settings w (specific ++ l :: general) definition_changes = Ok eff ->
    exists e, Dict.get K eff = Some e /\ Dict.get field e = Some D.
Proof.
  intros w specific l general dc s K info field D eff Hsrc Heffv Hwf Hs Hinfo HD
         Hspec Hrun.
  unfold effective_settings in Hrun. bind_inv Hrun. rename a into eff0.
  destruct (@merge_chain_field w specific l general eff0 s K info field D)
    as (e0 & Hget0 & HD0); try assumption.
  destruct (@apply_definition_changes_inv dc eff0 eff Hwf Hrun)
    as (vs & Hnd & _ & _ & Hloop).
  destruct (Dict.get K vs) as [v|] eqn:Ev.
  - destruct (@keyed_get_present _ _ _ _ _ Hnd Hloop K v Ev) as (e & He & Hget).
    exists e. split; [assumption|].
    rewrite Hget0 in He. unfold override_entry_of in He.
    rewrite (@append_source_other _ _ _ field He Hsrc).
    rewrite DictFacts.get_set_other by congruence. assumption.
  - exists e0. split; [|assumption].
    rewrite (@keyed_get_absent _ _ _ _ _ Hloop K); [assumption|].
    now apply DictFacts.get_none_not_in.
Qed.

Lemma silent_layers_inherit_field_witness :
  exists e,
    Dict.get "layer_height"
      [("layer_height", layer_height_entry);
       ("machine_name",
        [("_sources", VList [VStr "creality_base"; VStr "creality_ender3pro"]);
         ("default_value", VStr "Creality Ender-3 Pro");
         ("_source", VStr "creality_ender3pro.def.json")])] = Some e /\
    Dict.get "unit" e = Some (VStr "mm").
Proof.
  refine (@silent_layers_inherit_field Ender3.world
            [{| name := VStr "creality_ender3pro";
                file_of := "definitions/creality_ender3pro.def.json";
                inherits := VStr "creality_base" |};
             {| name := VStr "creality_base";
                file_of := "definitions/creality_base.def.json";
                inherits := VStr "fdmprinter" |}]
            {| name := VStr "fdmprinter";
               file_of := "definitions/fdmprinter.def.json";
               inherits := VNone |}
            [] Ender3.definition_changes
            [("layer_height",
              [("default_value", Ender3.f0_2); ("type", VStr "float");
               ("description", VStr "The height of each layer in mm.");
               ("unit", VStr "mm")])]
            "layer_height"
            [("default_value", Ender3.f0_2); ("type", VStr "float");
             ("description", VStr "The height of each layer in mm.");
             ("unit", VStr "mm")]
            "unit" (VStr "mm") _ _ _ ender3_values_wf eq_refl eq_refl eq_refl _
            eq_refl); try discriminate.
  intros l' s' info' [<-|[<-|[]]] Hs' Hinfo';
    vm_compute in Hs'; injection Hs' as <-;
    cbn in Hinfo'; try discriminate; injection Hinfo' as <-; reflexivity.
Defined.

(** X7. A key that only the definition changes have gets an entry of its
    own with nothing but the provenance marker and the effective value: no
    default, type or description. *)
Theorem customization_of_undefined_key :
  forall w chain definition_changes vs K V eff,
    Dict.get "values" definition_changes = Some (VDict vs) ->
    NoDup (Dict.keys vs) ->
    Dict.get K vs = Some V ->
    (forall l, In l chain -> defines w K l = false) ->
    effective_settings w chain definition_changes = Ok eff ->
    Dict.get K eff =
    Some [("_sources", VList [VStr "definition_changes"]); ("effective_value", V)].
Proof.
  intros w chain dc vs K V eff Hvalues Hnd HV Hnone Hrun.
  unfold effective_settings in Hrun. bind_inv Hrun. rename a into eff0.
  assert (Hnew : Dict.get K eff0 = None).
  { apply DictFacts.get_none_not_in. intros Hin.
    apply (@merge_chain_keys w _ _ Hrun0) in Hin.
    destruct Hin as (l & Hl & Hdef). apply in_rev in Hl.
    rewrite (Hnone l Hl) in Hdef. discriminate. }
  unfold apply_definition_changes in Hrun. rewrite Hvalues in Hrun.
  cbn [as_dict bind] in Hrun. rewrite override_setting_keyed in Hrun.
  destruct (@keyed_get_present _ _ _ _ _ Hnd Hrun K V HV) as (e & He & Hget).
  rewrite Hget. rewrite Hnew in He. cbn in He. now injection He as <-.
Qed.

Lemma customization_of_undefined_key_witness :
  Dict.get "machine_start_gcode"
    [("layer_height",
      [("_sources", VList [VStr "fdmprinter"; VStr "creality_ender3pro"]);
       ("default_value", Ender3.f0_16); ("type", VStr "float");
       ("description", VStr "The height of each layer in mm.");
       ("unit", VStr "mm"); ("_source", VStr "creality_ender3pro.def.json")]);
     ("machine_name",
      [("_sources", VList [VStr "creality_base"; VStr "creality_ender3pro"]);
       ("default_value", VStr "Creality Ender-3 Pro");
       ("_source", VStr "creality_ender3pro.def.json")]);
     ("machine_start_gcode",
      [("_sources", VList [VStr "definition_changes"]);
       ("effective_value", VStr "G28")])] =
  Some [("_sources", VList [VStr "definition_changes"]);
        ("effective_value", VStr "G28")].
Proof.
  refine (@customization_of_undefined_key Ender3.world Ender3.chain
            [("values", VDict [("machine_start_gcode", VStr "G28")])]
            [("machine_start_gcode", VStr "G28")] "machine_start_gcode"
            (VStr "G28") _ eq_refl _ eq_refl _ eq_refl).
  - distinct_keys.
  - intros l [<-|[<-|[<-|[]]]]; reflexivity.
Defined.

(** ** The chain loop, further *)

Section ChainShape.
Variable w : World.

Lemma chain_loop_walks fuel : forall id acc result,
  chain_loop w fuel id acc = Some (Ok result) ->
  exists links stop,
    result = acc ++ links /\ resolves w id links stop /\ chain_end w stop /\
    List.length links < fuel.
Proof.
  induction fuel as [|n IH]; intros id acc result Hrun; [discriminate|].
  cbn [chain_loop] in Hrun.
  destruct (truthy id) eqn:Htruthy.
  - destruct (file_exists (json_fs w (def_path w id))) eqn:Hexists.
    + destruct (parse_def_json w (def_path w id)) as [d| |] eqn:Hparse;
        try discriminate.
      destruct (IH _ _ _ Hrun) as (links & stop & -> & Hwalk & Hend & Hlen).
      exists (link_of w id d :: links), stop.
      split; [now rewrite <- app_assoc|]. split; [|split; [assumption|]].
      * now apply resolves_next.
      * cbn [List.length]. now apply -> Nat.succ_lt_mono.
    + injection Hrun as <-. exists [], id.
      split; [now rewrite app_nil_r|]. split; [apply resolves_here|].
      split; [now right|apply Nat.lt_0_succ].
  - injection Hrun as <-. exists [], id.
    split; [now rewrite app_nil_r|]. split; [apply resolves_here|].
    split; [now left|apply Nat.lt_0_succ].
Qed.

Lemma chain_end_not_resolvable id :
  chain_end w id -> truthy id = true ->
  file_exists (json_fs w (def_path w id)) = true -> False.
Proof. intros [H|H] Ht He; congruence. Qed.

(** From an identifier there is one walk to the end of the chain. *)
Lemma walk_to_end_unique id a stop :
  resolves w id a stop -> chain_end w stop ->
  forall b stop', resolves w id b stop' -> chain_end w stop' -> a = b.
Proof.
  induction 1 as [id|id d links stop Htruthy Hexists Hparse _ IH];
    intros Hend b stop' Hb Hend'.
  - inversion Hb; subst; [reflexivity|].
    exfalso. eapply (chain_end_not_resolvable Hend); eassumption.
  - inversion Hb; subst.
    + exfalso. eapply (chain_end_not_resolvable Hend'); eassumption.
    + match goal with
      | H1 : parse_def_json w _ = Ok ?d1 |- _ =>
          rewrite Hparse in H1; injection H1 as <-
      end.
      f_equal. eapply IH; eauto.
Qed.

Lemma resolves_split id a b stop :
  resolves w id (a ++ b) stop ->
  exists mid, resolves w id a mid /\ resolves w mid b stop.
Proof.
  revert id. induction a as [|x r IH]; intros id H.
  - exists id. split; [apply resolves_here|assumption].
  - cbn [app] in H. inversion H; subst.
    match goal with
    | Hr : resolves w _ (r ++ b) stop |- _ =>
        destruct (IH _ Hr) as (mid & Ha & Hb)
    end.
    exists mid. split; [|assumption]. now apply resolves_next.
Qed.

Lemma resolves_first_name id l r stop :
  resolves w id (l :: r) stop -> name l = id.
Proof. intros H. inversion H; subst. reflexivity. Qed.

Lemma walk_to_end_distinct id links stop :
  resolves w id links stop -> chain_end w stop -> NoDup (map name links).
Proof.
  intros Hwalk Hend. revert id Hwalk.
  induction links as [|l r IH]; intros id Hwalk; [constructor|].
  cbn [map]. constructor.
  - intros Hin. apply in_map_iff in Hin. destruct Hin as (l' & Hname & Hl').
    apply in_split in Hl'. destruct Hl' as (r1 & r2 & ->).
    pose proof (resolves_first_name Hwalk) as Hid.
    change (l :: r1 ++ l' :: r2) with ((l :: r1) ++ l' :: r2) in Hwalk.
    destruct (resolves_split _ _ Hwalk) as (mid & _ & Hrest).
    pose proof (resolves_first_name Hrest) as Hmid.
    assert (Hsame : mid = id) by congruence. rewrite Hsame in Hrest.
    pose proof (walk_to_end_unique Hwalk Hend Hrest Hend) as Heq.
    apply (f_equal (@List.length link)) in Heq.
    rewrite !length_app in Heq. cbn [List.length] in Heq. lia.
  - inversion Hwalk; subst. eapply IH; eauto.
Qed.

(** X8. A chain the loop returns is a walk along [inherits]: it starts
    at the start identifier, every link names an identifier that is truthy
    and has a backing document, records that document's path and its
    declared parent, the next link is that parent, and the walk stops at an
    identifier that is falsy or has no document. The loop used fewer
    iterations than it had. *)
Theorem returned_chain_is_a_walk :
  forall fuel start chain,
    chain_loop w fuel start [] = Some (Ok chain) ->
    exists stop,
      resolves w start chain stop /\ chain_end w stop /\
      List.length chain < fuel /\
      forall l, In l chain ->
        truthy (name l) = true /\
        file_of l = def_path w (name l) /\
        file_exists (json_fs w (file_of l)) = true.
Proof.
  intros fuel start chain Hrun.
  destruct (chain_loop_walks _ _ _ Hrun) as (links & stop & Heq & Hwalk & Hend & Hlen).
  cbn [app] in Heq. subst links.
  exists stop. split; [assumption|]. split; [assumption|]. split; [assumption|].
  clear Hrun Hlen Hend.
  induction Hwalk as [id|id d links stop Htruthy Hexists Hparse _ IH];
    intros l Hin; [destruct Hin|].
  destruct Hin as [<-|Hin]; [|now apply IH].
  cbn [link_of name file_of]. auto.
Qed.

(** X9. A chain the loop returns never lists an identifier twice. *)
Theorem returned_chain_has_distinct_names :
  forall fuel start chain,
    chain_loop w fuel start [] = Some (Ok chain) ->
    NoDup (map name chain).
Proof.
  intros fuel start chain Hrun.
  destruct (chain_loop_walks _ _ _ Hrun) as (links & stop & Heq & Hwalk & Hend & _).
  cbn [app] in Heq. subst links.
  exact (walk_to_end_distinct Hwalk Hend).
Qed.

End ChainShape.

Lemma ender3_chain_loop :
  chain_loop Ender3.world 4 (VStr "creality_ender3pro") [] = Some (Ok Ender3.chain).
Proof. reflexivity. Defined.

Lemma returned_chain_is_a_walk_witness :
  exists stop,
    resolves Ender3.world (VStr "creality_ender3pro") Ender3.chain stop /\
    chain_end Ender3.world stop /\
    List.length Ender3.chain < 4 /\
    forall l, In l Ender3.chain ->
      truthy (name l) = true /\
      file_of l = def_path Ender3.world (name l) /\
      file_exists (json_fs Ender3.world (file_of l)) = true.
Proof.
  exact (@returned_chain_is_a_walk Ender3.world 4 (VStr "creality_ender3pro")
           Ender3.chain ender3_chain_loop).
Defined.

Lemma returned_chain_has_distinct_names_witness :
  NoDup (map name Ender3.chain).
Proof.
  exact (@returned_chain_has_distinct_names Ender3.world 4
           (VStr "creality_ender3pro") Ender3.chain ender3_chain_loop).
Defined.

(** ** Custom quality profiles, further *)

Section QualityShape.
Variable w : World.

Lemma absorbed_files fs : forall p,
  files (fold_left (absorb w) fs p) = files p ++ fs.
Proof.
  induction fs as [|f r IH]; intros p; cbn [fold_left].
  - now rewrite app_nil_r.
  - rewrite IH. cbn [absorb files]. now rewrite <- app_assoc.
Qed.

Lemma absorbed_metadata fs : forall p,
  metadata (fold_left (absorb w) fs p) =
  match last_with_metadata w fs with
  | Some f => Dict.get "metadata" (cfg_of w f)
  | None => metadata p
  end.
Proof.
  unfold last_with_metadata.
  induction fs as [|f r IH] using rev_ind; intros p; [reflexivity|].
  rewrite fold_left_app, rev_app_distr. cbn [fold_left rev app find absorb metadata].
  unfold Dict.has.
  destruct (Dict.get "metadata" (cfg_of w f)) eqn:E; [now rewrite E|apply IH].
Qed.

Lemma aggregate_distinct listing : forall acc result,
  for_each (add_quality_file w) listing acc = Ok result ->
  NoDup (Dict.keys acc) -> NoDup (Dict.keys result).
Proof.
  intros acc result Hrun Hacc.
  refine (@for_each_invariant _ _ _ (fun r => NoDup (Dict.keys r)) listing _
            acc result Hacc Hrun).
  intros r f r' _ Hr Hstep. rewrite add_quality_file_absorbs in Hstep.
  injection Hstep as <-. now apply DictFacts.nodup_set.
Qed.

(** X10. The aggregation of custom quality files always returns, with
    one profile per declared name, and loses no file: the files of a
    profile are the scanned files that declare its name, in scan order, and
    every scanned file is among the files of the profile it declares. *)
Theorem custom_profiles_partition_the_files :
  forall listing,
    glob_quality_changes w = Some listing ->
    exists result,
      _extract_custom_qualities w = Ok result /\
      NoDup (Dict.keys result) /\
      (forall n p, Dict.get n result = Some p ->
                   files p = declaring w n listing /\ files p <> []) /\
      (forall f, In f listing ->
                 exists p, Dict.get (profile_name w f) result = Some p /\
                           In f (files p)).
Proof.
  intros listing Hglob.
  destruct (@aggregate_by_name w listing []) as (result & Hrun & Hget).
  exists result. unfold _extract_custom_qualities. rewrite Hglob.
  split; [assumption|].
  split; [eapply aggregate_distinct; [eassumption|constructor]|].
  assert (Hfiles : forall n p, Dict.get n result = Some p ->
                               files p = declaring w n listing /\ files p <> []).
  { intros n p Hp. rewrite Hget in Hp.
    destruct (declaring w n listing) as [|f fs] eqn:E; [discriminate|].
    injection Hp as <-. rewrite absorbed_files. cbn. split; [reflexivity|discriminate]. }
  split; [assumption|].
  intros f Hf.
  assert (Hdecl : In f (declaring w (profile_name w f) listing)).
  { unfold declaring. apply filter_In. split; [assumption|apply String.eqb_refl]. }
  specialize (Hget (profile_name w f)).
  destruct (declaring w (profile_name w f) listing) as [|g gs] eqn:E;
    [destruct Hdecl|].
  eexists. split; [exact Hget|].
  rewrite absorbed_files. cbn [profile_or_new Dict.get new_profile files app].
  exact Hdecl.
Qed.

(** X11. The [metadata] of a custom profile is not merged: it is the
    [metadata] section of the last scanned file of the profile that has
    one, whole, and absent when none has. *)
Theorem custom_profile_metadata_is_the_last :
  forall listing,
    glob_quality_changes w = Some listing ->
    exists result,
      _extract_custom_qualities w = Ok result /\
      forall n p, Dict.get n result = Some p ->
        metadata p =
        match last_with_metadata w (declaring w n listing) with
        | Some f => Dict.get "metadata" (cfg_of w f)
        | None => None
        end.
Proof.
  intros listing Hglob.
  destruct (@aggregate_by_name w listing []) as (result & Hrun & Hget).
  exists result. unfold _extract_custom_qualities. rewrite Hglob.
  split; [assumption|].
  intros n p Hp. rewrite Hget in Hp.
  destruct (declaring w n listing) as [|f fs] eqn:E; [discriminate|].
  injection Hp as <-.
  change (metadata (fold_left (absorb w) (f :: fs) (profile_or_new n [])) =
          match last_with_metadata w (f :: fs) with
          | Some f => Dict.get "metadata" (cfg_of w f)
          | None => None
          end).
  rewrite absorbed_metadata.
  now destruct (last_with_metadata w (f :: fs)).
Qed.

End QualityShape.

Lemma custom_profiles_partition_the_files_witness :
  exists result,
    _extract_custom_qualities Pair.extruder_first = Ok result /\
    NoDup (Dict.keys result) /\
    exists p, Dict.get "Fine" result = Some p /\
              files p = ["quality_changes/fine_extruder.inst.cfg";
                         "quality_changes/fine.inst.cfg"].
Proof.
  destruct (@custom_profiles_partition_the_files Pair.extruder_first _ eq_refl)
    as (result & Hrun & Hnd & Hfiles & Hall).
  exists result. split; [assumption|]. split; [assumption|].
  destruct (Hall "quality_changes/fine.inst.cfg") as (p & Hp & _).
  { cbn. auto. }
  exists p. split; [exact Hp|]. exact (proj1 (Hfiles _ _ Hp)).
Defined.

Lemma custom_profile_metadata_is_the_last_witness :
  exists result p,
    _extract_custom_qualities Pair.global_first = Ok result /\
    Dict.get "Fine" result = Some p /\
    metadata p = Some (VDict [("position", VStr "0")]).
Proof.
  destruct (@custom_profile_metadata_is_the_last Pair.global_first _ eq_refl)
    as (result & Hrun & Hmeta).
  destruct (@custom_profiles_partition_the_files Pair.global_first _ eq_refl)
    as (result' & Hrun' & _ & _ & Hall).
  rewrite Hrun in Hrun'. injection Hrun' as <-.
  destruct (Hall "quality_changes/fine.inst.cfg") as (p & Hp & _).
  { cbn. auto. }
  exists result, p. split; [assumption|]. split; [exact Hp|].
  exact (Hmeta _ _ Hp).
Defined.

(** ** The quick reference, further *)

(** X12. The quick reference reports nothing but settings of its list
    that the definition changes or the effective map have; for a setting
    shown from the effective map, the source is the last entry of its
    provenance list, and ["default"] when the entry has no such list. *)
Theorem quick_reference_sources :
  forall data machine effective definition_changes def_changes,
    Dict.get "machine" data = Some (VDict machine) ->
    Dict.get "effective_settings" machine = Some (VDict effective) ->
    Dict.get "definition_changes" machine = Some (VDict definition_changes) ->
    values_of definition_changes = VDict def_changes ->
    (forall s v, In s IMPORTANT_SETTINGS -> Dict.get s def_changes = None ->
                 Dict.get s effective = Some v ->
                 exists info src, v = VDict info /\ reported_source info = Ok src) ->
    exists key_settings,
      extract_key_settings data = Ok key_settings /\
      (forall s, In s (Dict.keys key_settings) ->
                 In s IMPORTANT_SETTINGS /\
                 (In s (Dict.keys def_changes) \/ In s (Dict.keys effective))) /\
      (forall s info,
          In s IMPORTANT_SETTINGS ->
          Dict.get s def_changes = None ->
          Dict.get s effective = Some (VDict info) ->
          exists src,
            Dict.get s key_settings =
            Some (VDict [("value", reported_value info); ("source", src)]) /\
            (forall front x,
                Dict.get "_sources" info = Some (VList (front ++ [x])) -> src = x) /\
            (Dict.get "_sources" info = None -> src = VStr "default")).
Proof.
  intros data machine effective dcs def_changes Hm He Hd Hv Hinfo.
  assert (Hrun : extract_key_settings data =
                 for_each (key_setting (VDict def_changes) (VDict effective))
                          IMPORTANT_SETTINGS []).
  { unfold extract_key_settings. rewrite Hm. cbn [dict_get_default].
    rewrite He, Hd. cbn [bind dict_get_default].
    unfold values_of in Hv. rewrite Hv. reflexivity. }
  destruct (@key_settings_loop (VDict def_changes) (VDict effective)
              IMPORTANT_SETTINGS [] IMPORTANT_SETTINGS_distinct)
    as (ks & Hks & Hout & Hin).
  { intros s Hs. unfold report_of. cbn [item_if_in bind].
    destruct (Dict.get s def_changes) eqn:Edc; [eauto|].
    destruct (Dict.get s effective) as [v|] eqn:Eeff; [|eauto].
    destruct (Hinfo s v Hs Edc Eeff) as (info & src & -> & Hsrc).
    cbn [as_dict bind]. rewrite Hsrc. cbn [bind]. eauto. }
  exists ks. split; [now rewrite Hrun|]. split.
  - intros s Hs.
    destruct (in_dec string_dec s IMPORTANT_SETTINGS) as [Himp|Hnot].
    + split; [assumption|].
      destruct (DictFacts.in_keys_get _ _ Hs) as (r & Hr).
      destruct (Dict.get s def_changes) as [v|] eqn:Edc;
        [left; eapply DictFacts.get_some_in_keys; eauto|].
      destruct (Dict.get s effective) as [v|] eqn:Eeff;
        [right; eapply DictFacts.get_some_in_keys; eauto|].
      assert (Hrep : report_of (VDict def_changes) (VDict effective) s = Ok None).
      { unfold report_of. cbn [item_if_in bind]. now rewrite Edc, Eeff. }
      rewrite (Hin _ _ Himp Hrep) in Hr. discriminate.
    + apply DictFacts.in_keys_get in Hs. destruct Hs as (r & Hr).
      rewrite (Hout s Hnot) in Hr. discriminate.
  - intros s info Hs Edc Eeff.
    destruct (Hinfo s _ Hs Edc Eeff) as (info' & src & Heq & Hsrc).
    injection Heq as <-. exists src.
    assert (Hrep : report_of (VDict def_changes) (VDict effective) s =
                   Ok (Some (VDict [("value", reported_value info);
                                    ("source", src)]))).
    { unfold report_of. cbn [item_if_in bind]. rewrite Edc, Eeff.
      cbn [as_dict bind]. now rewrite Hsrc. }
    split; [exact (Hin _ _ Hs Hrep)|]. split.
    + intros front x Hsources. unfold reported_source in Hsrc.
      rewrite Hsources in Hsrc. cbn [last_item] in Hsrc.
      rewrite rev_app_distr in Hsrc. cbn in Hsrc. now injection Hsrc.
    + intros Hnone. unfold reported_source in Hsrc. rewrite Hnone in Hsrc.
      now injection Hsrc.
Qed.

Lemma quick_reference_sources_witness :
  exists key_settings,
    extract_key_settings Stock.data = Ok key_settings /\
    Dict.get "layer_height" key_settings =
    Some (VDict [("value", Ender3.f0_16); ("source", VStr "creality_ender3pro")]).
Proof.
  destruct (@quick_reference_sources Stock.data Stock.machine
              (map (fun kv => (fst kv, VDict (snd kv))) Stock.effective) [] [])
    as (ks & Hks & _ & Hshown).
  - reflexivity.
  - reflexivity.
  - reflexivity.
  - reflexivity.
  - intros s v _ _ Hget. unfold Stock.effective in Hget.
    cbn [map fst snd Dict.get] in Hget.
    destruct (String.eqb "layer_height" s).
    + injection Hget as <-. eexists. eexists. split; reflexivity.
    + destruct (String.eqb "machine_name" s); [|discriminate].
      injection Hget as <-. eexists. eexists. split; reflexivity.
  - exists ks. split; [assumption|].
    destruct (Hshown "layer_height" _ (or_introl eq_refl) eq_refl eq_refl)
      as (src & Hget & Hlast & _).
    rewrite Hget.
    rewrite (Hlast [VStr "fdmprinter"] (VStr "creality_ender3pro") eq_refl).
    reflexivity.
Defined.

(** ** Built-in quality profiles *)

Section SectionFacts.
Variable w : World.


Lemma parse_cfg_file_cfg_of f : parse_cfg_file w f = Ok (cfg_of w f).
Proof.
  unfold cfg_of. now destruct (@parse_cfg_file_shaped w f) as (cfg & -> & _).
Qed.


Lemma cfg_values f :
  match Dict.get "values" (cfg_of w f) with
  | Some v => v
  | None => VDict []
  end = VDict (file_values w f).
Proof.
  unfold file_values.
  assert (Hshape : cfg_shaped (cfg_of w f)).
  { unfold cfg_of. now destruct (@parse_cfg_file_shaped w f) as (cfg & -> & Hs). }
  destruct (Dict.get "values" (cfg_of w f)) as [v|] eqn:E; [|reflexivity].
  destruct (Hshape _ _ E) as [(options & ->)|([H|[H|H]] & _)]; try discriminate.
  reflexivity.
Qed.

End SectionFacts.


Section BuiltinFacts.
Variable st : Site.




End BuiltinFacts.

(** ** Plugins *)

Lemma plugin_entry_described pkg_id pkg_info :
  described pkg_info = true ->
  plugin_entry pkg_id pkg_info = Ok (plugin_summary pkg_id pkg_info).
Proof.
  unfold described, plugin_entry, plugin_summary, field_or.
  destruct pkg_info as [| | | | | |d]; try discriminate.
  cbn [get_method bind].
  destruct (Dict.get "package_info" d) as [[| | | | | |info]|]; try discriminate.
  - cbn [get_method bind].
    destruct (Dict.get "author" info) as [[| | | | | |a]|]; try discriminate;
      reflexivity.
  - reflexivity.
Qed.

Lemma plugin_entry_undescribed pkg_id pkg_info :
  described pkg_info = false ->
  exists x, plugin_entry pkg_id pkg_info = Raise "AttributeError" (no_attribute x "get").
Proof.
  unfold described, plugin_entry.
  destruct pkg_info as [| | | | | |d];
    try (intros _; eexists; reflexivity).
  cbn [get_method bind].
  destruct (Dict.get "package_info" d) as [[| | | | | |info]|];
    try (intros _; eexists; reflexivity); try discriminate.
  cbn [get_method bind].
  destruct (Dict.get "author" info) as [[| | | | | |a]|];
    try (intros _; eexists; reflexivity); discriminate.
Qed.

Lemma plugins_loop_described installed :
  forallb (fun kv => described (snd kv)) installed = true ->
  forall acc,
    plugins_loop installed acc =
    (Dict.update acc
       (map (fun kv => (fst kv, plugin_summary (fst kv) (snd kv))) installed),
     Ok tt).
Proof.
  induction installed as [|[pkg_id pkg_info] rest IH]; intros Hall acc.
  - reflexivity.
  - cbn [forallb snd] in Hall. apply andb_prop in Hall as [Hd Hrest].
    cbn [plugins_loop]. rewrite (plugin_entry_described pkg_id _ Hd).
    rewrite (IH Hrest). reflexivity.
Qed.

Lemma plugins_loop_stops good pkg_id pkg_info rest x :
  forallb (fun kv => described (snd kv)) good = true ->
  plugin_entry pkg_id pkg_info = Raise "AttributeError" (no_attribute x "get") ->
  forall acc,
    plugins_loop (good ++ (pkg_id, pkg_info) :: rest) acc =
    (Dict.update acc
       (map (fun kv => (fst kv, plugin_summary (fst kv) (snd kv))) good),
     Raise "AttributeError" (no_attribute x "get")).
Proof.
  intros Hall Hbad.
  induction good as [|[gid ginfo] good IH]; intros acc.
  - cbn [app plugins_loop]. rewrite Hbad. reflexivity.
  - cbn [forallb snd] in Hall. apply andb_prop in Hall as [Hd Hrest].
    cbn [app plugins_loop]. rewrite (plugin_entry_described gid _ Hd).
    rewrite (IH Hrest). reflexivity.
Qed.





(** X15. A manifest whose packages are all described is reported in full:
    the result has one entry per installed package, under the package id,
    with exactly the fields [name], [version], [description], [author] and
    [website]; a missing field is the package id, [unknown], the empty
    string, [unknown] and the empty string in turn. There is no [_error]
    entry unless a package has that id. *)
Theorem described_packages_are_listed :
  forall st packages installed,
    packages_json st = Parsed (VDict packages) ->
    Dict.get "installed" packages = Some (VDict installed) ->
    forallb (fun kv => described (snd kv)) installed = true ->
    _extract_plugins st = Ok (plugin_entries installed).
Proof.
  intros st packages installed Hfile Hinst Hall.
  unfold _extract_plugins, plugins_try. rewrite Hfile.
  cbn [get_method bind]. rewrite Hinst. cbn [items_method].
  rewrite (plugins_loop_described _ Hall). reflexivity.
Qed.

(** X16. One package that is not described hides every package listed
    after it: the result holds the entries of the packages before it and
    an [_error] entry with the text of the AttributeError; the packages
    after it are left out, described or not. *)
Theorem undescribed_package_hides_the_rest :
  forall st packages good pkg_id pkg_info rest,
    packages_json st = Parsed (VDict packages) ->
    Dict.get "installed" packages =
      Some (VDict (good ++ (pkg_id, pkg_info) :: rest)) ->
    forallb (fun kv => described (snd kv)) good = true ->
    described pkg_info = false ->
    exists x,
      _extract_plugins st =
      Ok (Dict.set "_error" (VStr (no_attribute x "get")) (plugin_entries good)).
Proof.
  intros st packages good pkg_id pkg_info rest Hfile Hinst Hall Hbad.
  destruct (plugin_entry_undescribed pkg_id _ Hbad) as (x & Hraise).
  exists x. unfold _extract_plugins, plugins_try. rewrite Hfile.
  cbn [get_method bind]. rewrite Hinst. cbn [items_method].
  rewrite (@plugins_loop_stops good pkg_id pkg_info rest x Hall Hraise). reflexivity.
Qed.

(** ** Start and end G-code *)

Section GcodeFacts.
Variable st : Site.

(** X17. A customized start G-code wins and no definition is consulted:
    when the first settings file whose name matches the machine sets a
    non-empty [machine_start_gcode], the result is that text, the file's
    [machine_end_gcode] (empty without one) and the file as source,
    whatever the definitions hold. *)
Theorem customized_start_gcode_wins :
  forall machine_name f start,
    find (settings_file_matches st machine_name) (glob_settings_files st) = Some f ->
    Dict.get "machine_start_gcode" (file_values (site_world st) f) = Some start ->
    truthy start = true ->
    _extract_gcode st machine_name =
    Ok {| start_gcode := start;
          end_gcode := field_or (file_values (site_world st) f)
                         "machine_end_gcode" (VStr "");
          source := VStr f |}.
Proof.
  intros machine_name f start Hfind Hstart Htruthy.
  unfold _extract_gcode, user_gcode. rewrite Hfind.
  rewrite parse_cfg_file_cfg_of. cbn [bind]. rewrite cfg_values.
  cbn [item_if_in bind]. rewrite Hstart. unfold field_or.
  destruct (Dict.get "machine_end_gcode" _) as [e|];
    cbn [start_gcode end_gcode source]; rewrite Htruthy; reflexivity.
Qed.

(** What the fallback loop reads of one definition. *)
Lemma definition_gcode_round def_name rest result d o s e :
  json_fs (site_world st) (def_path (site_world st) (VStr def_name)) = Parsed d ->
  NoDup (Dict.keys d) ->
  settings_readable d ->
  Dict.get "overrides" d = Some (VDict o) ->
  Dict.get "machine_start_gcode" o = Some (VDict s) ->
  truthy (field_or s "default_value" (VStr "")) = true ->
  Dict.get "machine_end_gcode" o = Some (VDict e) ->
  definition_gcode st (def_name :: rest) result =
  Ok {| start_gcode := field_or s "default_value" (VStr "");
        end_gcode := field_or e "default_value" (VStr "");
        source := VStr (def_path (site_world st) (VStr def_name)) |}.
Proof.
  intros Hfile Hnd Hread Hover Hs Htruthy He.
  cbn [definition_gcode]. rewrite Hfile. cbn [file_exists].
  unfold parse_def_json, json_load. rewrite Hfile.
  cbn [file_exists negb try_except bind].
  rewrite !DictFacts.get_update by assumption. rewrite Hover.
  unfold settings_readable in Hread.
  destruct (Dict.get "settings" d) as [[| | | | | |tree]|];
    try contradiction; cbn [Dict.get dict_get_default bind].
  - destruct (Dict.get "machine_settings" tree) as [[| | | | | |ms]|];
      try contradiction; cbn [dict_get_default bind item_if_in];
      rewrite Hs, He; cbn [dict_get_default bind start_gcode end_gcode source];
      fold (field_or s "default_value" (VStr ""));
      fold (field_or e "default_value" (VStr ""));
      rewrite Htruthy; reflexivity.
  - cbn [item_if_in]. rewrite Hs, He.
    cbn [dict_get_default bind start_gcode end_gcode source].
    fold (field_or s "default_value" (VStr "")).
    fold (field_or e "default_value" (VStr "")).
    rewrite Htruthy. reflexivity.
Qed.

(** X18. Without a customized start G-code the fallback also replaces a
    customized end G-code: when the matching settings file sets
    [machine_end_gcode] but no [machine_start_gcode], and the definition
    [creality_ender3pro] overrides both with a non-empty start, the result
    is the start and the end of the definition with the definition as
    source; the end G-code of the settings file is not reported. *)
Theorem definition_gcode_replaces_customized_end :
  forall machine_name f user_end d o s e,
    find (settings_file_matches st machine_name) (glob_settings_files st) = Some f ->
    Dict.get "machine_start_gcode" (file_values (site_world st) f) = None ->
    Dict.get "machine_end_gcode" (file_values (site_world st) f) = Some user_end ->
    json_fs (site_world st)
            (def_path (site_world st) (VStr "creality_ender3pro")) = Parsed d ->
    NoDup (Dict.keys d) ->
    settings_readable d ->
    Dict.get "overrides" d = Some (VDict o) ->
    Dict.get "machine_start_gcode" o = Some (VDict s) ->
    truthy (field_or s "default_value" (VStr "")) = true ->
    Dict.get "machine_end_gcode" o = Some (VDict e) ->
    _extract_gcode st machine_name =
    Ok {| start_gcode := field_or s "default_value" (VStr "");
          end_gcode := field_or e "default_value" (VStr "");
          source := VStr (def_path (site_world st) (VStr "creality_ender3pro")) |}.
Proof.
  intros machine_name f user_end d o s e Hfind Hstart Hend Hfile Hnd Hread Hover
    Hs Htruthy He.
  unfold _extract_gcode, user_gcode. rewrite Hfind.
  rewrite parse_cfg_file_cfg_of. cbn [bind]. rewrite cfg_values.
  cbn [item_if_in bind]. rewrite Hstart, Hend.
  cbn [start_gcode truthy String.eqb negb].
  unfold GCODE_DEFINITIONS.
  now apply definition_gcode_round with (d := d) (o := o).
Qed.

End GcodeFacts.

Lemma parse_def_json_frame w w' p :
  path_name w = path_name w' ->
  json_fs w p = json_fs w' p ->
  parse_def_json w p = parse_def_json w' p.
Proof.
  intros Hname Hfile. unfold parse_def_json, json_load, annotated.
  now rewrite Hname, Hfile.
Qed.

Lemma definition_gcode_frame st st' names :
  path_name (site_world st) = path_name (site_world st') ->
  def_path (site_world st) = def_path (site_world st') ->
  (forall n, In n names ->
     json_fs (site_world st) (def_path (site_world st) (VStr n)) =
     json_fs (site_world st') (def_path (site_world st) (VStr n))) ->
  forall result,
    definition_gcode st names result = definition_gcode st' names result.
Proof.
  intros Hname Hpath.
  induction names as [|n rest IH]; intros Hfiles result; [reflexivity|].
  cbn [definition_gcode].
  rewrite <- Hpath.
  rewrite <- (Hfiles n (or_introl eq_refl)).
  rewrite <- (@parse_def_json_frame (site_world st) (site_world st') _ Hname
                (Hfiles n (or_introl eq_refl))).
  assert (Hrest : forall r, definition_gcode st rest r = definition_gcode st' rest r).
  { apply IH. intros m Hm. apply Hfiles. now right. }
  destruct (file_exists _); [|apply Hrest].
  destruct (parse_def_json (site_world st) _) as [def_data| |]; try reflexivity.
  cbn [bind].
  repeat match goal with
         | |- bind ?c _ = bind ?c _ => destruct c; cbn [bind]; try reflexivity
         end.
  rewrite Hrest. reflexivity.
Qed.

(** X19. The G-code fallback never follows the machine's own inheritance
    chain: two installations that agree on the settings files and on the
    three definitions [creality_ender3pro], [creality_base] and
    [fdmprinter] give the same G-code for every machine, whatever
    definition the machine is built on and whatever that definition
    holds. *)
Theorem gcode_reads_only_fixed_definitions :
  forall st st' machine_name,
    same_gcode_inputs st st' ->
    _extract_gcode st machine_name = _extract_gcode st' machine_name.
Proof.
  intros st st' machine_name (Hlower & Hglob & Hcfg & Hname & Hpath & Hfiles).
  assert (Huser : forall r, user_gcode st machine_name r = user_gcode st' machine_name r).
  { intros r. unfold user_gcode, settings_file_matches.
    rewrite <- Hlower, <- Hglob, <- Hname.
    destruct (find _ (glob_settings_files st)) as [f|] eqn:E; [|reflexivity].
    apply find_some in E as [Hf _].
    unfold parse_cfg_file, config_read, annotated.
    now rewrite <- (Hcfg f Hf), <- Hname. }
  unfold _extract_gcode. rewrite Huser.
  destruct (user_gcode st' machine_name _) as [r| |]; cbn [bind]; try reflexivity.
  destruct (negb (truthy (start_gcode r))); [|reflexivity].
  now apply definition_gcode_frame.
Qed.

(** ** Extruders *)

Section ExtruderFacts.
Variable st : Site.






End ExtruderFacts.

(** ** The fuller installation *)


Lemma described_packages_are_listed_witness :
  _extract_plugins Bench.site =
  Ok [("OctoPrintPlugin",
       VDict [("name", VStr "OctoPrint Connection"); ("version", VStr "3.7.3");
              ("description", VStr ""); ("author", VStr "fieldOfView");
              ("website", VStr "")]);
      ("Bare",
       VDict [("name", VStr "Bare"); ("version", VStr "unknown");
              ("description", VStr ""); ("author", VStr "unknown");
              ("website", VStr "")])].
Proof.
  exact (@described_packages_are_listed Bench.site _ _ eq_refl eq_refl eq_refl).
Defined.

Lemma undescribed_package_hides_the_rest_witness :
  exists x,
    _extract_plugins Bench.broken =
    Ok [("OctoPrintPlugin",
         VDict [("name", VStr "OctoPrint Connection"); ("version", VStr "3.7.3");
                ("description", VStr ""); ("author", VStr "fieldOfView");
                ("website", VStr "")]);
        ("_error", VStr (no_attribute x "get"))].
Proof.
  exact (@undescribed_package_hides_the_rest Bench.broken _
           [("OctoPrintPlugin",
             VDict [("package_info",
                     VDict [("display_name", VStr "OctoPrint Connection");
                            ("package_version", VStr "3.7.3");
                            ("author",
                             VDict [("display_name", VStr "fieldOfView")])])])]
           "Broken" (VDict [("package_info", VNone)]) [("Bare", VDict [])]
           eq_refl eq_refl eq_refl eq_refl).
Defined.

Lemma customized_start_gcode_wins_witness :
  _extract_gcode Bench.site "Lab Printer" =
  Ok {| start_gcode := VStr "G28\nG1 Z5";
        end_gcode := VStr "M84";
        source := VStr "definition_changes/Lab+Printer_settings.inst.cfg" |}.
Proof.
  exact (@customized_start_gcode_wins Bench.site "Lab Printer"
           "definition_changes/Lab+Printer_settings.inst.cfg" (VStr "G28\nG1 Z5")
           eq_refl eq_refl eq_refl).
Defined.

Lemma bench_ender3pro_distinct : NoDup (Dict.keys Bench.creality_ender3pro).
Proof. distinct_keys. Defined.

Lemma definition_gcode_replaces_customized_end_witness :
  Dict.get "machine_end_gcode"
    (file_values Bench.world "definition_changes/Ender3Pro_settings.inst.cfg") =
    Some (VStr "M84 ; motors off") /\
  _extract_gcode Bench.site "Ender3Pro" =
  Ok {| start_gcode := VStr "G28 ; home";
        end_gcode := VStr "M104 S0";
        source := VStr "definitions/creality_ender3pro.def.json" |}.
Proof.
  split; [reflexivity|].
  exact (@definition_gcode_replaces_customized_end Bench.site "Ender3Pro"
           "definition_changes/Ender3Pro_settings.inst.cfg"
           (VStr "M84 ; motors off") Bench.creality_ender3pro
           [("machine_name", VDict [("default_value", VStr "Creality Ender-3 Pro")]);
            ("layer_height", VDict [("default_value", Ender3.f0_16)]);
            ("machine_start_gcode", VDict [("default_value", VStr "G28 ; home")]);
            ("machine_end_gcode", VDict [("default_value", VStr "M104 S0")])]
           [("default_value", VStr "G28 ; home")]
           [("default_value", VStr "M104 S0")]
           eq_refl eq_refl eq_refl eq_refl bench_ender3pro_distinct I
           eq_refl eq_refl eq_refl eq_refl).
Defined.

Lemma bench_same_gcode_inputs : same_gcode_inputs Bench.site Bench.with_voron.
Proof.
  repeat split.
  intros n [<-|[<-|[<-|[]]]]; reflexivity.
Defined.

Lemma gcode_reads_only_fixed_definitions_witness :
  json_fs (site_world Bench.site) "definitions/voron2.def.json" = Absent /\
  json_fs (site_world Bench.with_voron) "definitions/voron2.def.json" =
    Parsed Bench.voron /\
  _extract_gcode Bench.site "Voron" = _extract_gcode Bench.with_voron "Voron".
Proof.
  split; [reflexivity|]. split; [reflexivity|].
  exact (@gcode_reads_only_fixed_definitions Bench.site Bench.with_voron "Voron"
           bench_same_gcode_inputs).
Defined.


(** ** The whole document *)

Ltac run_binds H :=
  cbn [bind] in H;
  repeat match type of H with
         | context [bind ?c _] =>
             lazymatch c with
             | bind _ _ => fail
             | _ => let E := fresh "E" in
                    destruct c eqn:E; cbn [bind] in H; try discriminate H
             end
         end.

(** X21. The layout of the document: whenever [extract_all] returns, the
    keys of the document are [_summary], [_key_settings] and [metadata],
    then the sections whose option is on, in the fixed order preferences,
    machine, gcode, extruders, quality_builtin, quality_custom, plugins.
    An option that is not given counts as on; the extruders follow the
    option [machine_settings]; no option adds a materials section. *)
Theorem document_layout :
  forall st fuel cura_version extracted_at machine_name options doc,
    extract_all st fuel cura_version extracted_at machine_name options
      = Some (Ok doc) ->
    Dict.keys doc =
    "_summary" :: "_key_settings" :: "metadata" :: sections_of options.
Proof.
  intros st fuel cura_version extracted_at machine_name options doc H.
  unfold extract_all, later_sections, finish, add_section in H.
  unfold sections_of, SECTIONS. cbn [filter map fst snd].
  destruct (enabled options "preferences");
    destruct (enabled options "machine_settings");
    destruct (enabled options "gcode");
    destruct (enabled options "quality_builtin");
    destruct (enabled options "quality_custom");
    destruct (enabled options "plugins");
    run_binds H;
    try (destruct (_extract_machine (site_world st) fuel machine_name)
           as [machine|]; [|discriminate H]);
    run_binds H;
    injection H as <-; reflexivity.
Qed.

Lemma document_layout_witness :
  exists doc,
    extract_all Bench.site 5 "5.6.0" "2024-05-01T10:00:00" "Ender3Pro"
      [("plugins", VBool false); ("materials", VBool true)] = Some (Ok doc) /\
    Dict.keys doc =
    ["_summary"; "_key_settings"; "metadata"; "preferences"; "machine"; "gcode";
     "extruders"; "quality_builtin"; "quality_custom"].
Proof.
  pose proof (@document_layout Bench.site 5 "5.6.0" "2024-05-01T10:00:00"
                "Ender3Pro" [("plugins", VBool false); ("materials", VBool true)])
    as Hlayout.
  destruct (extract_all Bench.site 5 "5.6.0" "2024-05-01T10:00:00" "Ender3Pro"
              [("plugins", VBool false); ("materials", VBool true)])
    as [[doc|cls msg|]|] eqn:E; try (vm_compute in E; discriminate E).
  exists doc. split; [reflexivity|]. exact (Hlayout doc eq_refl).
Defined.

(** The summary reads six keys of the document and the quick reference
    one. *)
Lemma create_summary_section_ext d d' :
  (forall k, In k ["machine"; "metadata"; "gcode"; "quality_builtin";
                   "quality_custom"; "plugins"] ->
             Dict.get k d = Dict.get k d') ->
  create_summary_section d = create_summary_section d'.
Proof.
  intros H. unfold create_summary_section.
  rewrite <- (H "machine"), <- (H "metadata"), <- (H "gcode"),
    <- (H "quality_builtin"), <- (H "quality_custom"), <- (H "plugins")
    by (cbn; tauto).
  reflexivity.
Qed.

Lemma extract_key_settings_ext d d' :
  Dict.get "machine" d = Dict.get "machine" d' ->
  extract_key_settings d = extract_key_settings d'.
Proof. intros H. unfold extract_key_settings. now rewrite H. Qed.

(** X22. The document [extract_all] returns describes itself: its
    [_summary] and [_key_settings] are what [create_summary_section] and
    [extract_key_settings] give when run again on the returned document,
    so both sections are about the machine, G-code, quality and plugin
    sections the same document carries. *)
Theorem document_describes_itself :
  forall st fuel cura_version extracted_at machine_name options doc,
    extract_all st fuel cura_version extracted_at machine_name options
      = Some (Ok doc) ->
    exists summary key_settings,
      Dict.get "_summary" doc = Some (VDict summary) /\
      Dict.get "_key_settings" doc = Some (VDict key_settings) /\
      create_summary_section doc = Ok summary /\
      extract_key_settings doc = Ok key_settings.
Proof.
  intros st fuel cura_version extracted_at machine_name options doc H.
  unfold extract_all, later_sections, finish, add_section in H.
  destruct (enabled options "preferences");
    destruct (enabled options "machine_settings");
    destruct (enabled options "gcode");
    destruct (enabled options "quality_builtin");
    destruct (enabled options "quality_custom");
    destruct (enabled options "plugins");
    run_binds H;
    try (destruct (_extract_machine (site_world st) fuel machine_name)
           as [machine|]; [|discriminate H]);
    run_binds H;
    injection H as <-;
    match goal with
    | Hs : create_summary_section _ = Ok ?s,
      Hk : extract_key_settings _ = Ok ?k |- _ =>
        exists s; exists k;
        (split; [reflexivity|]); (split; [reflexivity|]);
        (split; [etransitivity; [|exact Hs]; apply create_summary_section_ext;
                 intros x [<-|[<-|[<-|[<-|[<-|[<-|[]]]]]]]; reflexivity
                |etransitivity; [|exact Hk];
                 apply extract_key_settings_ext; reflexivity])
    end.
Qed.

Lemma document_describes_itself_witness :
  exists doc key_settings,
    extract_all Bench.site 5 "5.6.0" "2024-05-01T10:00:00" "Ender3Pro" []
      = Some (Ok doc) /\
    Dict.get "_key_settings" doc = Some (VDict key_settings) /\
    extract_key_settings doc = Ok key_settings /\
    Dict.get "layer_height" key_settings =
      Some (VDict [("value", VStr "0.12"); ("source", VStr "your_customizations")]).
Proof.
  pose proof (@document_describes_itself Bench.site 5 "5.6.0"
                "2024-05-01T10:00:00" "Ender3Pro" []) as Hself.
  destruct (extract_all Bench.site 5 "5.6.0" "2024-05-01T10:00:00" "Ender3Pro" [])
    as [[doc|cls msg|]|] eqn:E; try (vm_compute in E; discriminate E).
  destruct (Hself doc eq_refl) as (summary & key_settings & _ & Hks & _ & Hrun).
  exists doc, key_settings. split; [reflexivity|]. split; [exact Hks|].
  split; [exact Hrun|].
  vm_compute in E. injection E as <-. vm_compute in Hks.
  injection Hks as <-. reflexivity.
Defined.

(** ** Discovery *)

Lemma keys_set_cases (A : Type) (d : dict A) k v :
  Dict.keys (Dict.set k v d) =
  if existsb (String.eqb k) (Dict.keys d) then Dict.keys d else Dict.keys d ++ [k].
Proof.
  induction d as [|[k0 v0] r IH]; [reflexivity|].
  cbn [Dict.set Dict.keys map fst existsb].
  rewrite (String.eqb_sym k k0).
  destruct (String.eqb k0 k) eqn:E.
  - apply String.eqb_eq in E. subst k0. reflexivity.
  - cbn [orb map fst]. fold (Dict.keys r). fold (Dict.keys (Dict.set k v r)).
    rewrite IH. now destruct (existsb (String.eqb k) (Dict.keys r)).
Qed.

Section DiscoveryFacts.
Variable st : Site.










End DiscoveryFacts.



(** ** Post-processing *)

(** *** Splitting and joining *)

Lemma split_on_cons c s : exists first others, split_on c s = first :: others.
Proof.
  destruct s as [|x r]; cbn [split_on]; [eauto|].
  destruct (Ascii.eqb x c); [eauto|]. destruct (split_on c r); eauto.
Qed.

Lemma split_on_length c s :
  List.length (split_on c s) = S (count_char c s).
Proof.
  induction s as [|x r IH]; [reflexivity|].
  cbn [split_on count_char].
  destruct (Ascii.eqb x c).
  - cbn [List.length]. now rewrite IH.
  - destruct (split_on_cons c r) as (first & others & E).
    rewrite E in *. cbn [List.length] in *. exact IH.
Qed.

Lemma join_cons sep p q rest :
  join sep (p :: q :: rest) = (p ++ sep ++ join sep (q :: rest))%string.
Proof. reflexivity. Qed.

Lemma join_split c s : join (String c EmptyString) (split_on c s) = s.
Proof.
  induction s as [|x r IH]; [reflexivity|].
  cbn [split_on].
  destruct (Ascii.eqb x c) eqn:E.
  - apply Ascii.eqb_eq in E. subst x.
    destruct (split_on_cons c r) as (first & others & Er).
    rewrite Er in *. rewrite join_cons, IH. reflexivity.
  - destruct (split_on_cons c r) as (first & others & Er).
    rewrite Er in *. destruct others as [|q rest].
    + cbn [join] in *. now rewrite IH.
    + rewrite join_cons in *. rewrite <- IH. reflexivity.
Qed.

Lemma split_on_pieces c s :
  Forall (fun piece => count_char c piece = 0) (split_on c s).
Proof.
  induction s as [|x r IH]; [repeat constructor|].
  cbn [split_on].
  destruct (Ascii.eqb x c) eqn:E.
  - constructor; [reflexivity|assumption].
  - destruct (split_on_cons c r) as (first & others & Er).
    rewrite Er in *. inversion IH as [|? ? Hfirst Hothers]; subst.
    constructor; [|assumption]. cbn [count_char]. now rewrite E.
Qed.

(** *** Sorting *)

Lemma insert_sorted_permutation x l : Permutation (x :: l) (insert_sorted x l).
Proof.
  induction l as [|y r IH]; [reflexivity|].
  cbn [insert_sorted]. destruct (String.leb x y); [reflexivity|].
  rewrite perm_swap. now constructor.
Qed.

Lemma sorted_permutation l : Permutation l (sorted l).
Proof.
  induction l as [|x r IH]; [constructor|].
  cbn [sorted fold_right]. fold (sorted r).
  rewrite <- insert_sorted_permutation. now constructor.
Qed.

Lemma insert_sorted_ascending x l : ascending l -> ascending (insert_sorted x l).
Proof.
  induction l as [|y r IH]; intros Hl; [exact I|].
  cbn [insert_sorted]. destruct (String.leb x y) eqn:E.
  - split; assumption.
  - assert (Hyx : String.leb y x = true).
    { destruct (String.leb_total x y) as [H|H]; [congruence|assumption]. }
    destruct r as [|z r'].
    + cbn. auto.
    + destruct Hl as [Hyz Hr]. specialize (IH Hr).
      cbn [insert_sorted] in *. destruct (String.leb x z); split; assumption.
Qed.

Lemma sorted_ascending l : ascending (sorted l).
Proof.
  induction l as [|x r IH]; [exact I|].
  cbn [sorted fold_right]. now apply insert_sorted_ascending.
Qed.

(** *** The recursion *)

Section HumanizeFacts.
Variable strip : string -> string.
Variable literal_eval : string -> exc value.

Lemma process_dict_loop d :
  process_dict strip literal_eval d =
  for_each (process_step strip literal_eval) d [].
Proof.
  unfold process_dict. cbn [process_node]. generalize (@nil (string * value)).
  induction d as [|[key v] rest IH]; intros result; [reflexivity|].
  cbn [for_each]. unfold process_step at 1. cbn [fst snd].
  assert (Hentry :
            match v with
            | VDict _ =>
                r <- process_node strip literal_eval v ;; Ok (VDict r)
            | VList l =>
                l' <-
                  (fix each (l : list value) : exc (list value) :=
                     match l with
                     | [] => Ok []
                     | item :: r =>
                         item' <-
                           match item with
                           | VDict _ =>
                               p <- process_node strip literal_eval item ;;
                               Ok (VDict p)
                           | _ => Ok item
                           end ;;
                         r' <- each r ;;
                         Ok (item' :: r')
                     end) l ;;
                Ok (VList l')
            | _ => process_value strip literal_eval key v
            end = process_entry strip literal_eval key v).
  { destruct v as [| | | | |l|c]; try reflexivity.
    unfold process_entry. f_equal.
    induction l as [|item r IHl]; [reflexivity|].
    cbn [map_exc]. rewrite IHl. now destruct item. }
  rewrite Hentry.
  destruct (process_entry strip literal_eval key v) as [v'| |]; cbn [bind];
    [apply IH|reflexivity|reflexivity].
Qed.

(** Nothing is raised: the only call that can raise is inside a
    [try] that catches everything. *)
Lemma process_value_quiet key v cls msg :
  process_value strip literal_eval key v <> Raise cls msg.
Proof.
  unfold process_value. destruct v as [| | | |s| |]; try discriminate.
  destruct (key_in key SEMICOLON_LIST_KEYS); [discriminate|].
  destruct (key_in key GCODE_KEYS); [discriminate|].
  destruct (String.eqb key "machine_head_with_fans_polygon"); [|discriminate].
  destruct (literal_eval s); discriminate.
Qed.

Lemma for_each_quiet (A S : Type) (step : S -> A -> exc S) xs :
  Forall (fun x => forall acc cls msg, step acc x <> Raise cls msg) xs ->
  forall acc cls msg, for_each step xs acc <> Raise cls msg.
Proof.
  induction 1 as [|x r Hx _ IH]; intros acc cls msg; [discriminate|].
  cbn [for_each].
  destruct (step acc x) as [acc'|c m|] eqn:E; cbn [bind];
    [apply IH|intros [= -> ->]; exact (Hx _ _ _ E)|discriminate].
Qed.

Lemma map_exc_quiet (A B : Type) (f : A -> exc B) xs :
  Forall (fun x => forall cls msg, f x <> Raise cls msg) xs ->
  forall cls msg, map_exc f xs <> Raise cls msg.
Proof.
  induction 1 as [|x r Hx _ IH]; intros cls msg; [discriminate|].
  cbn [map_exc].
  destruct (f x) as [y|c m|] eqn:E; cbn [bind];
    [|intros [= -> ->]; exact (Hx _ _ eq_refl)|discriminate].
  destruct (map_exc f r) as [ys|c m|] eqn:Er; cbn [bind];
    [discriminate|intros [= -> ->]; exact (IH _ _ eq_refl)|discriminate].
Qed.

Lemma process_entry_quiet v :
  forall key cls msg, process_entry strip literal_eval key v <> Raise cls msg.
Proof.
  enough (H : (forall key cls msg,
                  process_entry strip literal_eval key v <> Raise cls msg) /\
              forall cls msg, process_item strip literal_eval v <> Raise cls msg)
    by apply H.
  induction v as [| | | | |l IH|d IH] using value_nested_ind;
    try (split; [intros key; apply process_value_quiet|discriminate]).
  - split; [|discriminate]. intros key cls msg. unfold process_entry.
    assert (Hl : forall c m,
               map_exc (process_item strip literal_eval) l <> Raise c m).
    { apply map_exc_quiet. eapply Forall_impl; [|exact IH].
      intros item [_ H]. exact H. }
    destruct (map_exc _ l) as [l'|c m|] eqn:E; cbn [bind];
      [discriminate|intros [= -> ->]; exact (Hl _ _ eq_refl)|discriminate].
  - assert (Hd : forall cls msg,
               process_dict strip literal_eval d <> Raise cls msg).
    { intros cls msg. rewrite process_dict_loop. apply for_each_quiet.
      eapply Forall_impl; [|exact IH]. intros [key v] [Hentry _] acc cls' msg'.
      unfold process_step. cbn [fst snd] in *.
      destruct (process_entry strip literal_eval key v) as [v'|c m|] eqn:E;
        cbn [bind];
        [discriminate|intros [= -> ->]; exact (Hentry _ _ _ E)|discriminate]. }
    split; [intros key cls msg|intros cls msg];
      cbn [process_entry process_item];
      (destruct (process_dict strip literal_eval d) as [d'|c m|] eqn:E;
       cbn [bind];
       [discriminate|intros [= -> ->]; exact (Hd _ _ eq_refl)|discriminate]).
Qed.

(** A run that stays in the model returns. *)
Lemma humanize_output_returns d :
  humanize_output strip literal_eval d <> OutOfModel ->
  exists d', humanize_output strip literal_eval d = Ok d'.
Proof.
  intros Hin.
  pose proof (fun cls msg =>
                @process_entry_quiet (VDict d) "" cls msg) as Hquiet.
  cbn [process_entry] in Hquiet. unfold humanize_output in *.
  destruct (process_dict strip literal_eval d) as [d'|cls msg|]; [eauto| |].
  - now contradiction (Hquiet cls msg).
  - now contradiction Hin.
Qed.

Lemma existsb_eqb_absent k (keys : list string) :
  ~ In k keys -> existsb (String.eqb k) keys = false.
Proof.
  intros Hk. destruct (existsb (String.eqb k) keys) eqn:E; [|reflexivity].
  apply existsb_exists in E as (x & Hx & Heq).
  apply String.eqb_eq in Heq. subst x. contradiction.
Qed.

Lemma process_loop d : forall acc result,
  NoDup (Dict.keys d) ->
  (forall k, In k (Dict.keys d) -> ~ In k (Dict.keys acc)) ->
  for_each (process_step strip literal_eval) d acc = Ok result ->
  Dict.keys result = Dict.keys acc ++ Dict.keys d /\
  (forall k, ~ In k (Dict.keys d) -> Dict.get k result = Dict.get k acc) /\
  (forall k v, Dict.get k d = Some v ->
     exists v', process_entry strip literal_eval k v = Ok v' /\
                Dict.get k result = Some v').
Proof.
  induction d as [|[key v] rest IH]; intros acc result Hnd Hfresh Hrun.
  - injection Hrun as <-. cbn [Dict.keys map]. rewrite app_nil_r.
    repeat split; auto. intros k v0 H. discriminate.
  - cbn [Dict.keys map fst] in Hnd, Hfresh. fold (Dict.keys rest) in Hnd, Hfresh.
    inversion Hnd as [|? ? Hnotin Hnd']; subst.
    cbn [for_each] in Hrun. unfold process_step at 1 in Hrun. cbn [fst snd] in Hrun.
    destruct (process_entry strip literal_eval key v) as [v'| |] eqn:Hv';
      cbn [bind] in Hrun; try discriminate Hrun.
    destruct (IH (Dict.set key v' acc) result Hnd') as (Hkeys & Hout & Hin);
      [|exact Hrun|].
    { intros k Hk Hacc. apply DictFacts.in_keys_set in Hacc as [->|Hacc].
      - contradiction.
      - apply (Hfresh k); [now right|assumption]. }
    split; [|split].
    + rewrite Hkeys, keys_set_cases, existsb_eqb_absent
        by (apply Hfresh; now left).
      cbn [Dict.keys map fst]. now rewrite <- app_assoc.
    + intros k Hk. rewrite Hout by (intros H; apply Hk; now right).
      apply DictFacts.get_set_other. intros ->. apply Hk. now left.
    + intros k v0. cbn [Dict.get].
      destruct (String.eqb key k) eqn:E.
      * apply String.eqb_eq in E. subst k. intros [= <-].
        exists v'. split; [exact Hv'|].
        rewrite Hout by assumption. apply DictFacts.get_set_same.
      * apply Hin.
Qed.

(** [humanize_output] on a dict: when the run stays in the model it
    returns, keeps the keys in their order, and puts under each key what
    [process_entry] makes of the value. *)
Lemma humanize_entries d :
  NoDup (Dict.keys d) ->
  humanize_output strip literal_eval d <> OutOfModel ->
  exists d',
    humanize_output strip literal_eval d = Ok d' /\
    Dict.keys d' = Dict.keys d /\
    forall k v, Dict.get k d = Some v ->
      exists v', process_entry strip literal_eval k v = Ok v' /\
                 Dict.get k d' = Some v'.
Proof.
  intros Hnd Hmodel.
  destruct (@humanize_output_returns d Hmodel) as (d' & Hrun).
  exists d'. split; [assumption|].
  unfold humanize_output in Hrun. rewrite process_dict_loop in Hrun.
  destruct (@process_loop d [] d' Hnd) as (Hkeys & _ & Hin);
    [intros k _ []|exact Hrun|].
  split; assumption.
Qed.

Lemma map_exc_each (A B : Type) (f : A -> exc B) xs : forall ys,
  map_exc f xs = Ok ys -> Forall2 (fun x y => f x = Ok y) xs ys.
Proof.
  induction xs as [|x r IH]; intros ys H.
  - injection H as <-. constructor.
  - cbn [map_exc] in H. bind_inv H. bind_inv H. injection H as <-.
    constructor; [assumption|now apply IH].
Qed.

(** X25. Post-processing never raises and keeps the shape of the
    document: on a dict with distinct keys, and with [literal_eval]
    giving JSON values where it is called, [humanize_output] returns a
    dict with the same keys in the same order; numbers, booleans and null are unchanged, and so is
    text under every key outside the semicolon-list keys, the G-code keys
    and [machine_head_with_fans_polygon]; a dict is post-processed in
    turn; in a list the dicts are post-processed and every other item,
    lists included, is kept as it is. *)
Theorem humanize_keeps_the_shape :
  forall d,
    NoDup (Dict.keys d) ->
    humanize_output strip literal_eval d <> OutOfModel ->
    exists d',
      humanize_output strip literal_eval d = Ok d' /\
      Dict.keys d' = Dict.keys d /\
      forall k v, Dict.get k d = Some v ->
        match v with
        | VDict c =>
            exists c',
              humanize_output strip literal_eval c = Ok c' /\
              Dict.get k d' = Some (VDict c')
        | VList l =>
            exists l',
              Dict.get k d' = Some (VList l') /\
              Forall2 (fun item item' =>
                         match item with
                         | VDict c =>
                             exists c',
                               humanize_output strip literal_eval c = Ok c' /\
                               item' = VDict c'
                         | _ => item' = item
                         end) l l'
        | VStr s =>
            key_in k SEMICOLON_LIST_KEYS = false ->
            key_in k GCODE_KEYS = false ->
            k <> "machine_head_with_fans_polygon" ->
            Dict.get k d' = Some v
        | _ => Dict.get k d' = Some v
        end.
Proof.
  intros d Hnd Hmodel.
  destruct (@humanize_entries d Hnd Hmodel) as (d' & Hrun & Hkeys & Hin).
  exists d'. split; [assumption|]. split; [assumption|].
  intros k v Hk. destruct (Hin k v Hk) as (v' & Hentry & Hget).
  destruct v as [|b|z|f|s|l|c]; cbn [process_entry process_value] in Hentry;
    try (injection Hentry as <-; exact Hget).
  - intros Hsemi Hgcode Hpoly. rewrite Hsemi, Hgcode in Hentry.
    apply String.eqb_neq in Hpoly. rewrite Hpoly in Hentry.
    injection Hentry as <-. exact Hget.
  - bind_inv Hentry. injection Hentry as <-.
    exists a. split; [assumption|].
    apply map_exc_each in Hrun0.
    eapply Forall2_impl; [|exact Hrun0].
    intros item item' Hitem. destruct item as [| | | | | |ci];
      cbn [process_item] in Hitem; try (now injection Hitem as <-).
    bind_inv Hitem. injection Hitem as <-. eauto.
  - bind_inv Hentry. injection Hentry as <-. eauto.
Qed.

Lemma gcode_key_is_no_list_key key :
  In key GCODE_KEYS ->
  key_in key SEMICOLON_LIST_KEYS = false /\ key_in key GCODE_KEYS = true.
Proof. intros [<-|[<-|[<-|[<-|[]]]]]; split; reflexivity. Qed.

(** X26. G-code text becomes a list of lines and nothing is lost: for
    text under a G-code key, the escapes [\n] and [\t] are replaced by a
    newline and a tab, and when the result has a newline the value becomes
    the list of its lines, which joined with newlines give that text
    back, one more line than it has newlines and no newline inside a
    line. Text that has no newline after that stays the string it was,
    escapes included. *)
Theorem gcode_text_becomes_lines :
  forall d key s,
    NoDup (Dict.keys d) ->
    humanize_output strip literal_eval d <> OutOfModel ->
    In key GCODE_KEYS ->
    Dict.get key d = Some (VStr s) ->
    exists d',
      humanize_output strip literal_eval d = Ok d' /\
      (count_char newline (unescaped s) = 0 ->
       Dict.get key d' = Some (VStr s)) /\
      (count_char newline (unescaped s) <> 0 ->
       exists lines,
         Dict.get key d' = Some (VList (map VStr lines)) /\
         join (String newline EmptyString) lines = unescaped s /\
         List.length lines = S (count_char newline (unescaped s)) /\
         Forall (fun line => count_char newline line = 0) lines).
Proof.
  intros d key s Hnd Hmodel Hkey Hs.
  destruct (@humanize_entries d Hnd Hmodel) as (d' & Hrun & _ & Hin).
  exists d'. split; [assumption|].
  destruct (Hin key _ Hs) as (v' & Hentry & Hget).
  cbn [process_entry process_value] in Hentry.
  destruct (@gcode_key_is_no_list_key key Hkey) as [Hno Hyes].
  rewrite Hno, Hyes in Hentry. rewrite split_on_length in Hentry.
  injection Hentry as <-. split.
  - intros Hnone. rewrite Hnone in Hget. exact Hget.
  - intros Hsome.
    destruct (count_char newline (unescaped s)) as [|n] eqn:En; [contradiction|].
    cbn [Nat.ltb Nat.leb] in Hget.
    exists (split_on newline (unescaped s)). split; [exact Hget|].
    split; [apply join_split|]. split; [|apply split_on_pieces].
    now rewrite split_on_length, En.
Qed.

Lemma semicolon_items_filled s : Forall (fun item => item <> "") (semicolon_items strip s).
Proof.
  unfold semicolon_items. apply Forall_forall. intros item Hitem.
  apply in_map_iff in Hitem as (piece & <- & Hpiece).
  apply filter_In in Hpiece as [_ Hkeep].
  intros Hempty. rewrite Hempty in Hkeep. discriminate.
Qed.

(** X27. Semicolon lists: text under a semicolon-list key becomes the
    list of its pieces between semicolons, each stripped and the empty
    ones dropped. Up to ten items keep the order of the text; more than
    ten are put in ascending order, the same items with their repeats. *)
Theorem semicolon_text_becomes_a_list :
  forall d key s,
    NoDup (Dict.keys d) ->
    humanize_output strip literal_eval d <> OutOfModel ->
    In key SEMICOLON_LIST_KEYS ->
    Dict.get key d = Some (VStr s) ->
    exists d' items,
      humanize_output strip literal_eval d = Ok d' /\
      Dict.get key d' = Some (VList (map VStr items)) /\
      Permutation (semicolon_items strip s) items /\
      Forall (fun item => item <> "") items /\
      (List.length (semicolon_items strip s) <= 10 ->
       items = semicolon_items strip s) /\
      (10 < List.length (semicolon_items strip s) -> ascending items).
Proof.
  intros d key s Hnd Hmodel Hkey Hs.
  destruct (@humanize_entries d Hnd Hmodel) as (d' & Hrun & _ & Hin).
  destruct (Hin key _ Hs) as (v' & Hentry & Hget).
  cbn [process_entry process_value] in Hentry.
  assert (Hyes : key_in key SEMICOLON_LIST_KEYS = true).
  { unfold key_in. apply existsb_exists. exists key.
    split; [assumption|apply String.eqb_refl]. }
  rewrite Hyes in Hentry. injection Hentry as <-.
  exists d'.
  destruct (Nat.ltb 10 (List.length (semicolon_items strip s))) eqn:E.
  - apply Nat.ltb_lt in E.
    exists (sorted (semicolon_items strip s)).
    split; [assumption|]. split; [exact Hget|].
    split; [apply sorted_permutation|]. split; [|split].
    + eapply Permutation_Forall; [apply sorted_permutation|].
      apply semicolon_items_filled.
    + intros Hle. lia.
    + intros _. apply sorted_ascending.
  - apply Nat.ltb_ge in E.
    exists (semicolon_items strip s).
    split; [assumption|]. split; [exact Hget|].
    split; [reflexivity|]. split; [apply semicolon_items_filled|].
    split; [reflexivity|]. intros Hgt. lia.
Qed.

End HumanizeFacts.

Lemma bench_report_distinct : NoDup (Dict.keys Bench.report).
Proof. distinct_keys. Defined.

Lemma bench_lab_gcode_distinct : NoDup (Dict.keys Bench.lab_gcode).
Proof. distinct_keys. Defined.

Lemma bench_general_distinct : NoDup (Dict.keys Bench.general).
Proof. distinct_keys. Defined.

Lemma humanize_keeps_the_shape_witness :
  exists d',
    humanize_output Bench.strip Bench.literal_eval Bench.report = Ok d' /\
    Dict.keys d' = ["total"; "gcode"; "machine_head_with_fans_polygon"; "notes"] /\
    Dict.get "total" d' = Some (VInt 4) /\
    exists l', Dict.get "notes" d' = Some (VList l') /\ List.length l' = 2.
Proof.
  destruct (@humanize_keeps_the_shape Bench.strip Bench.literal_eval Bench.report
              bench_report_distinct)
    as (d' & Hrun & Hkeys & Hin); [vm_compute; discriminate|].
  exists d'. split; [exact Hrun|]. split; [exact Hkeys|].
  split; [exact (Hin "total" (VInt 4) eq_refl)|].
  destruct (Hin "notes" _ eq_refl) as (l' & Hget & Hall).
  exists l'. split; [exact Hget|].
  symmetry. exact (Forall2_length Hall).
Defined.

Lemma gcode_text_becomes_lines_witness :
  exists d' lines,
    humanize_output Bench.strip Bench.literal_eval Bench.lab_gcode = Ok d' /\
    Dict.get "start_gcode" d' = Some (VList (map VStr lines)) /\
    List.length lines = 2 /\
    Dict.get "end_gcode" d' = Some (VStr "M84\tS0").
Proof.
  destruct (@gcode_text_becomes_lines Bench.strip Bench.literal_eval
              Bench.lab_gcode "start_gcode" "G28\nG1 Z5" bench_lab_gcode_distinct)
    as (d' & Hrun & _ & Hsome);
    [vm_compute; discriminate|cbn; tauto|reflexivity|].
  destruct Hsome as (lines & Hget & _ & Hlen & _); [vm_compute; discriminate|].
  exists d', lines. split; [exact Hrun|]. split; [exact Hget|].
  split; [exact Hlen|].
  vm_compute in Hrun. injection Hrun as <-. reflexivity.
Defined.

Lemma semicolon_text_becomes_a_list_witness :
  exists d',
    humanize_output Bench.strip Bench.literal_eval Bench.general = Ok d' /\
    Dict.get "visible_settings" d' =
      Some (VList [VStr "layer_height"; VStr "infill_sparse_density";
                   VStr "wall_thickness"]).
Proof.
  destruct (@semicolon_text_becomes_a_list Bench.strip Bench.literal_eval
              Bench.general "visible_settings"
              "layer_height; infill_sparse_density;;wall_thickness"
              bench_general_distinct)
    as (d' & items & Hrun & Hget & _ & _ & Hshort & _);
    [vm_compute; discriminate|cbn; tauto|reflexivity|].
  exists d'. split; [exact Hrun|].
  rewrite Hget, Hshort; [reflexivity|vm_compute; lia].
Defined.

(** ** The summary and the post-processing *)

(** The line count the summary gives a G-code text: its newlines plus
    one. *)
Lemma summary_start_lines data g s summary :
  Dict.get "gcode" data = Some (VDict g) ->
  Dict.get "start_gcode" g = Some (VStr s) ->
  create_summary_section data = Ok summary ->
  Dict.get "start_gcode_lines" summary =
  Some (VInt (Z.of_nat (count_char newline s) + 1)).
Proof.
  intros Hg Hs H. unfold create_summary_section in H. rewrite Hg in H.
  cbn [dict_get_default] in H. rewrite Hs in H.
  destruct (Dict.get "machine" data); destruct (Dict.get "quality_builtin" data);
    destruct (Dict.get "quality_custom" data); destruct (Dict.get "plugins" data);
    run_binds H; injection H as <-;
    match goal with
    | E : gcode_lines (VStr s) = Ok _ |- _ =>
        cbn [gcode_lines] in E; injection E as <-
    end;
    reflexivity.
Qed.

(** X28. The summary counts G-code lines before the escapes are
    expanded: for a start G-code stored on one line with an escaped
    newline in it, as configuration files hold it, the summary says one
    line, while [humanize_output] turns the same text into a list of two
    lines or more. *)
Theorem summary_misses_escaped_newlines :
  forall strip literal_eval data g s summary,
    Dict.get "gcode" data = Some (VDict g) ->
    NoDup (Dict.keys g) ->
    Dict.get "start_gcode" g = Some (VStr s) ->
    count_char newline s = 0 ->
    count_char newline (unescaped s) <> 0 ->
    create_summary_section data = Ok summary ->
    humanize_output strip literal_eval g <> OutOfModel ->
    Dict.get "start_gcode_lines" summary = Some (VInt 1) /\
    exists g' lines,
      humanize_output strip literal_eval g = Ok g' /\
      Dict.get "start_gcode" g' = Some (VList (map VStr lines)) /\
      2 <= List.length lines.
Proof.
  intros strip literal_eval data g s summary Hg Hnd Hs Hraw Hescaped Hsummary Hmodel.
  split.
  - rewrite (summary_start_lines _ Hg Hs Hsummary), Hraw. reflexivity.
  - destruct (@humanize_entries strip literal_eval g Hnd Hmodel)
      as (g' & Hrun & _ & Hin).
    destruct (Hin "start_gcode" _ Hs) as (v' & Hentry & Hget).
    cbn [process_entry process_value key_in existsb String.eqb Ascii.eqb
           SEMICOLON_LIST_KEYS GCODE_KEYS orb Bool.eqb] in Hentry.
    rewrite split_on_length in Hentry.
    destruct (count_char newline (unescaped s)) as [|n] eqn:En; [contradiction|].
    cbn [Nat.ltb Nat.leb] in Hentry. injection Hentry as <-.
    exists g', (split_on newline (unescaped s)).
    split; [assumption|]. split; [assumption|].
    rewrite split_on_length, En. lia.
Qed.

Lemma summary_misses_escaped_newlines_witness :
  exists summary g' lines,
    create_summary_section [("gcode", VDict Bench.lab_gcode)] = Ok summary /\
    Dict.get "start_gcode_lines" summary = Some (VInt 1) /\
    humanize_output Bench.strip Bench.literal_eval Bench.lab_gcode = Ok g' /\
    Dict.get "start_gcode" g' = Some (VList (map VStr lines)) /\
    2 <= List.length lines.
Proof.
  destruct (create_summary_section [("gcode", VDict Bench.lab_gcode)])
    as [summary|cls msg|] eqn:E; try (vm_compute in E; discriminate E).
  destruct (@summary_misses_escaped_newlines Bench.strip Bench.literal_eval
              [("gcode", VDict Bench.lab_gcode)] Bench.lab_gcode "G28\nG1 Z5"
              summary eq_refl bench_lab_gcode_distinct eq_refl eq_refl)
    as (Hone & g' & lines & Hrun & Hget & Hlen);
    [vm_compute; discriminate|exact E|vm_compute; discriminate|].
  exists summary, g', lines. repeat split; assumption.
Defined.
